(** * Sysdarft: operand codec, operand resolver and executor

    A shallow embedding of
    - [utils/Assembler/encode.target.cpp]  (module [Assembler]),
    - [src/sysdarft_processor/cpu/real_mode_target_access.cpp] and
      [src/sysdarft_processor/cpu/instruction_executor.cpp] (module [Processor]),
    - the caller label of [src/include/debug.inl] (module [Debug]),
    followed by the properties established about them.  The canonical text
    the specification compares a disassembly with is written after the words
    of the specification, at the end of module [Assembler].

    Conventions.  A byte is a [Z] in [0, 256); a [uint64_t] is a [Z] with the
    wrap-around written out ([u64]); a [std::vector<uint8_t>] is a [list Z];
    a C++ exception is the [Throw] branch of [result]. *)

From Stdlib Require Import ZArith String Ascii List Bool Lia.
From Stdlib Require Import DecimalString HexadecimalString.
From Stdlib Require DecimalPos HexadecimalN HexadecimalPos.
From stdpp Require Import base option list gmap strings.

Local Open Scope string_scope.
Local Open Scope list_scope.
Local Open Scope Z_scope.

(** ** Exceptions and the result monad *)

Inductive exception : Type :=
  | TargetExpressionError (message : string)
      (* SysdarftBaseError("Cannot parse Target expression: " + message) *)
  | IllegalInstruction
      (* thrown by __illegal_instruction_assert__ and do_decode_via_prefix *)
  | UndefinedBehaviour.
      (* an access the C++ code performs without a check (input[0] of an
         empty vector, front() or back() of an empty string) *)

Inductive result (A : Type) : Type :=
  | Ok (a : A)
  | Throw (e : exception).
Arguments Ok {A} a.
Arguments Throw {A} e.

#[global] Instance result_ret : MRet result := @Ok.
#[global] Instance result_bind : MBind result :=
  fun A B f m => match m with Ok a => f a | Throw e => Throw e end.

(** ** Machine integers and text renderings *)

Definition u8 (x : Z) : Z := x mod 2 ^ 8.
Definition u16 (x : Z) : Z := x mod 2 ^ 16.
Definition u32 (x : Z) : Z := x mod 2 ^ 32.
Definition u64 (x : Z) : Z := x mod 2 ^ 64.

(** [*(int64_t* )(void* )&num]: the two's-complement reading of 64 bits. *)
Definition as_int64 (num : Z) : Z :=
  if u64 num <? 2 ^ 63 then u64 num else u64 num - 2 ^ 64.

Definition LLONG_MAX : Z := 2 ^ 63 - 1.
Definition LLONG_MIN : Z := - 2 ^ 63.
Definition ULLONG_MAX : Z := 2 ^ 64 - 1.

(** [std::to_string] and [operator<<] on an integer: decimal, with a leading
    minus sign when negative. *)
Definition to_string (x : Z) : string :=
  DecimalString.NilZero.string_of_int (Z.to_int x).

(** [std::toupper] in the "C" locale. *)
Definition toupper (c : ascii) : ascii :=
  let n := nat_of_ascii c in
  if ((97 <=? n) && (n <=? 122))%nat then ascii_of_nat (n - 32) else c.

Fixpoint string_map (f : ascii -> ascii) (s : string) : string :=
  match s with
  | EmptyString => EmptyString
  | String c rest => String (f c) (string_map f rest)
  end.

(** [os << std::hex << std::uppercase << num] for an unsigned number. *)
Definition to_hex_upper (num : Z) : string :=
  string_map toupper
    (HexadecimalString.NilZero.string_of_uint (N.to_hex_uint (Z.to_N num))).

(** The double-quote character. *)
Definition dquote : string := String (ascii_of_nat 34) EmptyString.

(** ** Byte vectors *)

(** The [n] low bytes of [value], least significant first (the host is
    little-endian): what reading [n] bytes through a [uint8_t*] yields. *)
Fixpoint le_bytes (n : nat) (value : Z) : list Z :=
  match n with
  | O => []
  | S n' => value mod 256 :: le_bytes n' (value / 256)
  end.

(** The number whose little-endian bytes are [bs]. *)
Fixpoint le_value (bs : list Z) : Z :=
  match bs with
  | [] => 0
  | b :: rest => b + 256 * le_value rest
  end.

Definition is_byte (b : Z) : Prop := 0 <= b < 256.

Module Assembler.

(** *** Constants and patterns *)

Definition REGISTER_PREFIX : Z := 0x01.
Definition CONSTANT_PREFIX : Z := 0x02.
Definition MEMORY_PREFIX : Z := 0x03.

Definition string_forallb (p : ascii -> bool) : string -> bool :=
  fix go (s : string) : bool :=
    match s with
    | EmptyString => true
    | String c rest => p c && go rest
    end.

(** What [.] matches in an ECMAScript regular expression: any character but
    a line terminator. *)
Definition regex_dot (c : ascii) : bool :=
  negb (Ascii.eqb c (ascii_of_nat 10)) && negb (Ascii.eqb c (ascii_of_nat 13)).

(** [s] without its last character, and that character. *)
Fixpoint unsnoc (s : string) : option (string * ascii) :=
  match s with
  | EmptyString => None
  | String c rest =>
      match unsnoc rest with
      | None => Some (EmptyString, c)
      | Some (init, last) => Some (String c init, last)
      end
  end.

(** [s] split at its last occurrence of [sep]. *)
Fixpoint rsplit (sep : ascii) (s : string) : option (string * string) :=
  match s with
  | EmptyString => None
  | String c rest =>
      match rsplit sep rest with
      | Some (before, after) => Some (String c before, after)
      | None => if Ascii.eqb c sep then Some (EmptyString, rest) else None
      end
  end.

(** [s] without the prefix [p], when it has it. *)
Fixpoint strip_prefix (p s : string) : option string :=
  match p, s with
  | EmptyString, _ => Some s
  | String a p', String b s' => if Ascii.eqb a b then strip_prefix p' s' else None
  | String _ _, EmptyString => None
  end.

(** The first alternative that matches. *)
Fixpoint first_match {A B : Type} (f : A -> option B) (alternatives : list A) : option B :=
  match alternatives with
  | [] => None
  | a :: rest => match f a with Some b => Some b | None => first_match f rest end
  end.

(** [register_pattern]: [^%(R[0-7]|EXR[0-7]|HER[0-7]|FER[0-7])$], a finite
    language, listed. *)
Definition register_pattern : list string :=
  flat_map
    (fun class => map (fun digit => "%" +:+ class +:+ digit)
                      ["0"; "1"; "2"; "3"; "4"; "5"; "6"; "7"])
    ["R"; "EXR"; "HER"; "FER"].

(** [constant_pattern]: a dollar sign, an opening parenthesis, one capture
    group of any characters (dot-star) and a closing parenthesis, anchored at
    both ends; the function returns the capture group. *)
Definition constant_pattern (input : string) : option string :=
  match strip_prefix "$(" input with
  | Some rest =>
      match unsnoc rest with
      | Some (body, last) =>
          if Ascii.eqb last ")" && string_forallb regex_dot body
          then Some body else None
      | None => None
      end
  | None => None
  end.

(** [memory_pattern]: a star, the group [[1]|[2]|[4]|[8]|[1][6]], an opening
    parenthesis, three dot-star groups separated by commas and a closing
    parenthesis, anchored at both ends; the function returns the four groups.
    The quantifiers are greedy, so the second group runs up to the last comma
    but one and the third up to the last comma. *)
Definition memory_pattern (input : string) : option (string * string * string * string) :=
  let alternative (ratio : string) :=
    match strip_prefix ("*" +:+ ratio +:+ "(") input with
    | Some rest =>
        match unsnoc rest with
        | Some (body, last) =>
            if Ascii.eqb last ")" && string_forallb regex_dot body then
              match rsplit "," body with
              | Some (front, g4) =>
                  match rsplit "," front with
                  | Some (g2, g3) => Some (ratio, g2, g3, g4)
                  | None => None
                  end
              | None => None
              end
            else None
        | None => None
        end
    | None => None
    end in
  first_match alternative ["1"; "2"; "4"; "8"; "16"].

Definition is_valid_register (input : string) : bool :=
  existsb (String.eqb input) register_pattern.

Definition is_valid_constant (input : string) : bool :=
  match constant_pattern input with Some _ => true | None => false end.

Definition is_valid_memory (input : string) : bool :=
  match memory_pattern input with Some _ => true | None => false end.

(** *** Parsing operand text *)

Inductive TargetType_t : Type := NOTaValidType | REGISTER | CONSTANT | MEMORY.

Record memory_t : Type := {
  MemoryAccessRatio : string;
  MemoryBaseAddress : string;
  MemoryOffset1 : string;
  MemoryOffset2 : string
}.

Record parsed_target_t : Type := {
  TargetType : TargetType_t;
  RegisterName : string;
  ConstantExpression : string;
  memory : memory_t
}.

(** [std::erase(str, ' ')]. *)
Fixpoint remove_space (str : string) : string :=
  match str with
  | EmptyString => EmptyString
  | String c rest =>
      if Ascii.eqb c " " then remove_space rest else String c (remove_space rest)
  end.

Definition capitalization (input : string) : string := string_map toupper input.

(** [parsed_target_t result { }]: value-initialised. *)
Definition empty_memory : memory_t :=
  {| MemoryAccessRatio := ""; MemoryBaseAddress := "";
     MemoryOffset1 := ""; MemoryOffset2 := "" |}.

Definition empty_target : parsed_target_t :=
  {| TargetType := NOTaValidType; RegisterName := "";
     ConstantExpression := ""; memory := empty_memory |}.

Definition register_target (name : string) : parsed_target_t :=
  {| TargetType := REGISTER; RegisterName := name;
     ConstantExpression := ""; memory := empty_memory |}.

Definition constant_target (expression : string) : parsed_target_t :=
  {| TargetType := CONSTANT; RegisterName := "";
     ConstantExpression := expression; memory := empty_memory |}.

Definition parse (input : string) : result parsed_target_t :=
  let input := remove_space input in
  let input := capitalization input in
  if is_valid_register input then Ok (register_target input)
  else if is_valid_constant input then Ok (constant_target input)
  else if is_valid_memory input then
    match memory_pattern input with
    | Some (ratio, base, offset1, offset2) =>
        Ok {| TargetType := MEMORY; RegisterName := ""; ConstantExpression := "";
              memory := {| MemoryAccessRatio := ratio; MemoryBaseAddress := base;
                           MemoryOffset1 := offset1; MemoryOffset2 := offset2 |} |}
    | None => Ok empty_target
    end
  else Throw (TargetExpressionError input).

(** *** The C library's number parsers *)

Definition isspace (c : ascii) : bool :=
  let n := nat_of_ascii c in ((n =? 32) || ((9 <=? n) && (n <=? 13)))%nat.

Fixpoint skip_spaces (s : string) : string :=
  match s with
  | String c rest => if isspace c then skip_spaces rest else s
  | EmptyString => s
  end.

(** The value of [c] as a digit: 0-9, then letters from 10 on. *)
Definition digit_value (c : ascii) : option Z :=
  let n := Z.of_nat (nat_of_ascii c) in
  if (48 <=? n) && (n <=? 57) then Some (n - 48)
  else if (97 <=? n) && (n <=? 122) then Some (n - 97 + 10)
  else if (65 <=? n) && (n <=? 90) then Some (n - 65 + 10)
  else None.

Definition is_digit_in (base : Z) (c : ascii) : bool :=
  match digit_value c with Some d => d <? base | None => false end.

(** The number spelled by the leading digits of [s]; 0 when there is none. *)
Fixpoint leading_digits (base acc : Z) (s : string) : Z :=
  match s with
  | String c rest =>
      match digit_value c with
      | Some d => if d <? base then leading_digits base (acc * base + d) rest else acc
      | None => acc
      end
  | EmptyString => acc
  end.

(** Blanks, an optional sign, for base 16 an optional "0x", then digits. *)
Definition scan_number (nptr : string) (base : Z) : bool * Z :=
  let s := skip_spaces nptr in
  let '(negative, s) :=
    match s with
    | String c rest =>
        if Ascii.eqb c "-" then (true, rest)
        else if Ascii.eqb c "+" then (false, rest)
        else (false, s)
    | EmptyString => (false, s)
    end in
  let s :=
    match s with
    | String z (String x (String d rest)) =>
        if (base =? 16) && Ascii.eqb z "0" && (Ascii.eqb x "x" || Ascii.eqb x "X")
           && is_digit_in 16 d
        then String d rest else s
    | _ => s
    end in
  (negative, leading_digits base 0 s).

(** [strtoll] (and [strtol], [long] being 64 bits wide): saturating. *)
Definition strtoll (nptr : string) (base : Z) : Z :=
  let '(negative, magnitude) := scan_number nptr base in
  if negative then Z.max LLONG_MIN (- magnitude) else Z.min LLONG_MAX magnitude.

Definition strtol := strtoll.

(** [strtoull]: saturating; a minus sign negates modulo 2^64. *)
Definition strtoull (nptr : string) (base : Z) : Z :=
  let '(negative, magnitude) := scan_number nptr base in
  if ULLONG_MAX <? magnitude then ULLONG_MAX
  else if negative then u64 (- magnitude) else magnitude.

(** *** Hexadecimal literals *)

(** The lambda [replace_all] of [process_base16], on a non-empty [target]:
    every occurrence found from the left is replaced, and the search resumes
    behind the replacement. *)
Fixpoint replace_from (fuel : nat) (target replacement input : string) : string :=
  match fuel with
  | O => input
  | S fuel' =>
      match strip_prefix target input with
      | Some rest => replacement +:+ replace_from fuel' target replacement rest
      | None =>
          match input with
          | EmptyString => EmptyString
          | String c rest => String c (replace_from fuel' target replacement rest)
          end
      end
  end.

Definition replace_all (target replacement input : string) : string :=
  match target with
  | EmptyString => input
  | _ => replace_from (S (String.length input)) target replacement input
  end.

(** The longest prefix of [s] whose characters satisfy [p], and the rest. *)
Fixpoint span (p : ascii -> bool) (s : string) : string * string :=
  match s with
  | String c rest =>
      if p c then let '(taken, others) := span p rest in (String c taken, others)
      else (EmptyString, s)
  | EmptyString => (EmptyString, s)
  end.

(** [base16_pattern], "0x[0-9A-Fa-f]+", matched at the head of [s]: the match
    and what follows it. *)
Definition base16_pattern (s : string) : option (string * string) :=
  match strip_prefix "0x" s with
  | Some rest =>
      let '(digits, others) := span (is_digit_in 16) rest in
      match digits with
      | EmptyString => None
      | _ => Some ("0x" +:+ digits, others)
      end
  | None => None
  end.

(** The matches a [std::sregex_iterator] enumerates: leftmost first, each
    search resuming where the previous match ended. *)
Fixpoint base16_matches (fuel : nat) (s : string) : list string :=
  match fuel with
  | O => []
  | S fuel' =>
      match base16_pattern s with
      | Some (found, others) => found :: base16_matches fuel' others
      | None =>
          match s with
          | EmptyString => []
          | String _ rest => base16_matches fuel' rest
          end
      end
  end.

Definition process_base16 (input : string) : string :=
  (* fix the uppercase conversion *)
  let input := replace_all "0X" "0x" input in
  let data :=
    map (fun base16_number_str => (base16_number_str, strtoull base16_number_str 16))
        (base16_matches (S (String.length input)) input) in
  fold_left (fun input '(tag, rep) => replace_all tag (to_string rep) input) data input.

(** *** Encoding *)

(** [push<LENGTH>(buffer, value)]: the [LENGTH / 8] low bytes of the object
    at [value], appended. *)
Definition push (LENGTH : nat) (buffer : list Z) (value : Z) : list Z :=
  buffer ++ le_bytes (LENGTH / 8) value.

Definition push8 (buffer : list Z) (value : Z) : list Z := push 8 buffer value.

(** [str.pop_back()]. *)
Definition pop_back (str : string) : string :=
  match unsnoc str with Some (init, _) => init | None => EmptyString end.

(** [str.erase(str.begin())]. *)
Definition erase_begin (str : string) : string :=
  match str with String _ rest => rest | EmptyString => EmptyString end.

Definition encode_register (buffer : list Z) (input : parsed_target_t) : result (list Z) :=
  match unsnoc (RegisterName input) with
  | None => Throw UndefinedBehaviour
  | Some (_, back) =>
      let suffix := String back EmptyString in
      let register_index := u8 (strtol suffix 10) in
      let buffer := push8 buffer REGISTER_PREFIX in
      let class := match String.get 1 (RegisterName input) with
                   | Some c => c | None => zero end in
      buffer ← (if Ascii.eqb class "R" then (* 8bit Register *) Ok (push8 buffer 0x08)
                else if Ascii.eqb class "E" then (* 16bit Register *) Ok (push8 buffer 0x16)
                else if Ascii.eqb class "H" then (* 32bit Register *) Ok (push8 buffer 0x32)
                else if Ascii.eqb class "F" then (* 64bit Register *) Ok (push8 buffer 0x64)
                else Throw (TargetExpressionError "Unrecognized register name"));
      Ok (push8 buffer register_index)
  end.

Record cmd_status : Type := {
  fd_stdout : string;
  fd_stderr : string;
  exit_status : Z
}.

Section Encoder.

(** [debug::exec_command]: runs a program of the host; what it prints and
    returns lies outside the repository. *)
Variable exec_command : string -> list string -> cmd_status.

Definition execute_bc (input : string) (scale : Z) : result string :=
  let cmd := "bc <<< " +:+ dquote +:+ "scale=" +:+ to_string scale +:+ "; "
             +:+ input +:+ dquote in
  let result := exec_command "sh" ["-c"; cmd] in
  if negb (exit_status result =? 0)
  then Throw (TargetExpressionError (input +:+ ": " +:+ to_string (exit_status result)))
  else Ok (fd_stdout result).

Definition encode_constant (buffer : list Z) (input : parsed_target_t) : result (list Z) :=
  let tmp := ConstantExpression input in
  if (String.length tmp <=? 2)%nat
  then Throw (TargetExpressionError (ConstantExpression input))
  else
    (* remove last ')' *)
    let tmp := pop_back tmp in
    (* remove '$(' *)
    let tmp := erase_begin tmp in
    let tmp := erase_begin tmp in
    (* replace base 16 value to base 10 value *)
    let tmp := process_base16 tmp in
    let buffer := push8 buffer CONSTANT_PREFIX in
    result_from_bc ← execute_bc tmp 0;
    let result_cmp1 := strtoll result_from_bc 10 in
    let result_cmp2 := strtoull result_from_bc 10 in
    result ← (if result_cmp1 =? result_cmp2 then Ok result_cmp1
              else (* two compliments are not equal *)
                match tmp with
                | String front _ =>
                    if Ascii.eqb front "-" then Ok result_cmp1 (* signed value *)
                    else Ok result_cmp2 (* use the unsigned value *)
                | EmptyString => Throw UndefinedBehaviour
                end);
    let buffer := if result <? 0 then push8 buffer 0x01 else push8 buffer 0x00 in
    Ok (push 64 buffer result).

Definition encode_each_parameter (buffer : list Z) (param : string) : result (list Z) :=
  if is_valid_register param then
    let tmp := pop_back param in
    (* Not a 64bit register *)
    if negb (String.eqb tmp "%FER")
    then Throw (TargetExpressionError ("Not a 64bit Register: " +:+ param))
    else encode_register buffer (register_target param)
  else if is_valid_constant param then encode_constant buffer (constant_target param)
  else Throw (TargetExpressionError param).

Definition encode_memory (buffer : list Z) (input : parsed_target_t) : result (list Z) :=
  let buffer := push8 buffer MEMORY_PREFIX in
  (* Ratio. Ratio is a 8bit packed BCD code *)
  let ratio := MemoryAccessRatio (memory input) in
  let buffer :=
    if String.eqb ratio "1" then push8 buffer 0x01
    else if String.eqb ratio "2" then push8 buffer 0x02
    else if String.eqb ratio "4" then push8 buffer 0x04
    else if String.eqb ratio "8" then push8 buffer 0x08
    else if String.eqb ratio "16" then push8 buffer 0x16
    else buffer in
  buffer ← encode_each_parameter buffer (MemoryBaseAddress (memory input));
  buffer ← encode_each_parameter buffer (MemoryOffset1 (memory input));
  encode_each_parameter buffer (MemoryOffset2 (memory input)).

Definition encode_target (buffer : list Z) (input : string) : result (list Z) :=
  parsed ← parse input;
  match TargetType parsed with
  | REGISTER => encode_register buffer parsed
  | CONSTANT => encode_constant buffer parsed
  | MEMORY => encode_memory buffer parsed
  | NOTaValidType => Throw (TargetExpressionError input)
  end.

End Encoder.

(** *** Decoding *)

(** The loop of [pop<LENGTH>]: [buffer[i] = input[0]; input.erase(input.begin())],
    [count] times, with no check that [input] still holds a byte. *)
Fixpoint pop_loop (count : nat) (input : list Z) : result (Z * list Z) :=
  match count with
  | O => Ok (0, input)
  | S count' =>
      match input with
      | [] => Throw UndefinedBehaviour
      | byte :: input =>
          '(high, input) ← pop_loop count' input;
          Ok (byte + 256 * high, input)
      end
  end.

Definition pop (LENGTH : nat) (input : list Z) : result (Z * list Z) :=
  '(result, input) ← pop_loop (LENGTH / 8) input;
  match (LENGTH / 8)%nat with
  | 1%nat => (* 8bit *) Ok (Z.land result 0xFF, input)
  | 2%nat => (* 16bit *) Ok (Z.land result 0xFFFF, input)
  | 4%nat => (* 32bit *) Ok (Z.land result 0xFFFFFFFF, input)
  | 8%nat => (* 64bit *) Ok (Z.land result 0xFFFFFFFFFFFFFFFF, input)
  | _ => Throw (TargetExpressionError "Unrecognized length")
  end.

Definition pop8 (input : list Z) : result (Z * list Z) := pop 8 input.

(** A decoder appends to [output] and consumes from [input]. *)
Definition decoder : Type := list string -> list Z -> result (list string * list Z).

Definition decode_register : decoder := fun output input =>
  '(register_size, input) ← pop8 input;
  '(register_index, input) ← pop8 input;
  prefix ← match register_size with
           | 0x08 => Ok "%R"
           | 0x16 => Ok "%EXR"
           | 0x32 => Ok "%HER"
           | 0x64 => Ok "%FER"
           | _ => Throw (TargetExpressionError "Unrecognized register size")
           end;
  Ok ((output ++ [prefix +:+ to_string register_index]), input).

Definition decode_constant : decoder := fun output input =>
  '(sign, input) ← pop8 input;
  '(num, input) ← pop 64 input;
  let signed_num := as_int64 num in
  let ret := "$(" +:+ (if negb (sign =? 0x00) then to_string signed_num
                        else "0x" +:+ to_hex_upper num) +:+ ")" in
  Ok ((output ++ [ret]), input).

Definition decode_each_parameter : decoder := fun output input =>
  '(prefix, input) ← pop8 input;
  match prefix with
  | 0x01 (* REGISTER_PREFIX *) => decode_register output input
  | 0x02 (* CONSTANT_PREFIX *) => decode_constant output input
  | _ => Throw (TargetExpressionError "Unrecognized parameter prefix")
  end.

Definition decode_memory : decoder := fun output input =>
  '(ratio, input) ← pop8 input;
  ret ← match ratio with
        | 0x01 => Ok "*1("
        | 0x02 => Ok "*2("
        | 0x04 => Ok "*4("
        | 0x08 => Ok "*8("
        | 0x16 => Ok "*16("
        | _ => Throw (TargetExpressionError "Unrecognized memory ratio")
        end;
  let output := (output ++ [ret]) in
  '(output, input) ← decode_each_parameter output input;
  let output := (output ++ [", "]) in
  '(output, input) ← decode_each_parameter output input;
  let output := (output ++ [", "]) in
  '(output, input) ← decode_each_parameter output input;
  let output := (output ++ [")"]) in
  Ok (output, input).

Definition decode : decoder := fun output input =>
  '(prefix, input) ← pop8 input;
  match prefix with
  | 0x01 (* REGISTER_PREFIX *) => decode_register output input
  | 0x02 (* CONSTANT_PREFIX *) => decode_constant output input
  | 0x03 (* MEMORY_PREFIX *) => decode_memory output input
  | _ => Throw (TargetExpressionError "Unrecognized Target prefix")
  end.

(** The text [main] prints for a decoded operand: the pieces of the decode
    buffer one after the other. *)
Definition printed (decode_buffer : list string) : string :=
  fold_right String.append EmptyString decode_buffer.

(** [main]'s loop body: assemble [inp] into a fresh buffer and disassemble
    that buffer. *)
Definition disassemble (encode_buffer : list Z) : result string :=
  '(decode_buffer, _) ← decode [] encode_buffer;
  Ok (printed decode_buffer).

(** *** The canonical text of an operand

    What section 8 of the specification compares a disassembly with.  It is
    written after the words of sections 4.1 and 8, on the text alone and
    without any byte: the operand text with its spaces stripped, in upper
    case, every constant rendered from the value section 4.1 gives it. *)

(** A constant expression cut into its hexadecimal literals and the
    characters between them. *)
Inductive token : Type :=
  | Plain (c : ascii)
  | Literal (digits : string).

(** Section 4.1: "hexadecimal literals 0x... are recognized".  In upper-case
    text a literal is the marker 0X and the hexadecimal digits behind it, at
    least one and as many as there are. *)
Definition literal_at (text : string) : option (string * string) :=
  match strip_prefix "0X" text with
  | Some behind =>
      match span (is_digit_in 16) behind with
      | (String digit digits, others) => Some (String digit digits, others)
      | (EmptyString, _) => None
      end
  | None => None
  end.

(** The tokens of [text], from the left; [fuel] bounds their number. *)
Fixpoint tokens (fuel : nat) (text : string) : list token :=
  match fuel with
  | O => []
  | S fuel' =>
      match literal_at text with
      | Some (digits, others) => Literal digits :: tokens fuel' others
      | None =>
          match text with
          | String c others => Plain c :: tokens fuel' others
          | EmptyString => []
          end
      end
  end.

Definition tokenize (text : string) : list token := tokens (S (String.length text)) text.

(** The text of a token list, each literal written by [literal]. *)
Fixpoint render (literal : string -> string) (ts : list token) : string :=
  match ts with
  | [] => EmptyString
  | Plain c :: ts' => String c (render literal ts')
  | Literal digits :: ts' => literal digits +:+ render literal ts'
  end.

(** The number a string of hexadecimal digits spells, behind the digits
    that spell [value]. *)
Fixpoint hexadecimal_from (value : Z) (digits : string) : Z :=
  match digits with
  | String c digits' =>
      hexadecimal_from (16 * value + match digit_value c with Some d => d | None => 0 end)
                       digits'
  | EmptyString => value
  end.

Definition hexadecimal_value (digits : string) : Z := hexadecimal_from 0 digits.

(** Section 4.1: the literals are "replaced by their decimal value before
    evaluation". *)
Definition expand_literals (expression : string) : string :=
  render (fun digits => to_string (hexadecimal_value digits)) (tokenize expression).

Definition begins_with_minus (expression : string) : bool :=
  match expression with
  | String c _ => Ascii.eqb c "-"
  | EmptyString => false
  end.

Section Canonical.

(** Whatever evaluates an expression and prints its result: section 9
    leaves it to a calculator of the host, or to one built in. *)
Variable evaluate : string -> result string.

(** What stands between the sub-operands of a memory operand: "," when
    every space is stripped. *)
Variable separator : string.

(** Section 4.1: "Evaluate as signed and as unsigned 64-bit.  If both
    interpretations agree the value is stored as-is; if they disagree and
    the source begins with - it is stored as signed; otherwise unsigned".
    The two interpretations are the readings of the C library. *)
Definition specified_constant (expression : string) : result Z :=
  evaluated ← evaluate (expand_literals expression);
  let as_signed := strtoll evaluated 10 in
  let as_unsigned := strtoull evaluated 10 in
  if as_signed =? as_unsigned then Ok as_signed
  else if begins_with_minus expression then Ok as_signed
  else Ok as_unsigned.

(** Section 4.1: "hex rendering for unsigned constants and decimal with
    leading - for signed". *)
Definition canonical_constant (value : Z) : string :=
  "$(" +:+ (if value <? 0 then to_string value else "0x" +:+ to_hex_upper value) +:+ ")".

(** A sub-operand: a 64-bit register or a constant. *)
Definition canonical_parameter (text : string) : result string :=
  if is_valid_register text then
    if String.eqb (pop_back text) "%FER" then Ok text
    else Throw (TargetExpressionError ("Not a 64bit Register: " +:+ text))
  else
    match constant_pattern text with
    | Some expression =>
        value ← specified_constant expression; Ok (canonical_constant value)
    | None => Throw (TargetExpressionError text)
    end.

Definition canonicalize (T : string) : result string :=
  let text := capitalization (remove_space T) in
  if is_valid_register text then Ok text
  else
    match constant_pattern text with
    | Some expression =>
        value ← specified_constant expression; Ok (canonical_constant value)
    | None =>
        match memory_pattern text with
        | Some (ratio, base, offset1, offset2) =>
            base ← canonical_parameter base;
            offset1 ← canonical_parameter offset1;
            offset2 ← canonical_parameter offset2;
            Ok ("*" +:+ ratio +:+ "(" +:+ base +:+ separator +:+ offset1
                +:+ separator +:+ offset2 +:+ ")")
        | None => Throw (TargetExpressionError text)
        end
    end.

End Canonical.

End Assembler.

Module Processor.

(** *** The CPU state

    [cpu.h], which declares [class processor] and [class processor::Target],
    is not among the sources: the state below holds what the two translation
    units read and write. *)

(** The members of [CPU.Registers] the sources name. *)
Inductive RegisterName : Type :=
  | R0 | R1 | R2 | R3 | R4 | R5 | R6 | R7
  | ExtendedRegister0 | ExtendedRegister1 | ExtendedRegister2 | ExtendedRegister3
  | ExtendedRegister4 | ExtendedRegister5 | ExtendedRegister6 | ExtendedRegister7
  | HalfExtendedRegister0 | HalfExtendedRegister1 | HalfExtendedRegister2
  | HalfExtendedRegister3 | HalfExtendedRegister4 | HalfExtendedRegister5
  | HalfExtendedRegister6 | HalfExtendedRegister7
  | FullyExtendedRegister0 | FullyExtendedRegister1 | FullyExtendedRegister2
  | FullyExtendedRegister3 | FullyExtendedRegister4 | FullyExtendedRegister5
  | FullyExtendedRegister6 | FullyExtendedRegister7 | FullyExtendedRegister8
  | FullyExtendedRegister9 | FullyExtendedRegister10 | FullyExtendedRegister11
  | FullyExtendedRegister12 | FullyExtendedRegister13 | FullyExtendedRegister14
  | FullyExtendedRegister15
  | StackPointer | DataPointer | ExtendedSegmentPointer.

#[global] Instance RegisterName_eq_dec : EqDecision RegisterName.
Proof. solve_decision. Defined.

(** Modelled from the spec: the register file of section 3, "named slots",
    each slot a value of its own; [cpu.h] with the declaration of
    [CPU.Registers] is missing. *)
Definition RegisterFile : Type := RegisterName -> Z.

Definition assign (Registers : RegisterFile) (r : RegisterName) (value : Z) : RegisterFile :=
  fun r' => if decide (r' = r) then value else Registers r'.

Record processor : Type := {
  Registers : RegisterFile;
  InstructionPointer : Z;
  Memory : gmap Z Z
}.

Definition with_Registers (CPU : processor) (Registers' : RegisterFile) : processor :=
  {| Registers := Registers'; InstructionPointer := InstructionPointer CPU;
     Memory := Memory CPU |}.

Definition with_InstructionPointer (CPU : processor) (ip : Z) : processor :=
  {| Registers := Registers CPU; InstructionPointer := ip; Memory := Memory CPU |}.

Definition with_Memory (CPU : processor) (Memory' : gmap Z Z) : processor :=
  {| Registers := Registers CPU; InstructionPointer := InstructionPointer CPU;
     Memory := Memory' |}.

(** Modelled from the spec: "a single flat byte-addressed space", zeroed at
    initialisation; a byte never written reads as 0.  [cpu.h] is missing. *)
Definition memory_byte (Memory : gmap Z Z) (address : Z) : Z :=
  default 0 (Memory !! address).

(** Modelled from the spec: [get_memory(address, buffer, length)] "treats
    each access as length consecutive bytes"; the bytes read.  The definition
    of [processor::get_memory] is missing. *)
Fixpoint read_bytes (Memory : gmap Z Z) (address : Z) (length : nat) : list Z :=
  match length with
  | O => []
  | S length' => memory_byte Memory address :: read_bytes Memory (address + 1) length'
  end.

Definition get_memory (CPU : processor) (address : Z) (length : nat) : list Z :=
  read_bytes (Memory CPU) address length.

(** Modelled from the spec: [write_memory(address, buffer, length)] stores
    [length] consecutive bytes.  The definition of [processor::write_memory]
    is missing. *)
Fixpoint store_bytes (Memory : gmap Z Z) (address : Z) (bytes : list Z) : gmap Z Z :=
  match bytes with
  | [] => Memory
  | byte :: rest => store_bytes (<[address := byte]> Memory) (address + 1) rest
  end.

Definition write_memory (CPU : processor) (address : Z) (bytes : list Z) : processor :=
  with_Memory CPU (store_bytes (Memory CPU) address bytes).

(** Modelled from the spec: section 4.4, "a typed pop<N> that removes N/8
    bytes and advances the pointer": the bytes at the instruction pointer,
    read least significant first.  The definition of [processor::pop] is
    missing. *)
Definition pop (N : nat) (CPU : processor) : result (Z * processor) :=
  let bytes := get_memory CPU (InstructionPointer CPU) (N / 8) in
  Ok (le_value bytes,
      with_InstructionPointer CPU (u64 (InstructionPointer CPU + Z.of_nat (N / 8)))).

(** *** Operands *)

Definition REGISTER_PREFIX : Z := 0x01.
Definition CONSTANT_PREFIX : Z := 0x02.
Definition MEMORY_PREFIX : Z := 0x03.

Inductive TargetType_t : Type := TypeRegister | TypeConstant | TypeMemory.

(** The data members of [processor::Target], apart from the reference [CPU];
    [RegisterIndex], [ConstantValue] and [MemoryAddress] are the members of
    [TargetInformation]. *)
Record Target : Type := {
  TargetType : TargetType_t;
  TargetWidth : Z;
  RegisterIndex : Z;
  ConstantValue : Z;
  MemoryAddress : Z;
  literal : string
}.

Definition set_TargetType (this : Target) (v : TargetType_t) : Target :=
  {| TargetType := v; TargetWidth := TargetWidth this;
     RegisterIndex := RegisterIndex this; ConstantValue := ConstantValue this;
     MemoryAddress := MemoryAddress this; literal := literal this |}.

Definition set_TargetWidth (this : Target) (v : Z) : Target :=
  {| TargetType := TargetType this; TargetWidth := v;
     RegisterIndex := RegisterIndex this; ConstantValue := ConstantValue this;
     MemoryAddress := MemoryAddress this; literal := literal this |}.

Definition set_RegisterIndex (this : Target) (v : Z) : Target :=
  {| TargetType := TargetType this; TargetWidth := TargetWidth this;
     RegisterIndex := v; ConstantValue := ConstantValue this;
     MemoryAddress := MemoryAddress this; literal := literal this |}.

Definition set_ConstantValue (this : Target) (v : Z) : Target :=
  {| TargetType := TargetType this; TargetWidth := TargetWidth this;
     RegisterIndex := RegisterIndex this; ConstantValue := v;
     MemoryAddress := MemoryAddress this; literal := literal this |}.

Definition set_MemoryAddress (this : Target) (v : Z) : Target :=
  {| TargetType := TargetType this; TargetWidth := TargetWidth this;
     RegisterIndex := RegisterIndex this; ConstantValue := ConstantValue this;
     MemoryAddress := v; literal := literal this |}.

Definition set_literal (this : Target) (v : string) : Target :=
  {| TargetType := TargetType this; TargetWidth := TargetWidth this;
     RegisterIndex := RegisterIndex this; ConstantValue := ConstantValue this;
     MemoryAddress := MemoryAddress this; literal := v |}.

(** [__illegal_instruction_assert__(Expression)]. *)
Definition illegal_instruction_assert (Expression : bool) : result unit :=
  if Expression then Ok tt else Throw IllegalInstruction.

Definition do_setup_register_info (this : Target) (CPU : processor)
  : result (Target * processor) :=
  '(width, CPU) ← pop 8 CPU;
  '(register_index, CPU) ← pop 8 CPU;
  let this := set_RegisterIndex this register_index in
  let this := set_TargetType this TypeRegister in
  let this := set_TargetWidth this width in
  text ← match width with
         | 0x08 => Ok ("%R" +:+ to_string register_index)
         | 0x16 => Ok ("%EXR" +:+ to_string register_index)
         | 0x32 => Ok ("%HER" +:+ to_string register_index)
         | 0x64 => Ok ("%FER" +:+ to_string register_index)
         | 0xFC => Ok ("%XMM" +:+ to_string register_index)
         | _ => Throw IllegalInstruction
         end;
  Ok (set_literal this text, CPU).

Definition do_setup_constant_info (this : Target) (CPU : processor)
  : result (Target * processor) :=
  '(tag, CPU) ← pop 8 CPU;
  _ ← illegal_instruction_assert (tag =? 0x64);
  '(constant_value, CPU) ← pop 64 CPU;
  let this := set_TargetType this TypeConstant in
  let this := set_ConstantValue this constant_value in
  Ok (set_literal this ("$(" +:+ to_string constant_value +:+ ")"), CPU).

Section RegisterAccess.

(** The register indices [cpu.h] gives the named 64-bit registers. *)
Variables R_StackPointer R_DataPointer R_ExtendedSegmentPointer : Z.

Definition do_get_register (this : Target) (CPU : processor) : result Z :=
  match TargetWidth this with
  | 0x08 =>
      match RegisterIndex this with
      | 0x00 => Ok (Registers CPU R0)
      | 0x01 => Ok (Registers CPU R1)
      | 0x02 => Ok (Registers CPU R2)
      | 0x03 => Ok (Registers CPU R3)
      | 0x04 => Ok (Registers CPU R4)
      | 0x05 => Ok (Registers CPU R5)
      | 0x06 => Ok (Registers CPU R6)
      | 0x07 => Ok (Registers CPU R7)
      | _ => Throw IllegalInstruction
      end
  | 0x16 =>
      match RegisterIndex this with
      | 0x00 => Ok (Registers CPU ExtendedRegister0)
      | 0x01 => Ok (Registers CPU ExtendedRegister1)
      | 0x02 => Ok (Registers CPU ExtendedRegister2)
      | 0x03 => Ok (Registers CPU ExtendedRegister3)
      | 0x04 => Ok (Registers CPU ExtendedRegister4)
      | 0x05 => Ok (Registers CPU ExtendedRegister5)
      | 0x06 => Ok (Registers CPU ExtendedRegister6)
      | 0x07 => Ok (Registers CPU ExtendedRegister7)
      | _ => Throw IllegalInstruction
      end
  | 0x32 =>
      match RegisterIndex this with
      | 0x00 => Ok (Registers CPU HalfExtendedRegister0)
      | 0x01 => Ok (Registers CPU HalfExtendedRegister1)
      | 0x02 => Ok (Registers CPU HalfExtendedRegister2)
      | 0x03 => Ok (Registers CPU HalfExtendedRegister3)
      | 0x04 => Ok (Registers CPU HalfExtendedRegister4)
      | 0x05 => Ok (Registers CPU HalfExtendedRegister5)
      | 0x06 => Ok (Registers CPU HalfExtendedRegister6)
      | 0x07 => Ok (Registers CPU HalfExtendedRegister7)
      | _ => Throw IllegalInstruction
      end
  | 0x64 =>
      match RegisterIndex this with
      | 0x00 => Ok (Registers CPU FullyExtendedRegister0)
      | 0x01 => Ok (Registers CPU FullyExtendedRegister1)
      | 0x02 => Ok (Registers CPU FullyExtendedRegister2)
      | 0x03 => Ok (Registers CPU FullyExtendedRegister3)
      | 0x04 => Ok (Registers CPU FullyExtendedRegister4)
      | 0x05 => Ok (Registers CPU FullyExtendedRegister5)
      | 0x06 => Ok (Registers CPU FullyExtendedRegister6)
      | 0x07 => Ok (Registers CPU FullyExtendedRegister7)
      | index =>
          if index =? R_StackPointer then Ok (Registers CPU StackPointer)
          else if index =? R_DataPointer then Ok (Registers CPU DataPointer)
          else if index =? R_ExtendedSegmentPointer
               then Ok (Registers CPU ExtendedSegmentPointer)
          else Throw IllegalInstruction
      end
  | _ => Throw IllegalInstruction
  end.

Definition do_set_register (this : Target) (reg : Z) (CPU : processor) : result processor :=
  let store (r : RegisterName) (value : Z) : result processor :=
    Ok (with_Registers CPU (assign (Registers CPU) r value)) in
  match TargetWidth this with
  | 0x08 =>
      match RegisterIndex this with
      | 0x00 => store R0 (u8 reg)
      | 0x01 => store R1 (u8 reg)
      | 0x02 => store R2 (u8 reg)
      | 0x03 => store R3 (u8 reg)
      | 0x04 => store R4 (u8 reg)
      | 0x05 => store R5 (u8 reg)
      | 0x06 => store R6 (u8 reg)
      | 0x07 => store R7 (u8 reg)
      | _ => Throw IllegalInstruction
      end
  | 0x16 =>
      match RegisterIndex this with
      | 0x00 => store ExtendedRegister0 (u16 reg)
      | 0x01 => store ExtendedRegister1 (u16 reg)
      | 0x02 => store ExtendedRegister2 (u16 reg)
      | 0x03 => store ExtendedRegister3 (u16 reg)
      | 0x04 => store ExtendedRegister4 (u16 reg)
      | 0x05 => store ExtendedRegister5 (u16 reg)
      | 0x06 => store ExtendedRegister6 (u16 reg)
      | 0x07 => store ExtendedRegister7 (u16 reg)
      | _ => Throw IllegalInstruction
      end
  | 0x32 =>
      match RegisterIndex this with
      | 0x00 => store HalfExtendedRegister0 (u32 reg)
      | 0x01 => store HalfExtendedRegister1 (u32 reg)
      | 0x02 => store HalfExtendedRegister2 (u32 reg)
      | 0x03 => store HalfExtendedRegister3 (u32 reg)
      | 0x04 => store HalfExtendedRegister4 (u32 reg)
      | 0x05 => store HalfExtendedRegister5 (u32 reg)
      | 0x06 => store HalfExtendedRegister6 (u32 reg)
      | 0x07 => store HalfExtendedRegister7 (u32 reg)
      | _ => Throw IllegalInstruction
      end
  | 0x64 =>
      match RegisterIndex this with
      | 0x00 => store FullyExtendedRegister0 reg
      | 0x01 => store FullyExtendedRegister1 reg
      | 0x02 => store FullyExtendedRegister2 reg
      | 0x03 => store FullyExtendedRegister3 reg
      | 0x04 => store FullyExtendedRegister4 reg
      | 0x05 => store FullyExtendedRegister5 reg
      | 0x06 => store FullyExtendedRegister6 reg
      | 0x07 => store FullyExtendedRegister7 reg
      | 0x08 => store FullyExtendedRegister8 reg
      | 0x09 => store FullyExtendedRegister9 reg
      | 0x0a => store FullyExtendedRegister10 reg
      | 0x0b => store FullyExtendedRegister11 reg
      | 0x0c => store FullyExtendedRegister12 reg
      | 0x0d => store FullyExtendedRegister13 reg
      | 0x0e => store FullyExtendedRegister14 reg
      | 0x0f => store FullyExtendedRegister15 reg
      | index =>
          if index =? R_StackPointer then store StackPointer reg
          else if index =? R_DataPointer then store DataPointer reg
          else if index =? R_ExtendedSegmentPointer then store ExtendedSegmentPointer reg
          else Throw IllegalInstruction
      end
  | _ => Throw IllegalInstruction
  end.

Definition set_target_content_in_u64bit_t (this : Target) (val : Z) (CPU : processor)
  : result processor :=
  actual_width ← match TargetWidth this with
                 | 0x08 => Ok 1%nat
                 | 0x16 => Ok 2%nat
                 | 0x32 => Ok 4%nat
                 | 0x64 => Ok 8%nat
                 | _ => Throw IllegalInstruction
                 end;
  match TargetType this with
  | TypeRegister => do_set_register this val CPU
  | TypeConstant => Throw IllegalInstruction
  | TypeMemory => Ok (write_memory CPU (MemoryAddress this) (le_bytes actual_width val))
  end.

Definition get_target_content_in_u64bit_t (this : Target) (CPU : processor) : result Z :=
  match TargetType this with
  | TypeRegister => do_get_register this CPU
  | TypeConstant => Ok (ConstantValue this)
  | TypeMemory =>
      (* uint64_t Value; get_memory(MemoryAddress, (char* )&Value, sizeof(Value)) *)
      Ok (le_value (get_memory CPU (MemoryAddress this) 8))
  end.

(** [do_setup_memory_info], given the function its three calls of
    [do_decode_via_prefix] run. *)
Definition do_setup_memory_info
    (do_decode_via_prefix : Z -> Target -> processor -> result (Target * processor))
    (this : Target) (CPU : processor) : result (Target * processor) :=
  '(width, CPU) ← pop 8 CPU;

  '(PrefixBaseAddress, CPU) ← pop 8 CPU;
  _ ← illegal_instruction_assert
        ((PrefixBaseAddress =? REGISTER_PREFIX) || (PrefixBaseAddress =? CONSTANT_PREFIX));
  '(this, CPU) ← do_decode_via_prefix PrefixBaseAddress this CPU;
  BaseAddress ← get_target_content_in_u64bit_t this CPU;
  let literal_base := literal this in

  '(PrefixOffset1, CPU) ← pop 8 CPU;
  _ ← illegal_instruction_assert
        ((PrefixOffset1 =? REGISTER_PREFIX) || (PrefixOffset1 =? CONSTANT_PREFIX));
  '(this, CPU) ← do_decode_via_prefix PrefixOffset1 this CPU;
  Offset1 ← get_target_content_in_u64bit_t this CPU;
  let literal_off1 := literal this in

  '(PrefixOffset2, CPU) ← pop 8 CPU;
  _ ← illegal_instruction_assert
        ((PrefixOffset2 =? REGISTER_PREFIX) || (PrefixOffset2 =? CONSTANT_PREFIX));
  '(this, CPU) ← do_decode_via_prefix PrefixOffset2 this CPU;
  Offset2 ← get_target_content_in_u64bit_t this CPU;
  let literal_off2 := literal this in

  '(Ratio, CPU) ← pop 8 CPU;

  let this := set_TargetType this TypeMemory in
  let this := set_MemoryAddress this (u64 (u64 (u64 (BaseAddress + Offset1) + Offset2) * Ratio)) in
  let this := set_TargetWidth this width in
  Ok (set_literal this ("*" +:+ to_string Ratio +:+
                        "(" +:+ literal_base +:+
                        ", " +:+ literal_off1 +:+
                        ", " +:+ literal_off2 +:+ ")"), CPU).

(** [do_decode_via_prefix].  It and [do_setup_memory_info] call each other;
    [nesting] bounds how many memory operands may be entered one inside the
    other.  The assertions of [do_setup_memory_info] let only register and
    constant prefixes through, so one level is all that is ever entered
    (lemma [do_decode_via_prefix_nesting]). *)
Fixpoint do_decode_via_prefix (nesting : nat) (prefix : Z) (this : Target) (CPU : processor)
  : result (Target * processor) :=
  match prefix with
  | 0x01 (* REGISTER_PREFIX *) => do_setup_register_info this CPU
  | 0x02 (* CONSTANT_PREFIX *) => do_setup_constant_info this CPU
  | 0x03 (* MEMORY_PREFIX *) =>
      match nesting with
      | S nesting' => do_setup_memory_info (do_decode_via_prefix nesting') this CPU
      | O => Throw UndefinedBehaviour
      end
  | _ => Throw IllegalInstruction
  end.

(** The constructor [Target::Target(processor &)], run on the storage [this]. *)
Definition Target_new (this : Target) (CPU : processor) : result (Target * processor) :=
  '(prefix, CPU) ← pop 8 CPU;
  '(this, CPU) ← do_decode_via_prefix 1 prefix this CPU;
  Ok (set_literal this ("<" +:+ literal this +:+ ">"), CPU).

End RegisterAccess.

(** *** The interruption vector table *)

(** [std::map::insert]: a key already present keeps its value. *)
Definition map_insert (table : gmap Z Z) (entry : Z * Z) : gmap Z Z :=
  match table !! entry.1 with
  | Some _ => table
  | None => <[entry.1 := entry.2]> table
  end.

Definition TOTAL_ENTRIES : Z := 512.
Definition INCREMENT : Z := 8.
Definition START_ADDRESS : Z := 0xA0000.

(** The constructor of [__initialize_vector__], run on the table as it finds
    it: [vector_entry] is the body of its loop. *)
Definition vector_entry (table : gmap Z Z) (i : Z) : gmap Z Z :=
  let address := u64 (START_ADDRESS + u64 (i * INCREMENT)) in
  map_insert table (i, address).

Definition initialize_vector (table : gmap Z Z) : gmap Z Z :=
  foldl vector_entry table (seqZ 0 TOTAL_ENTRIES).

(** The global [interruption_vector_address_table] once the static object
    [__initialize_vector_instance__] is constructed: the map starts empty. *)
Definition interruption_vector_address_table : gmap Z Z := initialize_vector ∅.

(** *** The executor *)

Section Executor.

Variables R_StackPointer R_DataPointer R_ExtendedSegmentPointer : Z.

(** The interruption number [cpu.h] gives the illegal instruction. *)
Variable INT_ILLEGAL_INSTRUCTION : Z.

(** The members of a [Target] before its constructor has run. *)
Variable blank : Target.

(** The body of [soft_interruption_ready] is empty. *)
Definition soft_interruption_ready (int_code : Z) (CPU : processor) : result processor :=
  Ok CPU.

Definition pop_target (CPU : processor) : result (Target * processor) :=
  Target_new R_StackPointer R_DataPointer R_ExtendedSegmentPointer blank CPU.

Definition nop (CPU : processor) : result processor :=
  (* No Operation *)
  Ok CPU.

(** Modelled from the spec: section 4.3, the handle's [get64] and [set64];
    [Target::get<uint64_t>] and [Target::operator=] are declared in the
    missing [cpu.h] and are taken to be [get_target_content_in_u64bit_t] and
    [set_target_content_in_u64bit_t]. *)
Definition add (CPU : processor) : result processor :=
  '(width, CPU) ← pop 8 CPU;
  '(operand1, CPU) ← pop_target CPU;
  '(operand2, CPU) ← pop_target CPU;
  value1 ← get_target_content_in_u64bit_t
             R_StackPointer R_DataPointer R_ExtendedSegmentPointer operand1 CPU;
  value2 ← get_target_content_in_u64bit_t
             R_StackPointer R_DataPointer R_ExtendedSegmentPointer operand2 CPU;
  set_target_content_in_u64bit_t
    R_StackPointer R_DataPointer R_ExtendedSegmentPointer operand1 (u64 (value1 + value2)) CPU.

(** The body of [pushall] is empty. *)
Definition pushall (CPU : processor) : result processor := Ok CPU.

(** The body of [processor::operation], over the member function its
    default branch calls, so that the call itself can be spoken of. *)
Definition operation_calling
    (soft_interruption_ready : Z -> processor -> result processor)
    (timestamp : Z) (CPU : processor) : result processor :=
  '(opcode, CPU) ← pop 64 CPU;
  match opcode with
  | 0x00 => nop CPU
  | 0x01 => add CPU
  | _ => soft_interruption_ready INT_ILLEGAL_INSTRUCTION CPU
  end.

Definition operation : Z -> processor -> result processor :=
  operation_calling soft_interruption_ready.

End Executor.

End Processor.

(** A piece of [include/debug.inl]: the text [debug::log] puts in front of a
    message. *)
Module Debug.

(** [std::string::size], a [std::size_t]. *)
Definition size (s : string) : Z := Z.of_nat (String.length s).

(** The [count] first characters of [s], or all of [s] when it is shorter. *)
Fixpoint take_characters (count : nat) (s : string) : string :=
  match count, s with
  | S count', String c rest => String c (take_characters count' rest)
  | _, _ => EmptyString
  end.

(** [s] without its [count] first characters. *)
Fixpoint drop_characters (count : nat) (s : string) : string :=
  match count, s with
  | S count', String _ rest => drop_characters count' rest
  | _, _ => s
  end.

(** [std::string::substr(pos, count)]: the characters from [pos] on, [count]
    of them at most; [None] stands for the [std::out_of_range] it throws when
    [pos] lies behind the end of the string. *)
Definition substr (s : string) (pos count : Z) : option string :=
  if size s <? pos then None
  else Some (take_characters (Z.to_nat count) (drop_characters (Z.to_nat pos) s)).

(** The lambda [shorten_caller_when_fit] of [debug::log]; its callers leave
    [max_length], [prefix_length] and [ellipsis] at their defaults 64, 5 and
    "...".  The subtractions are those of [std::size_t]. *)
Definition shorten_caller_when_fit (input : string) (max_length prefix_length : Z)
    (ellipsis : string) : option string :=
  if size input <=? max_length then Some input
  else
    let suffix_length := u64 (u64 (max_length - prefix_length) - size ellipsis) in
    (* Create views for prefix and suffix *)
    prefix ← substr input 0 prefix_length;
    suffix ← substr input (u64 (size input - suffix_length)) suffix_length;
    (* Concatenate to form the shortened string *)
    Some (prefix +:+ ellipsis +:+ suffix).

End Debug.

(** ** Notions used in the statements *)

Section Notions.
Import Processor.

(** A reader of a byte stream is _stable under extension_ when bytes added
    behind the stream change nothing in what it does, unless it ran off the
    end of the stream. *)
Definition stable {A : Type} (reader : list Z -> result (A * list Z)) : Prop :=
  forall input more : list Z,
    match reader input with
    | Ok (a, remaining) => reader (input ++ more) = Ok (a, remaining ++ more)
    | Throw UndefinedBehaviour => True
    | Throw e => reader (input ++ more) = Throw e
    end.

(** [CPU] with its instruction pointer [count] bytes further. *)
Definition advance (CPU : processor) (count : nat) : processor :=
  with_InstructionPointer CPU (InstructionPointer CPU + Z.of_nat count).

(** The bytes ahead of the instruction pointer are [bytes], and fetching them
    does not wrap the pointer around. *)
Definition instruction_stream (CPU : processor) (bytes : list Z) : Prop :=
  0 <= InstructionPointer CPU
  /\ InstructionPointer CPU + Z.of_nat (length bytes) < 2 ^ 64
  /\ get_memory CPU (InstructionPointer CPU) (length bytes) = bytes.

(** The byte [encode_memory] pushes for a ratio text: packed BCD. *)
Definition ratio_byte (ratio : string) : option Z :=
  if String.eqb ratio "1" then Some 0x01
  else if String.eqb ratio "2" then Some 0x02
  else if String.eqb ratio "4" then Some 0x04
  else if String.eqb ratio "8" then Some 0x08
  else if String.eqb ratio "16" then Some 0x16
  else None.

(** The number of bits a width tag labels. *)
Definition width_bits (tag : Z) : Z :=
  match tag with
  | 0x08 => 8
  | 0x16 => 16
  | 0x32 => 32
  | 0x64 => 64
  | _ => 0
  end.

(** A sub-operand record as [do_setup_memory_info] reads it: a register
    record [01 WIDTH IDX] or a constant record [02 64 VAL]. *)
Inductive parameter_record : Type :=
  | RegisterRecord (width index : Z)
  | ConstantRecord (VAL : list Z).

Definition record_bytes (record : parameter_record) : list Z :=
  match record with
  | RegisterRecord width index => [0x01; width; index]
  | ConstantRecord VAL => 0x02 :: 0x64 :: VAL
  end.

Definition well_formed_record (record : parameter_record) : Prop :=
  match record with
  | RegisterRecord width index => True
  | ConstantRecord VAL => length VAL = 8%nat
  end.

(** The storage of a [Target] holding the register [index] of class [width]. *)
Definition register_operand (width index : Z) : Target :=
  {| TargetType := TypeRegister; TargetWidth := width; RegisterIndex := index;
     ConstantValue := 0; MemoryAddress := 0; literal := "" |}.

(** The storage of a [Target] holding the memory operand at [address]. *)
Definition memory_operand (width address : Z) : Target :=
  {| TargetType := TypeMemory; TargetWidth := width; RegisterIndex := 0;
     ConstantValue := 0; MemoryAddress := address; literal := "" |}.

(** The 64-bit value of a sub-operand record: the register's content, or the
    little-endian reading of the eight bytes. *)
Definition record_value (R_StackPointer R_DataPointer R_ExtendedSegmentPointer : Z)
    (record : parameter_record) (CPU : processor) : result Z :=
  match record with
  | RegisterRecord width index =>
      do_get_register R_StackPointer R_DataPointer R_ExtendedSegmentPointer
        (register_operand width index) CPU
  | ConstantRecord VAL => Ok (le_value VAL)
  end.

(** One of the three blocks of [do_setup_memory_info]: fetch a prefix, assert
    it, decode the sub-operand, read its value, and go on with [continue]. *)
Definition parameter_block {A : Type}
    (R_StackPointer R_DataPointer R_ExtendedSegmentPointer : Z)
    (do_decode_via_prefix : Z -> Target -> processor -> result (Target * processor))
    (this : Target) (CPU : processor)
    (continue : Z -> Target -> processor -> result A) : result A :=
  '(Prefix, CPU) ← pop 8 CPU;
  _ ← illegal_instruction_assert
        ((Prefix =? REGISTER_PREFIX) || (Prefix =? CONSTANT_PREFIX));
  '(this, CPU) ← do_decode_via_prefix Prefix this CPU;
  value ← get_target_content_in_u64bit_t
            R_StackPointer R_DataPointer R_ExtendedSegmentPointer this CPU;
  continue value this CPU.

(** What may follow a number in a text: nothing, or a character that is not
    a digit of the base. *)
Definition ends_number (base : Z) (tail : string) : bool :=
  match tail with
  | String c _ => negb (Assembler.is_digit_in base c)
  | EmptyString => true
  end.

(** A character that the normalisation of an operand text keeps and that
    takes part in no hexadecimal marker: no lower-case letter, no blank, no
    X, no line terminator. *)
Definition plain (c : ascii) : bool :=
  Ascii.eqb (toupper c) c && negb (Ascii.eqb c " ") && negb (Ascii.eqb c "X")
  && Assembler.regex_dot c.

(** The value [encode_constant] stores for the capture group of
    [constant_pattern]: the part of its body between the cutting of the text
    and the pushes. *)
Definition stored_constant (exec_command : string -> list string -> Assembler.cmd_status)
    (expression : string) : result Z :=
  let tmp := Assembler.process_base16 expression in
  result_from_bc ← Assembler.execute_bc exec_command tmp 0;
  let result_cmp1 := Assembler.strtoll result_from_bc 10 in
  let result_cmp2 := Assembler.strtoull result_from_bc 10 in
  if result_cmp1 =? result_cmp2 then Ok result_cmp1
  else match tmp with
       | String front _ => if Ascii.eqb front "-" then Ok result_cmp1 else Ok result_cmp2
       | EmptyString => Throw UndefinedBehaviour
       end.

(** The calculator of the host, as [encode_constant] calls it. *)
Definition calculator (exec_command : string -> list string -> Assembler.cmd_status)
    (expression : string) : result string :=
  Assembler.execute_bc exec_command expression 0.

(** A character as the normalisation of [parse] leaves it and as the dot of
    a pattern matches it: no lower-case letter, no blank, no line
    terminator. *)
Definition normalised (c : ascii) : bool :=
  Ascii.eqb (toupper c) c && negb (Ascii.eqb c " ") && Assembler.regex_dot c.

(** A token list as [tokenize] cuts it out of a normalised text in which
    every X belongs to a literal: plain characters between the literals,
    at least one digit in each literal, and no digit right behind one. *)
Fixpoint tokenized (ts : list Assembler.token) : bool :=
  match ts with
  | [] => true
  | Assembler.Plain c :: ts' => plain c && tokenized ts'
  | Assembler.Literal digits :: ts' =>
      negb (String.eqb digits "")
      && Assembler.string_forallb (fun c => Assembler.is_digit_in 16 c && plain c) digits
      && match ts' with
         | Assembler.Plain c :: _ => negb (Assembler.is_digit_in 16 c)
         | Assembler.Literal _ :: _ => false
         | [] => true
         end
      && tokenized ts'
  end.

(** The text of a literal while [process_base16] is at work: the lower-case
    marker and the digits, until the literals [replaced] have been dealt
    with, the decimal of its value from then on. *)
Definition shown (replaced : list string) (digits : string) : string :=
  if existsb (String.eqb digits) replaced
  then to_string (Assembler.hexadecimal_value digits)
  else "0x" +:+ digits.

(** The digit strings of the literals among [ts], in their order. *)
Definition literal_digits (ts : list Assembler.token) : list string :=
  flat_map (fun t => match t with
                     | Assembler.Literal digits => [digits]
                     | Assembler.Plain _ => []
                     end) ts.

(** [digits], lengthened by at least one character, gives [longer]. *)
Definition heads (digits longer : string) : bool :=
  match Assembler.strip_prefix digits longer with
  | Some (String _ _) => true
  | _ => false
  end.

(** No digit string of the list is the head of a later one. *)
Fixpoint apart (literals : list string) : bool :=
  match literals with
  | [] => true
  | digits :: later => forallb (fun longer => negb (heads digits longer)) later && apart later
  end.

(** The constant expressions whose literals can be told apart: every X
    belongs to a hexadecimal literal, every literal fits 64 bits, and none
    is the head of a later, longer one. *)
Definition separate_literals (expression : string) : bool :=
  let ts := Assembler.tokenize expression in
  forallb (fun t => match t with
                    | Assembler.Plain c => negb (Ascii.eqb c "X")
                    | Assembler.Literal digits =>
                        Assembler.hexadecimal_value digits <=? ULLONG_MAX
                    end) ts
  && apart (literal_digits ts).

Definition constant_literals_apart (text : string) : bool :=
  match Assembler.constant_pattern text with
  | Some expression => separate_literals expression
  | None => true
  end.

(** The operand texts each of whose constants has separate literals. *)
Definition literals_apart (T : string) : bool :=
  let text := Assembler.capitalization (Assembler.remove_space T) in
  match Assembler.memory_pattern text with
  | Some (_, base, offset1, offset2) =>
      constant_literals_apart base && constant_literals_apart offset1
      && constant_literals_apart offset2
  | None => constant_literals_apart text
  end.

(** Whether the text disassembled from [bytes] assembles into [bytes]. *)
Definition reassembles (exec_command : string -> list string -> Assembler.cmd_status)
    (bytes : list Z) : bool :=
  match Assembler.disassemble bytes with
  | Ok text =>
      match Assembler.encode_target exec_command [] text with
      | Ok bytes' => bool_decide (bytes' = bytes)
      | Throw _ => false
      end
  | Throw _ => false
  end.

(** The storage a register record leaves behind. *)
Definition decoded_register (this : Target) (width index : Z) (text : string) : Target :=
  set_literal (set_TargetWidth (set_TargetType (set_RegisterIndex this index) TypeRegister)
                               width) text.

End Notions.

(** ** Fixtures *)

(** A host on which the command run by [execute_bc] prints [stdout] and
    exits with status 0. *)
Definition bc_prints (stdout : string) : string -> list string -> Assembler.cmd_status :=
  fun _ _ => {| Assembler.fd_stdout := stdout; Assembler.fd_stderr := "";
                Assembler.exit_status := 0 |}.

(** A host whose calculator knows the expressions of [table], each with
    what it prints for it, and fails on any other. *)
Definition bc_knows (table : list (string * string))
    : string -> list string -> Assembler.cmd_status :=
  fun _ arguments =>
    let asked (entry : string * string) :=
      bool_decide
        (arguments = ["-c"; "bc <<< " +:+ dquote +:+ "scale=0; " +:+ entry.1 +:+ dquote]) in
    match find asked table with
    | Some entry => {| Assembler.fd_stdout := entry.2; Assembler.fd_stderr := "";
                       Assembler.exit_status := 0 |}
    | None => {| Assembler.fd_stdout := ""; Assembler.fd_stderr := "";
                 Assembler.exit_status := 1 |}
    end.

(** The line feed a command ends its output with. *)
Definition newline : string := String (ascii_of_nat 10) EmptyString.

(** A machine whose registers are all 0, whose instruction pointer is 0 and
    whose memory holds [bytes] from address 0 on. *)
Definition machine (bytes : list Z) : Processor.processor :=
  {| Processor.Registers := fun _ => 0;
     Processor.InstructionPointer := 0;
     Processor.Memory := Processor.store_bytes ∅ 0 bytes |}.

(** Some storage for a [Target] about to be constructed. *)
Definition blank_target : Processor.Target :=
  {| Processor.TargetType := Processor.TypeConstant; Processor.TargetWidth := 0;
     Processor.RegisterIndex := 0; Processor.ConstantValue := 0;
     Processor.MemoryAddress := 0; Processor.literal := "" |}.

(** Indices for the three named registers, as the specification places them:
    "indices >= 0x10". *)
Definition sample_R_StackPointer : Z := 0x10.
Definition sample_R_DataPointer : Z := 0x11.
Definition sample_R_ExtendedSegmentPointer : Z := 0x12.

(** [Target::Target], [get_target_content_in_u64bit_t],
    [set_target_content_in_u64bit_t] and [processor::operation] with these
    indices, illegal instruction being interruption 0 (the specification puts
    its vector entry at 0xA0000). *)
Definition sample_Target_new : Processor.Target -> Processor.processor
    -> result (Processor.Target * Processor.processor) :=
  Processor.Target_new
    sample_R_StackPointer sample_R_DataPointer sample_R_ExtendedSegmentPointer.

Definition sample_get : Processor.Target -> Processor.processor -> result Z :=
  Processor.get_target_content_in_u64bit_t
    sample_R_StackPointer sample_R_DataPointer sample_R_ExtendedSegmentPointer.

Definition sample_set : Processor.Target -> Z -> Processor.processor
    -> result Processor.processor :=
  Processor.set_target_content_in_u64bit_t
    sample_R_StackPointer sample_R_DataPointer sample_R_ExtendedSegmentPointer.

(** The handler section 4.5 of the specification describes, as far as the
    instruction pointer goes: it "sets the instruction pointer to the vector
    entry at code". *)
Definition vector_jump (code : Z) (CPU : Processor.processor) : result Processor.processor :=
  match Processor.interruption_vector_address_table !! code with
  | Some entry => Ok (Processor.with_InstructionPointer CPU entry)
  | None => Throw IllegalInstruction
  end.

Definition sample_operation : Z -> Processor.processor -> result Processor.processor :=
  Processor.operation
    sample_R_StackPointer sample_R_DataPointer sample_R_ExtendedSegmentPointer
    0 blank_target.

(** ** Tactics *)

(** One step of the case analysis on a number scrutinised against
    literals. *)
Ltac destruct_scrutinee :=
  match goal with
  | |- context [match ?p with xI _ => _ | xO _ => _ | xH => _ end] => is_var p; destruct p
  | H : context [match ?p with xI _ => _ | xO _ => _ | xH => _ end] |- _ =>
      is_var p; destruct p
  end.

(** The instruction stream of a [machine] is the bytes it was loaded with. *)
Ltac stream_of_machine :=
  unfold instruction_stream;
  split; [vm_compute; discriminate | split; vm_compute; reflexivity].

(** A test on a character that is known, evaluated. *)
Ltac evaluate_character_test :=
  match goal with
  | |- context [Assembler.isspace (Ascii ?a ?b ?c ?d ?e ?f ?g ?h)] =>
      let v := eval vm_compute in (Assembler.isspace (Ascii a b c d e f g h)) in
      change (Assembler.isspace (Ascii a b c d e f g h)) with v
  | |- context [Assembler.digit_value (Ascii ?a ?b ?c ?d ?e ?f ?g ?h)] =>
      let v := eval vm_compute in (Assembler.digit_value (Ascii a b c d e f g h)) in
      change (Assembler.digit_value (Ascii a b c d e f g h)) with v
  | |- context [Ascii.eqb (Ascii ?a ?b ?c ?d ?e ?f ?g ?h)
                          (Ascii ?a' ?b' ?c' ?d' ?e' ?f' ?g' ?h')] =>
      let v := eval vm_compute in
        (Ascii.eqb (Ascii a b c d e f g h) (Ascii a' b' c' d' e' f' g' h')) in
      change (Ascii.eqb (Ascii a b c d e f g h) (Ascii a' b' c' d' e' f' g' h')) with v
  | |- context [toupper (Ascii ?a ?b ?c ?d ?e ?f ?g ?h)] =>
      let v := eval vm_compute in (toupper (Ascii a b c d e f g h)) in
      change (toupper (Ascii a b c d e f g h)) with v
  | |- context [Assembler.is_digit_in ?base (Ascii ?a ?b ?c ?d ?e ?f ?g ?h)] =>
      let v := eval vm_compute in (Assembler.is_digit_in base (Ascii a b c d e f g h)) in
      change (Assembler.is_digit_in base (Ascii a b c d e f g h)) with v
  | |- context [plain (Ascii ?a ?b ?c ?d ?e ?f ?g ?h)] =>
      let v := eval vm_compute in (plain (Ascii a b c d e f g h)) in
      change (plain (Ascii a b c d e f g h)) with v
  end.

Ltac evaluate_character_tests := repeat (evaluate_character_test; cbv beta iota zeta).

(** * Properties *)

(** ** Little-endian bytes *)

Section Bytes.

Lemma le_value_le_bytes (n : nat) (value : Z) :
  le_value (le_bytes n value) = value mod 256 ^ Z.of_nat n.
Proof.
  revert value. induction n as [|n IH]; intros value.
  - simpl. by rewrite Z.mod_1_r.
  - cbn [le_bytes le_value]. rewrite IH.
    rewrite Nat2Z.inj_succ, Z.pow_succ_r by lia.
    rewrite (Z.rem_mul_r value 256 (256 ^ Z.of_nat n)) by lia. reflexivity.
Qed.

Lemma length_le_bytes (n : nat) (value : Z) : length (le_bytes n value) = n.
Proof. revert value. induction n as [|n IH]; intros; simpl; [done|by rewrite IH]. Qed.

Lemma Forall_is_byte_le_bytes (n : nat) (value : Z) : Forall is_byte (le_bytes n value).
Proof.
  revert value. induction n as [|n IH]; intros; simpl; constructor; [|apply IH].
  unfold is_byte. apply Z.mod_pos_bound. lia.
Qed.

Lemma land_u64 (x : Z) : Z.land x 0xFFFFFFFFFFFFFFFF = u64 x.
Proof. change 0xFFFFFFFFFFFFFFFF with (Z.ones 64). by rewrite Z.land_ones. Qed.

Lemma u64_small (x : Z) : 0 <= x < 2 ^ 64 -> u64 x = x.
Proof. intros. unfold u64. by apply Z.mod_small. Qed.

Lemma as_int64_negative (x : Z) : - 2 ^ 63 <= x < 0 -> as_int64 (u64 x) = x.
Proof.
  intros Hx. unfold as_int64, u64. rewrite Z.mod_mod by lia.
  assert (x mod 2 ^ 64 = x + 2 ^ 64) as ->.
  { symmetry. apply (Z.mod_unique x (2 ^ 64) (-1)); lia. }
  destruct (Z.ltb_spec (x + 2 ^ 64) (2 ^ 63)); lia.
Qed.

End Bytes.

Section Pops.
Import Assembler.

Lemma pop_loop_app (bytes remaining : list Z) :
  pop_loop (length bytes) (bytes ++ remaining) = Ok (le_value bytes, remaining).
Proof.
  induction bytes as [|b bytes IH]; simpl; [done|]. by rewrite IH.
Qed.

Lemma pop8_cons (byte : Z) (input : list Z) :
  pop8 (byte :: input) = Ok (Z.land (byte + 256 * 0) 0xFF, input).
Proof. reflexivity. Qed.

Lemma pop_loop_le_bytes (n : nat) (value : Z) (remaining : list Z) :
  pop_loop n (le_bytes n value ++ remaining) = Ok (value mod 256 ^ Z.of_nat n, remaining).
Proof.
  pose proof (pop_loop_app (le_bytes n value) remaining) as H.
  rewrite length_le_bytes in H. by rewrite H, le_value_le_bytes.
Qed.

Lemma pop64_le_bytes (value : Z) (remaining : list Z) :
  pop 64 (le_bytes 8 value ++ remaining) = Ok (u64 value, remaining).
Proof.
  unfold pop. change (64 / 8)%nat with 8%nat.
  rewrite pop_loop_le_bytes. cbn [mbind result_bind].
  rewrite land_u64. unfold u64. change (256 ^ Z.of_nat 8) with (2 ^ 64).
  by rewrite Z.mod_mod.
Qed.

End Pops.

(** ** Assembling and disassembling an operand *)

Section RoundTrip.
Import Assembler.

Variable exec_command : string -> list string -> cmd_status.

(** *** Text lemmas *)

Lemma is_valid_register_In (input : string) :
  is_valid_register input = true <-> In input register_pattern.
Proof.
  unfold is_valid_register. rewrite existsb_exists. split.
  - intros (name & Hin & Heq). apply String.eqb_eq in Heq. by subst.
  - intros Hin. exists input. split; [done|]. apply String.eqb_refl.
Qed.

Lemma append_cons (c : ascii) (s t : string) : String c s +:+ t = String c (s +:+ t).
Proof. reflexivity. Qed.

Lemma strip_prefix_Some (p s rest : string) :
  strip_prefix p s = Some rest -> s = p +:+ rest.
Proof.
  revert s. induction p as [|a p IH]; intros s H; simpl in *.
  - by injection H as ->.
  - destruct s as [|b s]; [discriminate|].
    destruct (Ascii.eqb_spec a b) as [->|]; [|discriminate].
    rewrite append_cons. f_equal. by apply IH.
Qed.

Lemma unsnoc_Some (s init : string) (last : ascii) :
  unsnoc s = Some (init, last) -> s = init +:+ String last EmptyString.
Proof.
  revert init. induction s as [|c s IH]; intros init H; simpl in *; [discriminate|].
  destruct (unsnoc s) as [[init' last']|] eqn:Hs.
  - injection H as <- <-. rewrite append_cons. f_equal. by apply IH.
  - injection H as <- <-. destruct s; [done|]. simpl in Hs.
    destruct (unsnoc s) as [[? ?]|]; discriminate.
Qed.

Lemma unsnoc_snoc (init : string) (last : ascii) :
  unsnoc (init +:+ String last EmptyString) = Some (init, last).
Proof.
  induction init as [|c init IH]; [done|].
  rewrite append_cons. simpl. by rewrite IH.
Qed.

(** What [encode_constant] cuts out of the text with [pop_back] and two
    [erase]s is the capture group of [constant_pattern]. *)
Lemma constant_pattern_body (text expression : string) :
  constant_pattern text = Some expression ->
  (String.length text <=? 2)%nat = false
  /\ erase_begin (erase_begin (pop_back text)) = expression.
Proof.
  unfold constant_pattern. intros H.
  destruct (strip_prefix "$(" text) as [rest|] eqn:Hp; [|discriminate].
  apply strip_prefix_Some in Hp. subst text.
  destruct (unsnoc rest) as [[body last]|] eqn:Hu; [|discriminate].
  apply unsnoc_Some in Hu. subst rest.
  destruct (Ascii.eqb last ")" && string_forallb regex_dot body); [|discriminate].
  injection H as <-. split.
  - destruct body; reflexivity.
  - unfold pop_back.
    change ("$(" +:+ (body +:+ String last "")) with (("$(" +:+ body) +:+ String last "").
    by rewrite unsnoc_snoc.
Qed.

Lemma first_match_Some {A B : Type} (f : A -> option B) (alternatives : list A) (b : B) :
  first_match f alternatives = Some b -> exists a, In a alternatives /\ f a = Some b.
Proof.
  induction alternatives as [|a l IH]; simpl; [discriminate|].
  destruct (f a) eqn:Hfa.
  - intros [= ->]. eauto.
  - intros H. destruct (IH H) as (a' & ? & ?). eauto.
Qed.

Lemma memory_pattern_ratio (text ratio base offset1 offset2 : string) :
  memory_pattern text = Some (ratio, base, offset1, offset2) ->
  In ratio ["1"; "2"; "4"; "8"; "16"].
Proof.
  unfold memory_pattern. intros H.
  apply first_match_Some in H as (r & Hin & H).
  destruct (strip_prefix _ text); [|discriminate].
  destruct (unsnoc _) as [[body last]|]; [|discriminate].
  destruct (_ && _); [|discriminate].
  destruct (rsplit "," body) as [[front g4]|]; [|discriminate].
  destruct (rsplit "," front) as [[g2 g3]|]; [|discriminate].
  by injection H as -> _ _ _.
Qed.

(** *** The buffer is only appended to *)

Lemma encode_register_app (buffer : list Z) (input : parsed_target_t) :
  encode_register buffer input =
  bytes ← encode_register [] input; Ok (buffer ++ bytes).
Proof.
  unfold encode_register.
  destruct (unsnoc (RegisterName input)) as [[init back]|]; [|done].
  repeat (match goal with |- context [if ?b then _ else _] => destruct b end;
          [cbn; unfold push8, push; cbn; by rewrite <- !app_assoc|]).
  done.
Qed.

Lemma encode_constant_app (buffer : list Z) (input : parsed_target_t) :
  encode_constant exec_command buffer input =
  bytes ← encode_constant exec_command [] input; Ok (buffer ++ bytes).
Proof.
  unfold encode_constant.
  destruct (String.length _ <=? 2)%nat; [done|].
  destruct (execute_bc _ _ _) as [out|e]; [|done]. cbn [mbind result_bind].
  match goal with |- context [mbind _ ?m] => destruct m as [value|e] end; [|done].
  cbn [mbind result_bind].
  destruct (value <? 0); unfold push8, push; cbn; by rewrite <- !app_assoc.
Qed.

Lemma encode_each_parameter_app (buffer : list Z) (param : string) :
  encode_each_parameter exec_command buffer param =
  bytes ← encode_each_parameter exec_command [] param; Ok (buffer ++ bytes).
Proof.
  unfold encode_each_parameter.
  destruct (is_valid_register param).
  - destruct (negb _); [done|]. apply encode_register_app.
  - destruct (is_valid_constant param); [|done]. apply encode_constant_app.
Qed.

(** *** Registers *)

Lemma register_round_trip (name : string) :
  In name register_pattern ->
  exists width index : Z,
    encode_register [] (register_target name) = Ok [0x01; width; index]
    /\ forall (output : list string) (input : list Z),
         decode_register output (width :: index :: input) = Ok (output ++ [name], input).
Proof.
  intros Hin. vm_compute in Hin.
  repeat (destruct Hin as [<-|Hin];
          [do 2 eexists; split; [vm_compute; reflexivity | intros; reflexivity]|]).
  contradiction.
Qed.

(** *** Constants *)

Lemma leading_digits_nonneg (base acc : Z) (s : string) :
  0 <= base -> 0 <= acc -> 0 <= leading_digits base acc s.
Proof.
  intros Hbase. revert acc. induction s as [|c s IH]; intros acc Hacc; simpl; [done|].
  unfold digit_value.
  repeat match goal with |- context [if ?b then _ else _] => destruct b eqn:? end;
    try done; apply IH; lia.
Qed.

Lemma scan_number_nonneg (nptr : string) (base : Z) :
  0 <= base -> 0 <= (scan_number nptr base).2.
Proof.
  intros Hbase. unfold scan_number.
  destruct (match skip_spaces nptr with String _ _ => _ | EmptyString => _ end)
    as [negative s].
  cbn [snd]. by apply leading_digits_nonneg.
Qed.

Lemma strtoll_range (nptr : string) : LLONG_MIN <= strtoll nptr 10 <= LLONG_MAX.
Proof.
  pose proof (scan_number_nonneg nptr 10) as Hm.
  unfold strtoll, LLONG_MIN, LLONG_MAX.
  destruct (scan_number nptr 10) as [negative magnitude]. cbn [snd] in Hm.
  destruct negative; lia.
Qed.

Lemma strtoull_range (nptr : string) : 0 <= strtoull nptr 10 <= ULLONG_MAX.
Proof.
  pose proof (scan_number_nonneg nptr 10) as Hm.
  unfold strtoull, ULLONG_MAX, u64.
  destruct (scan_number nptr 10) as [negative magnitude]. cbn [snd] in Hm.
  destruct (Z.ltb_spec (2 ^ 64 - 1) magnitude); [lia|].
  destruct negative; [|lia].
  pose proof (Z.mod_pos_bound (- magnitude) (2 ^ 64)). lia.
Qed.

Lemma stored_constant_range (expression : string) (value : Z) :
  stored_constant exec_command expression = Ok value ->
  LLONG_MIN <= value <= ULLONG_MAX.
Proof.
  unfold stored_constant.
  destruct (execute_bc _ _ _) as [evaluated|e]; [|discriminate]. cbn [mbind result_bind].
  pose proof (strtoll_range evaluated). pose proof (strtoull_range evaluated).
  unfold LLONG_MIN, LLONG_MAX, ULLONG_MAX in *.
  destruct (_ =? _).
  - intros [= <-]. lia.
  - destruct (process_base16 expression) as [|first ?]; [discriminate|].
    destruct (Ascii.eqb first "-"); intros [= <-]; lia.
Qed.

Lemma encode_constant_stored (text expression : string) :
  constant_pattern text = Some expression ->
  encode_constant exec_command [] (constant_target text) =
  value ← stored_constant exec_command expression;
  Ok (0x02 :: (if value <? 0 then 0x01 else 0x00) :: le_bytes 8 value).
Proof.
  intros Hpattern. apply constant_pattern_body in Hpattern as [Hlength Hbody].
  unfold encode_constant, stored_constant. cbn [ConstantExpression constant_target].
  rewrite Hlength, Hbody.
  destruct (execute_bc _ _ _) as [evaluated|e]; [|done]. cbn [mbind result_bind].
  match goal with |- mbind _ ?m = mbind _ ?m' => change m' with m; destruct m as [value|e] end;
    [|done].
  cbn [mbind result_bind]. by destruct (value <? 0).
Qed.

Lemma decode_constant_stored (value : Z) (output : list string) (input : list Z) :
  LLONG_MIN <= value <= ULLONG_MAX ->
  decode_constant output ((if value <? 0 then 0x01 else 0x00) :: le_bytes 8 value ++ input)
  = Ok (output ++ [canonical_constant value], input).
Proof.
  unfold LLONG_MIN, ULLONG_MAX. intros Hrange.
  unfold decode_constant, canonical_constant. rewrite pop8_cons. cbn [mbind result_bind].
  rewrite pop64_le_bytes. cbn [mbind result_bind].
  destruct (Z.ltb_spec value 0).
  - rewrite as_int64_negative by lia. reflexivity.
  - rewrite u64_small by lia. reflexivity.
Qed.

(** *** Sub-operands of a memory operand *)

(** The bytes of a sub-operand decode to one piece of text, whatever
    follows them: the register text itself, or the rendering of the value
    stored for the constant. *)
Lemma parameter_decoded (param : string) (bytes : list Z) :
  encode_each_parameter exec_command [] param = Ok bytes ->
  exists text : string,
    (forall (output : list string) (input : list Z),
       decode_each_parameter output (bytes ++ input) = Ok (output ++ [text], input))
    /\ (is_valid_register param = true
        /\ String.eqb (pop_back param) "%FER" = true /\ text = param
        \/ is_valid_register param = false
           /\ exists (expression : string) (value : Z),
                constant_pattern param = Some expression
                /\ stored_constant exec_command expression = Ok value
                /\ text = canonical_constant value).
Proof.
  unfold encode_each_parameter.
  destruct (is_valid_register param) eqn:Hregister.
  - destruct (String.eqb (pop_back param) "%FER") eqn:Hclass; cbn [negb]; [|done].
    apply is_valid_register_In, register_round_trip in Hregister
      as (width & index & -> & Hdecode).
    intros [= <-]. exists param. split; [|by left].
    intros output input. apply Hdecode.
  - unfold is_valid_constant.
    destruct (constant_pattern param) as [expression|] eqn:Hconstant; [|done].
    rewrite (encode_constant_stored _ _ Hconstant).
    destruct (stored_constant exec_command expression) as [value|e] eqn:Hstored;
      cbn [mbind result_bind]; [|done].
    intros [= <-]. exists (canonical_constant value). split.
    + intros output input.
      apply (decode_constant_stored value output input).
      by apply stored_constant_range with expression.
    + right. split; [done|]. by exists expression, value.
Qed.

(** *** Memory operands *)

Lemma append_empty_r (s : string) : s +:+ EmptyString = s.
Proof. induction s as [|c s IH]; [done|]. by rewrite append_cons, IH. Qed.

Lemma append_assoc (s t u : string) : (s +:+ t) +:+ u = s +:+ (t +:+ u).
Proof. induction s as [|c s IH]; [done|]. by rewrite !append_cons, IH. Qed.

Lemma printed_app (pieces pieces' : list string) :
  printed (pieces ++ pieces') = printed pieces +:+ printed pieces'.
Proof.
  induction pieces as [|piece pieces IH]; [done|].
  change (printed ((piece :: pieces) ++ pieces'))
    with (piece +:+ printed (pieces ++ pieces')).
  change (printed (piece :: pieces)) with (piece +:+ printed pieces).
  by rewrite IH, append_assoc.
Qed.

Lemma decode_as_register (output : list string) (input : list Z) :
  decode output (0x01 :: input) = decode_register output input.
Proof. reflexivity. Qed.

Lemma decode_as_constant (output : list string) (input : list Z) :
  decode output (0x02 :: input) = decode_constant output input.
Proof. reflexivity. Qed.

Lemma decode_as_memory (output : list string) (input : list Z) :
  decode output (0x03 :: input) = decode_memory output input.
Proof. reflexivity. Qed.

(** The ratio texts of [memory_pattern], each with the byte [encode_memory]
    pushes for it and the piece [decode_memory] prints for that byte. *)
Lemma memory_ratio_cases (ratio : string) :
  In ratio ["1"; "2"; "4"; "8"; "16"] ->
  exists ratio_byte : Z,
    (forall buffer : list Z,
       (if String.eqb ratio "1" then push8 buffer 0x01
        else if String.eqb ratio "2" then push8 buffer 0x02
        else if String.eqb ratio "4" then push8 buffer 0x04
        else if String.eqb ratio "8" then push8 buffer 0x08
        else if String.eqb ratio "16" then push8 buffer 0x16
        else buffer) = buffer ++ [ratio_byte])
    /\ forall (output : list string) (input : list Z),
         decode_memory output (ratio_byte :: input) =
         '(output, input) ← decode_each_parameter (output ++ ["*" +:+ ratio +:+ "("]) input;
         '(output, input) ← decode_each_parameter (output ++ [", "]) input;
         '(output, input) ← decode_each_parameter (output ++ [", "]) input;
         Ok (output ++ [")"], input).
Proof.
  intros Hratio. cbn in Hratio.
  destruct Hratio as [<-|[<-|[<-|[<-|[<-|[]]]]]];
    eexists; (split; [intros buffer; reflexivity | intros output input; reflexivity]).
Qed.

End RoundTrip.

(** ** Truncated byte streams *)

Section Truncation.
Import Assembler.

Lemma stable_bind {A B : Type} (reader : list Z -> result (A * list Z))
    (next : A -> list Z -> result (B * list Z)) :
  stable reader -> (forall a, stable (next a)) ->
  stable (fun input => '(a, input) ← reader input; next a input).
Proof.
  intros Hr Hn input more. specialize (Hr input more).
  destruct (reader input) as [[a remaining]|e]; simpl.
  - rewrite Hr. simpl. apply Hn.
  - destruct e; try rewrite Hr; done.
Qed.

Lemma stable_ok {A : Type} (a : A) : stable (fun input => Ok (a, input)).
Proof. intros input more. reflexivity. Qed.

Lemma stable_throw {A : Type} (e : exception) :
  stable (fun _ => @Throw (A * list Z) e).
Proof. intros input more. destruct e; reflexivity. Qed.

Lemma pop_loop_stable (count : nat) : stable (pop_loop count).
Proof.
  induction count as [|count IH]; intros input more; simpl.
  - reflexivity.
  - destruct input as [|byte input]; simpl; [done|].
    specialize (IH input more).
    destruct (pop_loop count input) as [[high remaining]|e]; simpl.
    + by rewrite IH.
    + destruct e; try rewrite IH; done.
Qed.

Lemma pop_stable (LENGTH : nat) : stable (pop LENGTH).
Proof.
  unfold pop. apply stable_bind; [apply pop_loop_stable|].
  intros result. 
  destruct (LENGTH / 8)%nat as [|[|[|[|[|[|[|[|[|n]]]]]]]]];
    first [apply stable_ok | apply stable_throw].
Qed.

Lemma decode_register_stable output : stable (decode_register output).
Proof.
  unfold decode_register, pop8.
  apply stable_bind; [apply pop_stable|]. intros register_size.
  apply stable_bind; [apply pop_stable|]. intros register_index.
  intros input more.
  destruct (match register_size with 8 => _ | _ => _ end) as [prefix|e]; simpl;
    [reflexivity | destruct e; reflexivity].
Qed.

Lemma decode_constant_stable output : stable (decode_constant output).
Proof.
  unfold decode_constant, pop8.
  apply stable_bind; [apply pop_stable|]. intros sign.
  apply stable_bind; [apply pop_stable|]. intros num.
  apply stable_ok.
Qed.

Lemma decode_each_parameter_stable output : stable (decode_each_parameter output).
Proof.
  unfold decode_each_parameter, pop8.
  apply stable_bind; [apply pop_stable|]. intros prefix.
  destruct prefix as [|[[]|[]|]|];
    first [apply decode_register_stable | apply decode_constant_stable | apply stable_throw].
Qed.

Lemma decode_memory_stable output : stable (decode_memory output).
Proof.
  unfold decode_memory, pop8.
  apply stable_bind; [apply pop_stable|]. intros ratio.
  destruct (match ratio with 1 => _ | _ => _ end) as [ret|e]; simpl;
    [|apply stable_throw].
  apply stable_bind; [apply decode_each_parameter_stable|]. intros output1.
  apply stable_bind; [apply decode_each_parameter_stable|]. intros output2.
  apply stable_bind; [apply decode_each_parameter_stable|]. intros output3.
  apply stable_ok.
Qed.

Lemma decode_stable output : stable (decode output).
Proof.
  unfold decode, pop8.
  apply stable_bind; [apply pop_stable|]. intros prefix.
  destruct prefix as [|[[]|[]|]|];
    first [apply decode_register_stable | apply decode_constant_stable
          | apply decode_memory_stable | apply stable_throw].
Qed.

(** C10.  A byte stream that is a strict prefix of a valid operand encoding
    (one that [decode] accepts and consumes entirely), the empty stream
    included, makes [decode] read past the end of its input: the pop without
    a length check, which the embedding reports as [UndefinedBehaviour]; no
    operand text is produced. *)
Theorem decode_truncated_stream (output output' : list string) (truncated missing : list Z) :
  decode output (truncated ++ missing) = Ok (output', []) ->
  missing <> [] ->
  decode output truncated = Throw UndefinedBehaviour.
Proof.
  intros Hvalid Hmissing.
  pose proof (decode_stable output truncated missing) as Hstable.
  destruct (decode output truncated) as [[text remaining]|e].
  - rewrite Hstable in Hvalid. injection Hvalid as _ Hnil.
    apply app_eq_nil in Hnil as [_ ?]. contradiction.
  - destruct e; try reflexivity; congruence.
Qed.

Lemma decode_truncated_stream_witness :
  decode [] [0x01; 0x64] = Throw UndefinedBehaviour.
Proof.
  apply (decode_truncated_stream [] ["%FER3"] [0x01; 0x64] [0x03]).
  - reflexivity.
  - discriminate.
Defined.

End Truncation.

(** ** The interruption vector table *)

Section VectorTable.
Import Processor.

Lemma initialize_vector_unfold (table : gmap Z Z) :
  initialize_vector table = foldl vector_entry table (seqZ 0 TOTAL_ENTRIES).
Proof. reflexivity. Qed.

(** The first [n] rounds of the loop, started on the empty table. *)
Lemma vector_loop_spec (n : nat) :
  Z.of_nat n <= TOTAL_ENTRIES ->
  let table := foldl vector_entry ∅ (seqZ 0 (Z.of_nat n)) in
  (forall i : Z, table !! i =
     if decide (0 <= i < Z.of_nat n) then Some (START_ADDRESS + INCREMENT * i) else None)
  /\ size table = n.
Proof.
  induction n as [|n IH]; intros Hn table.
  - split; [|reflexivity]. intros i. subst table. simpl.
    rewrite lookup_empty. case_decide; [lia|done].
  - destruct IH as [IHl IHs]; [lia|].
    subst table. rewrite seqZ_S, foldl_snoc, Z.add_0_l.
    set (prev := foldl vector_entry ∅ (seqZ 0 (Z.of_nat n))) in *.
    assert (Hfresh : prev !! Z.of_nat n = None).
    { rewrite IHl. case_decide; [lia|done]. }
    assert (Haddr : u64 (START_ADDRESS + u64 (Z.of_nat n * INCREMENT))
                    = START_ADDRESS + INCREMENT * Z.of_nat n).
    { unfold u64, START_ADDRESS, INCREMENT, TOTAL_ENTRIES in *.
      rewrite (Z.mod_small (Z.of_nat n * 8)) by lia.
      rewrite Z.mod_small by lia. lia. }
    unfold vector_entry, map_insert. cbn [fst snd]. rewrite Hfresh, Haddr.
    split.
    + intros i. destruct (decide (i = Z.of_nat n)) as [->|Hne].
      * rewrite lookup_insert_eq. case_decide; [done|lia].
      * rewrite lookup_insert_ne by done. rewrite IHl.
        repeat case_decide; try done; lia.
    + rewrite map_size_insert_None by done. by rewrite IHs.
Qed.

(** C9.  Once the table is initialised, every interruption number [i] from
    0 to 511 is mapped to the address 0xA0000 + 8 * i, and the table holds
    exactly 512 entries. *)
Theorem interruption_vector_table_initial (i : Z) :
  0 <= i < 512 ->
  interruption_vector_address_table !! i = Some (0xA0000 + 8 * i)
  /\ size interruption_vector_address_table = 512%nat.
Proof.
  intros Hi.
  destruct (vector_loop_spec 512) as [Hlookup Hsize]; [unfold TOTAL_ENTRIES; lia|].
  unfold interruption_vector_address_table. rewrite initialize_vector_unfold.
  change TOTAL_ENTRIES with (Z.of_nat 512).
  split; [|exact Hsize].
  rewrite Hlookup. case_decide; [reflexivity|lia].
Qed.

Lemma interruption_vector_table_initial_witness :
  interruption_vector_address_table !! 3 = Some (0xA0000 + 8 * 3)
  /\ size interruption_vector_address_table = 512%nat.
Proof. apply (interruption_vector_table_initial 3). lia. Defined.

(** No other interruption number has an entry. *)
Lemma interruption_vector_table_outside (i : Z) :
  ~ (0 <= i < 512) -> interruption_vector_address_table !! i = None.
Proof.
  intros Hi.
  destruct (vector_loop_spec 512) as [Hlookup _]; [unfold TOTAL_ENTRIES; lia|].
  unfold interruption_vector_address_table. rewrite initialize_vector_unfold.
  change TOTAL_ENTRIES with (Z.of_nat 512).
  rewrite Hlookup. case_decide; [lia|reflexivity].
Qed.
End VectorTable.

(** ** Operands in the instruction stream *)

Section InstructionStream.
Import Processor.

Lemma read_bytes_app (Memory : gmap Z Z) (address : Z) (n m : nat) :
  read_bytes Memory address (n + m)
  = read_bytes Memory address n ++ read_bytes Memory (address + Z.of_nat n) m.
Proof.
  revert address. induction n as [|n IH]; intros address.
  - cbn [read_bytes app Nat.add]. by rewrite Z.add_0_r.
  - cbn [read_bytes app Nat.add]. rewrite IH. do 3 f_equal. lia.
Qed.

Lemma length_read_bytes (Memory : gmap Z Z) (address : Z) (n : nat) :
  length (read_bytes Memory address n) = n.
Proof. revert address. induction n as [|n IH]; intros; simpl; [done|by rewrite IH]. Qed.

Lemma advance_advance (CPU : processor) (n m : nat) :
  advance (advance CPU n) m = advance CPU (n + m).
Proof.
  unfold advance, with_InstructionPointer.
  cbn [InstructionPointer Memory Registers]. f_equal. lia.
Qed.

(** Fetching the first bytes of the stream. *)
Lemma pop_stream (N : nat) (CPU : processor) (front rest : list Z) :
  length front = (N / 8)%nat ->
  instruction_stream CPU (front ++ rest) ->
  pop N CPU = Ok (le_value front, advance CPU (N / 8))
  /\ instruction_stream (advance CPU (N / 8)) rest.
Proof.
  intros Hlength (Hip & Hend & Hbytes).
  rewrite length_app, Hlength in Hend, Hbytes.
  unfold get_memory in Hbytes. rewrite read_bytes_app in Hbytes.
  apply app_inj_1 in Hbytes as [Hfront Hrest];
    [|by rewrite length_read_bytes].
  rewrite Nat2Z.inj_add in Hend.
  split.
  - unfold pop, get_memory. rewrite Hfront. unfold advance.
    rewrite u64_small by lia. reflexivity.
  - unfold instruction_stream, advance, get_memory.
    cbn [InstructionPointer Memory with_InstructionPointer]. repeat split; [lia|lia|done].
Qed.

Lemma pop8_stream (CPU : processor) (byte : Z) (rest : list Z) :
  instruction_stream CPU (byte :: rest) ->
  pop 8 CPU = Ok (byte, advance CPU 1) /\ instruction_stream (advance CPU 1) rest.
Proof.
  intros Hstream. destruct (pop_stream 8 CPU [byte] rest) as [Hpop Hrest]; [done..|].
  split; [|done]. rewrite Hpop. cbn [le_value]. do 2 f_equal. lia.
Qed.

End InstructionStream.

Section Operands.
Import Processor.

Variables R_StackPointer R_DataPointer R_ExtendedSegmentPointer : Z.

Local Abbreviation do_get_register :=
  (Processor.do_get_register R_StackPointer R_DataPointer R_ExtendedSegmentPointer).
Local Abbreviation get_target_content_in_u64bit_t :=
  (Processor.get_target_content_in_u64bit_t
     R_StackPointer R_DataPointer R_ExtendedSegmentPointer).
Local Abbreviation do_setup_memory_info :=
  (Processor.do_setup_memory_info R_StackPointer R_DataPointer R_ExtendedSegmentPointer).
Local Abbreviation do_decode_via_prefix :=
  (Processor.do_decode_via_prefix R_StackPointer R_DataPointer R_ExtendedSegmentPointer).
Local Abbreviation Target_new :=
  (Processor.Target_new R_StackPointer R_DataPointer R_ExtendedSegmentPointer).
Local Abbreviation value_of :=
  (record_value R_StackPointer R_DataPointer R_ExtendedSegmentPointer).
Local Abbreviation block :=
  (parameter_block R_StackPointer R_DataPointer R_ExtendedSegmentPointer).

Lemma do_decode_via_prefix_register (nesting : nat) (this : Target) (CPU : processor) :
  do_decode_via_prefix nesting 0x01 this CPU = do_setup_register_info this CPU.
Proof. destruct nesting; reflexivity. Qed.

Lemma do_decode_via_prefix_constant (nesting : nat) (this : Target) (CPU : processor) :
  do_decode_via_prefix nesting 0x02 this CPU = do_setup_constant_info this CPU.
Proof. destruct nesting; reflexivity. Qed.

Lemma do_setup_constant_info_stream (this : Target) (CPU : processor) (tag : Z)
    (VAL rest : list Z) :
  length VAL = 8%nat ->
  instruction_stream CPU (tag :: VAL ++ rest) ->
  do_setup_constant_info this CPU =
    (if tag =? 0x64
     then Ok (set_literal (set_ConstantValue (set_TargetType this TypeConstant) (le_value VAL))
                          ("$(" +:+ to_string (le_value VAL) +:+ ")"),
              advance CPU 9)
     else Throw IllegalInstruction)
  /\ instruction_stream (advance CPU 9) rest.
Proof.
  intros Hlength Hstream.
  apply pop8_stream in Hstream as [Htag Hstream].
  apply (pop_stream 64) in Hstream as [HVAL Hstream]; [|done].
  change (64 / 8)%nat with 8%nat in *. rewrite advance_advance in *.
  split; [|done].
  unfold do_setup_constant_info. rewrite Htag. cbn [mbind result_bind].
  destruct (tag =? 100); cbn [illegal_instruction_assert mbind result_bind]; [|done].
  rewrite HVAL. reflexivity.
Qed.

Lemma do_get_register_width (this : Target) (CPU : processor) (value : Z) :
  do_get_register this CPU = Ok value ->
  TargetWidth this = 0x08 \/ TargetWidth this = 0x16
  \/ TargetWidth this = 0x32 \/ TargetWidth this = 0x64.
Proof.
  unfold Processor.do_get_register.
  destruct (TargetWidth this) as [|p|p]; try discriminate.
  repeat destruct_scrutinee; try discriminate; auto.
Qed.

Lemma do_setup_register_info_stream (this : Target) (CPU : processor) (width index : Z)
    (rest : list Z) :
  width = 0x08 \/ width = 0x16 \/ width = 0x32 \/ width = 0x64 ->
  instruction_stream CPU (width :: index :: rest) ->
  (exists text : string,
     do_setup_register_info this CPU = Ok (decoded_register this width index text, advance CPU 2))
  /\ instruction_stream (advance CPU 2) rest.
Proof.
  intros Hwidth Hstream.
  apply pop8_stream in Hstream as [Hpopw Hstream].
  apply pop8_stream in Hstream as [Hpopi Hstream].
  rewrite advance_advance in *. split; [|done].
  unfold do_setup_register_info. rewrite Hpopw. cbn [mbind result_bind].
  rewrite Hpopi. cbn [mbind result_bind].
  destruct Hwidth as [-> | [-> | [-> | ->]]]; eexists; reflexivity.
Qed.

Lemma do_get_register_ext (this this' : Target) (CPU CPU' : processor) :
  TargetWidth this = TargetWidth this' ->
  RegisterIndex this = RegisterIndex this' ->
  Registers CPU = Registers CPU' ->
  do_get_register this CPU = do_get_register this' CPU'.
Proof. unfold Processor.do_get_register. by intros -> -> ->. Qed.

(** A block of [do_setup_memory_info] on a sub-operand record whose value is
    [value]: the continuation runs on that value, behind the record. *)
Lemma parameter_block_stream (this : Target) (CPU : processor)
    (record : parameter_record) (rest : list Z) (value : Z) :
  well_formed_record record ->
  instruction_stream CPU (record_bytes record ++ rest) ->
  value_of record CPU = Ok value ->
  (exists this' : Target,
     forall (A : Type) (continue : Z -> Target -> processor -> result A),
       block (do_decode_via_prefix 0) this CPU continue
       = continue value this' (advance CPU (length (record_bytes record))))
  /\ instruction_stream (advance CPU (length (record_bytes record))) rest.
Proof.
  intros Hwf Hstream Hvalue. unfold parameter_block.
  destruct record as [width index|VAL];
    cbn [record_bytes app length well_formed_record] in *.
  - apply pop8_stream in Hstream as [Hprefix Hstream].
    unfold record_value in Hvalue.
    pose proof (do_get_register_width _ _ _ Hvalue) as Hwidth. cbn [TargetWidth register_operand] in Hwidth.
    apply (do_setup_register_info_stream this) in Hstream as [[text Hsetup] Hstream]; [|done].
    rewrite advance_advance in *. split; [|done].
    eexists. intros A continue.
    rewrite Hprefix. cbn [mbind result_bind].
    change (illegal_instruction_assert _) with (Ok tt). cbn [mbind result_bind].
    rewrite do_decode_via_prefix_register, Hsetup. cbn [mbind result_bind].
    unfold Processor.get_target_content_in_u64bit_t.
    cbn [TargetType decoded_register set_literal set_TargetWidth set_TargetType].
    rewrite (do_get_register_ext _ (register_operand width index) _ CPU), Hvalue; done.
  - apply pop8_stream in Hstream as [Hprefix Hstream].
    apply (do_setup_constant_info_stream this) in Hstream as [Hsetup Hstream]; [|done].
    change (100 =? 100) with true in Hsetup. cbv iota in Hsetup.
    rewrite advance_advance in *. rewrite Hwf. split; [|done].
    injection Hvalue as <-.
    eexists. intros A continue.
    rewrite Hprefix. cbn [mbind result_bind].
    change (illegal_instruction_assert _) with (Ok tt). cbn [mbind result_bind].
    rewrite do_decode_via_prefix_constant, Hsetup. cbn [mbind result_bind].
    reflexivity.
Qed.

Lemma do_setup_memory_info_blocks
    (decode : Z -> Target -> processor -> result (Target * processor))
    (this : Target) (CPU : processor) :
  do_setup_memory_info decode this CPU =
  '(width, CPU) ← pop 8 CPU;
  block decode this CPU (fun BaseAddress this CPU =>
    let literal_base := literal this in
    block decode this CPU (fun Offset1 this CPU =>
      let literal_off1 := literal this in
      block decode this CPU (fun Offset2 this CPU =>
        let literal_off2 := literal this in
        '(Ratio, CPU) ← pop 8 CPU;
        let this := set_TargetType this TypeMemory in
        let this := set_MemoryAddress this
                      (u64 (u64 (u64 (BaseAddress + Offset1) + Offset2) * Ratio)) in
        let this := set_TargetWidth this width in
        Ok (set_literal this ("*" +:+ to_string Ratio +:+
                              "(" +:+ literal_base +:+
                              ", " +:+ literal_off1 +:+
                              ", " +:+ literal_off2 +:+ ")"), CPU)))).
Proof. reflexivity. Qed.

Lemma u64_address (base offset1 offset2 ratio : Z) :
  u64 (u64 (u64 (base + offset1) + offset2) * ratio)
  = ((base + offset1 + offset2) * ratio) mod 2 ^ 64.
Proof.
  unfold u64.
  rewrite Zmult_mod_idemp_l.
  rewrite <- (Zmult_mod_idemp_l ((base + offset1) mod 2 ^ 64 + offset2)).
  rewrite Zplus_mod_idemp_l, Zmult_mod_idemp_l. reflexivity.
Qed.

(** The record [do_setup_memory_info] reads behind the prefix 03 is
    WIDTH P1 P2 P3 RATIO: the access width comes first and the ratio last,
    and the address is the sum of the three sub-operand values times the
    ratio byte, modulo 2^64. *)
Lemma memory_record_decoded (this : Target) (CPU : processor) (WIDTH RATIO : Z)
    (P1 P2 P3 : parameter_record) (rest : list Z) (vb v1 v2 : Z) :
  well_formed_record P1 -> well_formed_record P2 -> well_formed_record P3 ->
  instruction_stream CPU
    (0x03 :: WIDTH :: record_bytes P1 ++ record_bytes P2 ++ record_bytes P3 ++ RATIO :: rest) ->
  value_of P1 CPU = Ok vb ->
  value_of P2 CPU = Ok v1 ->
  value_of P3 CPU = Ok v2 ->
  exists (target : Target) (CPU' : processor),
    Target_new this CPU = Ok (target, CPU')
    /\ TargetType target = TypeMemory
    /\ TargetWidth target = WIDTH
    /\ MemoryAddress target = ((vb + v1 + v2) * RATIO) mod 2 ^ 64
    /\ instruction_stream CPU' rest
    /\ Registers CPU' = Registers CPU /\ Memory CPU' = Memory CPU.
Proof.
  intros Hwf1 Hwf2 Hwf3 Hstream Hvb Hv1 Hv2.
  apply pop8_stream in Hstream as [Hprefix Hstream].
  apply pop8_stream in Hstream as [Hwidth Hstream].
  apply (parameter_block_stream this _ P1 _ vb) in Hstream as [[this1 Hblock1] Hstream];
    [|done|done].
  apply (parameter_block_stream this1 _ P2 _ v1) in Hstream as [[this2 Hblock2] Hstream];
    [|done|done].
  apply (parameter_block_stream this2 _ P3 _ v2) in Hstream as [[this3 Hblock3] Hstream];
    [|done|done].
  apply pop8_stream in Hstream as [Hratio Hstream].
  unfold Processor.Target_new. rewrite Hprefix. cbn [mbind result_bind].
  change (do_decode_via_prefix 1 3 this (advance CPU 1))
    with (do_setup_memory_info (do_decode_via_prefix 0) this (advance CPU 1)).
  rewrite do_setup_memory_info_blocks, Hwidth. cbn [mbind result_bind].
  rewrite Hblock1. cbv zeta. rewrite Hblock2. rewrite Hblock3.
  rewrite Hratio. cbn [mbind result_bind].
  do 2 eexists. split; [reflexivity|].
  cbn [TargetType TargetWidth MemoryAddress set_literal set_TargetWidth set_MemoryAddress
       set_TargetType].
  rewrite u64_address.
  split; [done|]. split; [done|]. split; [done|]. split; [exact Hstream|].
  split; reflexivity.
Qed.

End Operands.

(** ** Constant records, undefined opcodes, memory layouts *)

Section ConstantRecords.
Import Processor.

Variables R_StackPointer R_DataPointer R_ExtendedSegmentPointer : Z.

Local Abbreviation Target_new :=
  (Processor.Target_new R_StackPointer R_DataPointer R_ExtendedSegmentPointer).

(** C4, as amended.  A constant record in the instruction stream is accepted
    when the byte behind the prefix 02 is the width tag 64 hexadecimal: the
    operand decoded is a constant whose value is the little-endian reading of
    the eight bytes VAL.  With any other byte there, a sign byte 00 or 01
    included, [do_setup_constant_info] raises the illegal-instruction fault. *)
Theorem constant_record_decoding (this : Target) (CPU : processor) (tag : Z)
    (VAL rest : list Z) :
  length VAL = 8%nat ->
  instruction_stream CPU (0x02 :: tag :: VAL ++ rest) ->
  (tag = 0x64 ->
   exists target : Target,
     Target_new this CPU = Ok (target, advance CPU 10)
     /\ TargetType target = TypeConstant
     /\ ConstantValue target = le_value VAL)
  /\ (tag <> 0x64 -> Target_new this CPU = Throw IllegalInstruction).
Proof.
  intros Hlength Hstream.
  apply pop8_stream in Hstream as [Hprefix Hstream].
  apply (do_setup_constant_info_stream this) in Hstream as [Hsetup _]; [|done].
  unfold Processor.Target_new. rewrite Hprefix. cbn [mbind result_bind].
  rewrite do_decode_via_prefix_constant, Hsetup.
  split.
  - intros ->. change (100 =? 100) with true. cbn [mbind result_bind].
    rewrite advance_advance. eexists. split; [reflexivity|]. split; reflexivity.
  - intros Htag. apply Z.eqb_neq in Htag as ->. reflexivity.
Qed.

End ConstantRecords.

Lemma constant_record_decoding_witness :
  exists target : Processor.Target,
    sample_Target_new blank_target (machine [0x02; 0x64; 0x1F; 0; 0; 0; 0; 0; 0; 0])
    = Ok (target, advance (machine [0x02; 0x64; 0x1F; 0; 0; 0; 0; 0; 0; 0]) 10)
    /\ Processor.TargetType target = Processor.TypeConstant
    /\ Processor.ConstantValue target = le_value [0x1F; 0; 0; 0; 0; 0; 0; 0].
Proof.
  apply (constant_record_decoding
           sample_R_StackPointer sample_R_DataPointer sample_R_ExtendedSegmentPointer
           blank_target (machine [0x02; 0x64; 0x1F; 0; 0; 0; 0; 0; 0; 0]) 0x64
           [0x1F; 0; 0; 0; 0; 0; 0; 0] []).
  - reflexivity.
  - stream_of_machine.
  - reflexivity.
Defined.

(** C4 as the specification states it fails: the records 02 00 VAL and
    02 01 VAL, as the assembler emits them for 0x1F and for -32, raise the
    illegal-instruction fault. *)
Lemma constant_record_sign_counterexample :
  sample_Target_new blank_target (machine [0x02; 0x00; 0x1F; 0; 0; 0; 0; 0; 0; 0])
  = Throw IllegalInstruction
  /\ sample_Target_new blank_target
       (machine [0x02; 0x01; 0xE0; 0xFF; 0xFF; 0xFF; 0xFF; 0xFF; 0xFF; 0xFF])
     = Throw IllegalInstruction.
Proof. split; vm_compute; reflexivity. Qed.

Section Executor.
Import Processor.

Variables R_StackPointer R_DataPointer R_ExtendedSegmentPointer : Z.
Variable INT_ILLEGAL_INSTRUCTION : Z.
Variable blank : Target.

Local Abbreviation operation :=
  (Processor.operation R_StackPointer R_DataPointer R_ExtendedSegmentPointer
     INT_ILLEGAL_INSTRUCTION blank).
Local Abbreviation operation_calling :=
  (Processor.operation_calling R_StackPointer R_DataPointer R_ExtendedSegmentPointer
     INT_ILLEGAL_INSTRUCTION blank).

(** C7, as amended.  When the eight bytes at the instruction pointer spell
    an opcode other than 0 (NOP) and 1 (ADD), one step of [operation] does
    nothing but call [soft_interruption_ready] with the illegal-instruction
    number, on the state reached by fetching the opcode: whatever function
    [handler] stands there, the step is [handler] applied to that number and
    that state.  The body of [soft_interruption_ready] being empty, the step
    of the program ends in that very state: registers and memory are as
    before and the instruction pointer is eight bytes further (modulo 2^64),
    not at a vector entry. *)
Theorem undefined_opcode_step (handler : Z -> processor -> result processor)
    (timestamp : Z) (CPU : processor) :
  let opcode := le_value (get_memory CPU (InstructionPointer CPU) 8) in
  let fetched := with_InstructionPointer CPU (u64 (InstructionPointer CPU + 8)) in
  opcode <> 0x00 -> opcode <> 0x01 ->
  operation_calling handler timestamp CPU = handler INT_ILLEGAL_INSTRUCTION fetched
  /\ operation timestamp CPU = Ok fetched
  /\ Registers fetched = Registers CPU
  /\ Memory fetched = Memory CPU.
Proof.
  intros opcode fetched Hnop Hadd.
  assert (Hstep : forall h : Z -> processor -> result processor,
             operation_calling h timestamp CPU = h INT_ILLEGAL_INSTRUCTION fetched).
  { intros h. unfold Processor.operation_calling, pop. cbn [mbind result_bind].
    change (64 / 8)%nat with 8%nat. fold opcode. change (Z.of_nat 8) with 8. fold fetched.
    destruct opcode as [|[p|p|]|p]; try reflexivity; contradiction. }
  split; [apply Hstep|].
  unfold Processor.operation. rewrite Hstep. repeat split; reflexivity.
Qed.

End Executor.

Lemma undefined_opcode_step_witness :
  let CPU := machine [0x02; 0; 0; 0; 0; 0; 0; 0] in
  let fetched := Processor.with_InstructionPointer CPU (u64 (0 + 8)) in
  Processor.operation_calling
    sample_R_StackPointer sample_R_DataPointer sample_R_ExtendedSegmentPointer
    0 blank_target vector_jump 0 CPU
  = vector_jump 0 fetched
  /\ sample_operation 0 CPU = Ok fetched
  /\ Processor.Registers fetched = Processor.Registers CPU
  /\ Processor.Memory fetched = Processor.Memory CPU.
Proof.
  apply (undefined_opcode_step
           sample_R_StackPointer sample_R_DataPointer sample_R_ExtendedSegmentPointer
           0 blank_target vector_jump 0 (machine [0x02; 0; 0; 0; 0; 0; 0; 0])).
  - vm_compute. discriminate.
  - vm_compute. discriminate.
Defined.

(** C7 as the specification states it fails: after the step on the
    undefined opcode 2 the instruction pointer is 8, just behind the opcode,
    while the vector entry of interruption 0 is 0xA0000. *)
Lemma undefined_opcode_counterexample :
  (CPU ← sample_operation 0 (machine [0x02; 0; 0; 0; 0; 0; 0; 0]);
   Ok (Processor.InstructionPointer CPU)) = Ok 8
  /\ Processor.interruption_vector_address_table !! 0 = Some 0xA0000.
Proof. split; vm_compute; reflexivity. Qed.

Section MemoryLayouts.

Variable exec_command : string -> list string -> Assembler.cmd_status.

Lemma memory_pattern_exclusive (text ratio base offset1 offset2 : string) :
  Assembler.memory_pattern text = Some (ratio, base, offset1, offset2) ->
  Assembler.is_valid_register text = false /\ Assembler.constant_pattern text = None.
Proof.
  unfold Assembler.memory_pattern. intros H.
  apply first_match_Some in H as (r & _ & H).
  destruct (Assembler.strip_prefix _ text) as [rest|] eqn:Hprefix; [|discriminate].
  apply strip_prefix_Some in Hprefix. rewrite append_cons in Hprefix. subst text.
  split; reflexivity.
Qed.

Lemma parse_memory (T ratio base offset1 offset2 : string) :
  Assembler.memory_pattern (Assembler.capitalization (Assembler.remove_space T))
  = Some (ratio, base, offset1, offset2) ->
  Assembler.parse T =
  Ok {| Assembler.TargetType := Assembler.MEMORY; Assembler.RegisterName := "";
        Assembler.ConstantExpression := "";
        Assembler.memory :=
          {| Assembler.MemoryAccessRatio := ratio; Assembler.MemoryBaseAddress := base;
             Assembler.MemoryOffset1 := offset1; Assembler.MemoryOffset2 := offset2 |} |}.
Proof.
  intros Hmemory. unfold Assembler.parse.
  destruct (memory_pattern_exclusive _ _ _ _ _ Hmemory) as [-> Hconstant].
  unfold Assembler.is_valid_constant, Assembler.is_valid_memory.
  by rewrite Hconstant, Hmemory.
Qed.

(** The bytes [encode_memory] emits: the prefix, the ratio byte, the three
    sub-operands; no access width. *)
Lemma encode_memory_layout (ratio base offset1 offset2 : string) (bytes : list Z) :
  In ratio ["1"; "2"; "4"; "8"; "16"] ->
  Assembler.encode_memory exec_command []
    {| Assembler.TargetType := Assembler.MEMORY; Assembler.RegisterName := "";
       Assembler.ConstantExpression := "";
       Assembler.memory :=
         {| Assembler.MemoryAccessRatio := ratio; Assembler.MemoryBaseAddress := base;
            Assembler.MemoryOffset1 := offset1; Assembler.MemoryOffset2 := offset2 |} |}
  = Ok bytes ->
  exists (RATIO : Z) (P1 P2 P3 : list Z),
    ratio_byte ratio = Some RATIO
    /\ Assembler.encode_each_parameter exec_command [] base = Ok P1
    /\ Assembler.encode_each_parameter exec_command [] offset1 = Ok P2
    /\ Assembler.encode_each_parameter exec_command [] offset2 = Ok P3
    /\ bytes = 0x03 :: RATIO :: P1 ++ P2 ++ P3.
Proof.
  intros Hratio. unfold Assembler.encode_memory.
  cbn [Assembler.memory Assembler.MemoryAccessRatio Assembler.MemoryBaseAddress
       Assembler.MemoryOffset1 Assembler.MemoryOffset2].
  assert (exists RATIO, ratio_byte ratio = Some RATIO
            /\ (if String.eqb ratio "1" then Assembler.push8 (Assembler.push8 [] Assembler.MEMORY_PREFIX) 0x01
                else if String.eqb ratio "2" then Assembler.push8 (Assembler.push8 [] Assembler.MEMORY_PREFIX) 0x02
                else if String.eqb ratio "4" then Assembler.push8 (Assembler.push8 [] Assembler.MEMORY_PREFIX) 0x04
                else if String.eqb ratio "8" then Assembler.push8 (Assembler.push8 [] Assembler.MEMORY_PREFIX) 0x08
                else if String.eqb ratio "16" then Assembler.push8 (Assembler.push8 [] Assembler.MEMORY_PREFIX) 0x16
                else Assembler.push8 [] Assembler.MEMORY_PREFIX) = [0x03; RATIO])
    as (RATIO & HRATIO & ->).
  { cbn in Hratio.
    destruct Hratio as [<-|[<-|[<-|[<-|[<-|[]]]]]]; eexists; split; reflexivity. }
  rewrite (encode_each_parameter_app exec_command _ base).
  destruct (Assembler.encode_each_parameter exec_command [] base) as [P1|e]; [|discriminate].
  cbn [mbind result_bind].
  rewrite (encode_each_parameter_app exec_command _ offset1).
  destruct (Assembler.encode_each_parameter exec_command [] offset1) as [P2|e]; [|discriminate].
  cbn [mbind result_bind].
  rewrite (encode_each_parameter_app exec_command _ offset2).
  destruct (Assembler.encode_each_parameter exec_command [] offset2) as [P3|e]; [|discriminate].
  cbn [mbind result_bind]. intros [= <-].
  exists RATIO, P1, P2, P3. repeat split; try done.
  rewrite <- !app_assoc. reflexivity.
Qed.

(** The assembler's own decoder reads the layout the encoder writes: the
    ratio byte behind the prefix, then the three sub-operand records. *)
Lemma memory_decoded (ratio base offset1 offset2 : string) (bytes : list Z) :
  In ratio ["1"; "2"; "4"; "8"; "16"] ->
  Assembler.encode_memory exec_command []
    {| Assembler.TargetType := Assembler.MEMORY; Assembler.RegisterName := "";
       Assembler.ConstantExpression := "";
       Assembler.memory :=
         {| Assembler.MemoryAccessRatio := ratio; Assembler.MemoryBaseAddress := base;
            Assembler.MemoryOffset1 := offset1; Assembler.MemoryOffset2 := offset2 |} |}
  = Ok bytes ->
  exists (RATIO : Z) (P1 P2 P3 : list Z) (text1 text2 text3 : string),
    ratio_byte ratio = Some RATIO
    /\ Assembler.encode_each_parameter exec_command [] base = Ok P1
    /\ Assembler.encode_each_parameter exec_command [] offset1 = Ok P2
    /\ Assembler.encode_each_parameter exec_command [] offset2 = Ok P3
    /\ bytes = 0x03 :: RATIO :: P1 ++ P2 ++ P3
    /\ Assembler.decode_each_parameter [] P1 = Ok ([text1], [])
    /\ Assembler.decode_each_parameter [] P2 = Ok ([text2], [])
    /\ Assembler.decode_each_parameter [] P3 = Ok ([text3], [])
    /\ forall (output : list string) (rest : list Z),
         Assembler.decode output (bytes ++ rest)
         = Ok (output ++ ["*" +:+ ratio +:+ "("; text1; ", "; text2; ", "; text3; ")"], rest).
Proof.
  intros Hratio Hbytes.
  apply encode_memory_layout in Hbytes
    as (RATIO & P1 & P2 & P3 & HRATIO & HP1 & HP2 & HP3 & ->); [|done].
  destruct (memory_ratio_cases ratio Hratio) as (code & Hpush & Hdecode).
  assert (code = RATIO) as ->.
  { specialize (Hpush []). unfold ratio_byte in HRATIO. cbn [app] in Hpush.
    repeat (destruct (String.eqb ratio _);
            [injection HRATIO as <-; by injection Hpush as <-|]).
    done. }
  destruct (parameter_decoded exec_command base P1 HP1) as (text1 & Hdecode1 & _).
  destruct (parameter_decoded exec_command offset1 P2 HP2) as (text2 & Hdecode2 & _).
  destruct (parameter_decoded exec_command offset2 P3 HP3) as (text3 & Hdecode3 & _).
  exists RATIO, P1, P2, P3, text1, text2, text3.
  split; [done|]. split; [done|]. split; [done|]. split; [done|]. split; [done|].
  split; [by rewrite <- (app_nil_r P1), Hdecode1|].
  split; [by rewrite <- (app_nil_r P2), Hdecode2|].
  split; [by rewrite <- (app_nil_r P3), Hdecode3|].
  intros output rest.
  cbn [app]. rewrite decode_as_memory, Hdecode.
  rewrite <- !app_assoc, Hdecode1. cbn [mbind result_bind].
  rewrite Hdecode2. cbn [mbind result_bind].
  rewrite Hdecode3. cbn [mbind result_bind].
  by rewrite <- !app_assoc.
Qed.

Variables R_StackPointer R_DataPointer R_ExtendedSegmentPointer : Z.

(** C2, as amended.  The encoder serialises a memory operand as
    03 RATIO P1 P2 P3, the ratio in packed BCD behind the prefix and no
    access-width byte, and the assembler's own decoder reads this very
    layout: applied to these bytes it prints the ratio, then the texts it
    decodes from the three sub-operand records, in this order.  The
    instruction-stream decoder reads another layout, 03 WIDTH P1 P2 P3 RATIO:
    the access-width tag is the first byte behind the prefix and the ratio
    the last byte of the record; for the ratio bytes 01, 02, 04 and 08 the
    address is the sum of the three sub-operand values times the ratio,
    modulo 2^64. *)
Theorem memory_operand_layouts
    (T ratio base offset1 offset2 : string) (bytes : list Z)
    (this : Processor.Target) (CPU : Processor.processor) (WIDTH RATIO : Z)
    (P1 P2 P3 : parameter_record) (rest : list Z) (vb v1 v2 : Z) :
  Assembler.memory_pattern (Assembler.capitalization (Assembler.remove_space T))
    = Some (ratio, base, offset1, offset2) ->
  Assembler.encode_target exec_command [] T = Ok bytes ->
  well_formed_record P1 -> well_formed_record P2 -> well_formed_record P3 ->
  instruction_stream CPU
    (0x03 :: WIDTH :: record_bytes P1 ++ record_bytes P2 ++ record_bytes P3 ++ RATIO :: rest) ->
  record_value R_StackPointer R_DataPointer R_ExtendedSegmentPointer P1 CPU = Ok vb ->
  record_value R_StackPointer R_DataPointer R_ExtendedSegmentPointer P2 CPU = Ok v1 ->
  record_value R_StackPointer R_DataPointer R_ExtendedSegmentPointer P3 CPU = Ok v2 ->
  (exists (ratio_code : Z) (B1 B2 B3 : list Z) (text1 text2 text3 : string),
     ratio_byte ratio = Some ratio_code
     /\ Assembler.encode_each_parameter exec_command [] base = Ok B1
     /\ Assembler.encode_each_parameter exec_command [] offset1 = Ok B2
     /\ Assembler.encode_each_parameter exec_command [] offset2 = Ok B3
     /\ bytes = 0x03 :: ratio_code :: B1 ++ B2 ++ B3
     /\ Assembler.decode_each_parameter [] B1 = Ok ([text1], [])
     /\ Assembler.decode_each_parameter [] B2 = Ok ([text2], [])
     /\ Assembler.decode_each_parameter [] B3 = Ok ([text3], [])
     /\ Assembler.disassemble bytes
        = Ok ("*" +:+ ratio +:+ "(" +:+ text1 +:+ ", " +:+ text2 +:+ ", " +:+ text3 +:+ ")"))
  /\ (exists (target : Processor.Target) (CPU' : Processor.processor),
        Processor.Target_new R_StackPointer R_DataPointer R_ExtendedSegmentPointer this CPU
        = Ok (target, CPU')
        /\ Processor.TargetType target = Processor.TypeMemory
        /\ Processor.TargetWidth target = WIDTH
        /\ (RATIO = 0x01 \/ RATIO = 0x02 \/ RATIO = 0x04 \/ RATIO = 0x08 ->
            Processor.MemoryAddress target = ((vb + v1 + v2) * RATIO) mod 2 ^ 64)
        /\ instruction_stream CPU' rest).
Proof.
  intros Hmemory Hassembled Hwf1 Hwf2 Hwf3 Hstream Hvb Hv1 Hv2. split.
  - unfold Assembler.encode_target in Hassembled.
    rewrite (parse_memory _ _ _ _ _ Hmemory) in Hassembled.
    cbn [mbind result_bind Assembler.TargetType] in Hassembled.
    apply memory_decoded in Hassembled
      as (ratio_code & B1 & B2 & B3 & text1 & text2 & text3
          & ? & ? & ? & ? & -> & ? & ? & ? & Hdecode);
      [|by apply memory_pattern_ratio in Hmemory].
    exists ratio_code, B1, B2, B3, text1, text2, text3.
    split; [done|]. split; [done|]. split; [done|]. split; [done|]. split; [done|].
    split; [done|]. split; [done|]. split; [done|].
    unfold Assembler.disassemble.
    rewrite <- (app_nil_r (3 :: ratio_code :: B1 ++ B2 ++ B3)), Hdecode.
    cbn [mbind result_bind app Assembler.printed fold_right].
    by rewrite append_empty_r, !append_assoc.
  - destruct (memory_record_decoded R_StackPointer R_DataPointer R_ExtendedSegmentPointer
                this CPU WIDTH RATIO P1 P2 P3 rest vb v1 v2)
      as (target & CPU' & ? & ? & ? & ? & ? & _); try done.
    exists target, CPU'.
    split; [done|]. split; [done|]. split; [done|]. split; done.
Qed.

End MemoryLayouts.

Lemma memory_operand_layouts_witness :
  (exists (ratio_code : Z) (B1 B2 B3 : list Z) (text1 text2 text3 : string),
     ratio_byte "2" = Some ratio_code
     /\ Assembler.encode_each_parameter (bc_prints "4") [] "%FER0" = Ok B1
     /\ Assembler.encode_each_parameter (bc_prints "4") [] "%FER1" = Ok B2
     /\ Assembler.encode_each_parameter (bc_prints "4") [] "$(4)" = Ok B3
     /\ [3; 2; 1; 0x64; 0; 1; 0x64; 1; 2; 0; 4; 0; 0; 0; 0; 0; 0; 0]
        = 0x03 :: ratio_code :: B1 ++ B2 ++ B3
     /\ Assembler.decode_each_parameter [] B1 = Ok ([text1], [])
     /\ Assembler.decode_each_parameter [] B2 = Ok ([text2], [])
     /\ Assembler.decode_each_parameter [] B3 = Ok ([text3], [])
     /\ Assembler.disassemble [3; 2; 1; 0x64; 0; 1; 0x64; 1; 2; 0; 4; 0; 0; 0; 0; 0; 0; 0]
        = Ok ("*" +:+ "2" +:+ "(" +:+ text1 +:+ ", " +:+ text2 +:+ ", " +:+ text3 +:+ ")"))
  /\ (exists (target : Processor.Target) (CPU' : Processor.processor),
        sample_Target_new blank_target
          (machine [3; 0x64; 1; 0x64; 0; 1; 0x64; 1; 2; 0x64; 4; 0; 0; 0; 0; 0; 0; 0; 2])
        = Ok (target, CPU')
        /\ Processor.TargetType target = Processor.TypeMemory
        /\ Processor.TargetWidth target = 0x64
        /\ (2 = 0x01 \/ 2 = 0x02 \/ 2 = 0x04 \/ 2 = 0x08 ->
            Processor.MemoryAddress target = ((0 + 0 + 4) * 2) mod 2 ^ 64)
        /\ instruction_stream CPU' []).
Proof.
  apply (memory_operand_layouts (bc_prints "4")
           sample_R_StackPointer sample_R_DataPointer sample_R_ExtendedSegmentPointer
           "*2(%fer0, %fer1, $(4))" "2" "%FER0" "%FER1" "$(4)"
           [3; 2; 1; 0x64; 0; 1; 0x64; 1; 2; 0; 4; 0; 0; 0; 0; 0; 0; 0]
           blank_target
           (machine [3; 0x64; 1; 0x64; 0; 1; 0x64; 1; 2; 0x64; 4; 0; 0; 0; 0; 0; 0; 0; 2])
           0x64 2
           (RegisterRecord 0x64 0) (RegisterRecord 0x64 1)
           (ConstantRecord [4; 0; 0; 0; 0; 0; 0; 0]) [] 0 0 4).
  - reflexivity.
  - reflexivity.
  - exact I.
  - exact I.
  - reflexivity.
  - stream_of_machine.
  - reflexivity.
  - reflexivity.
  - reflexivity.
Defined.

(** C2 as the specification states it fails: in the bytes the encoder
    emits, the byte behind the prefix 03 is the ratio, and no access width is
    emitted; the instruction-stream decoder, run on these very bytes, takes
    the ratio byte 02 for the access width and the byte behind the third
    sub-operand (here 0, the memory being blank there) for the ratio. *)
Lemma memory_layout_counterexample :
  Assembler.encode_target (bc_prints "") [] "*2(%FER0,%FER1,%FER2)"
  = Ok [0x03; 0x02; 0x01; 0x64; 0; 0x01; 0x64; 1; 0x01; 0x64; 2]
  /\ ('(target, _) ← sample_Target_new blank_target
                       (machine [0x03; 0x02; 0x01; 0x64; 0; 0x01; 0x64; 1; 0x01; 0x64; 2]);
      Ok (Processor.TargetWidth target, Processor.literal target))
     = Ok (0x02, "<*0(%FER0, %FER1, %FER2)>").
Proof. split; vm_compute; reflexivity. Qed.

(** C3: the ratio 16 travels as the packed-BCD byte 16 hexadecimal, and
    [do_setup_memory_info] multiplies by that byte as it stands: with the sub-operand
    values 1, 0 and 0 the address is 22, not 16. *)
Lemma ratio_sixteen_address :
  ('(target, _) ← sample_Target_new blank_target
                    (machine ([0x03; 0x64]
                              ++ [0x02; 0x64; 1; 0; 0; 0; 0; 0; 0; 0]
                              ++ [0x02; 0x64; 0; 0; 0; 0; 0; 0; 0; 0]
                              ++ [0x02; 0x64; 0; 0; 0; 0; 0; 0; 0; 0]
                              ++ [0x16]));
   Ok (Processor.MemoryAddress target)) = Ok 22
  /\ Assembler.encode_target (bc_prints "") [] "*16(%FER0,%FER1,%FER2)"
     = Ok [0x03; 0x16; 0x01; 0x64; 0; 0x01; 0x64; 1; 0x01; 0x64; 2]
  /\ Assembler.disassemble [0x03; 0x16; 0x01; 0x64; 0; 0x01; 0x64; 1; 0x01; 0x64; 2]
     = Ok "*16(%FER0, %FER1, %FER2)".
Proof. repeat split; vm_compute; reflexivity. Qed.

Section FullyExtendedRegisters.
Import Processor.

Variable exec_command : string -> list string -> Assembler.cmd_status.
Variables R_StackPointer R_DataPointer R_ExtendedSegmentPointer : Z.

Local Abbreviation get_target_content_in_u64bit_t :=
  (Processor.get_target_content_in_u64bit_t
     R_StackPointer R_DataPointer R_ExtendedSegmentPointer).
Local Abbreviation set_target_content_in_u64bit_t :=
  (Processor.set_target_content_in_u64bit_t
     R_StackPointer R_DataPointer R_ExtendedSegmentPointer).

(** C5, as amended.  The register operand of width tag 64 hexadecimal and
    index [n] can be written for every [n] from 0 to 15; for [n] from 0 to 7
    it can also be read, and the text %FERn is accepted by the parser and
    assembles to the register record 01 64 n. *)
Theorem fully_extended_registers (n x : Z) (CPU : processor) :
  0 <= n <= 15 ->
  (exists CPU' : processor,
     set_target_content_in_u64bit_t (register_operand 0x64 n) x CPU = Ok CPU')
  /\ (n <= 7 ->
      Assembler.encode_target exec_command [] ("%FER" +:+ to_string n) = Ok [0x01; 0x64; n]
      /\ exists value : Z,
           get_target_content_in_u64bit_t (register_operand 0x64 n) CPU = Ok value).
Proof.
  intros Hn.
  assert (Hcases : In n (seqZ 0 16)) by (apply list_elem_of_In, elem_of_seqZ; lia).
  vm_compute in Hcases.
  repeat (destruct Hcases as [<- | Hcases]); try destruct Hcases;
    (split; [eexists; reflexivity|]); intros H7; try lia;
    (split; [reflexivity | eexists; reflexivity]).
Qed.

End FullyExtendedRegisters.

Lemma fully_extended_registers_witness :
  (exists CPU' : Processor.processor, sample_set (register_operand 0x64 3) 7 (machine []) = Ok CPU')
  /\ (3 <= 7 ->
      Assembler.encode_target (bc_prints "") [] ("%FER" +:+ to_string 3) = Ok [0x01; 0x64; 3]
      /\ exists value : Z, sample_get (register_operand 0x64 3) (machine []) = Ok value).
Proof.
  apply (fully_extended_registers (bc_prints "")
           sample_R_StackPointer sample_R_DataPointer sample_R_ExtendedSegmentPointer
           3 7 (machine [])).
  lia.
Defined.

(** C5 as the specification states it fails at index 14: the text %FER14
    is rejected by the parser, and the register operand of width tag 64
    hexadecimal and index 14 can be written but not read; so it is for every
    index from 8 to 15. *)
Lemma fully_extended_register_14 :
  Assembler.encode_target (bc_prints "") [] "%FER14" = Throw (TargetExpressionError "%FER14")
  /\ sample_get (register_operand 0x64 14) (machine []) = Throw IllegalInstruction
  /\ (CPU ← sample_set (register_operand 0x64 14) 7 (machine []);
      Ok (Processor.Registers CPU Processor.FullyExtendedRegister14)) = Ok 7
  /\ Forall (fun n =>
               Assembler.parse ("%FER" +:+ to_string n)
               = Throw (TargetExpressionError ("%FER" +:+ to_string n))
               /\ sample_get (register_operand 0x64 n) (machine []) = Throw IllegalInstruction)
            [8; 9; 10; 11; 12; 13; 14; 15].
Proof.
  split; [vm_compute; reflexivity|].
  split; [vm_compute; reflexivity|].
  split; [vm_compute; reflexivity|].
  repeat constructor; vm_compute; reflexivity.
Qed.

(** C6: a read of a memory operand of access width 8 returns eight bytes. *)
Lemma memory_read_ignores_width :
  sample_get (memory_operand 0x08 0) (machine [0x34; 0x12; 0; 0; 0; 0; 0; 0]) = Ok 0x1234
  /\ (CPU ← sample_set (memory_operand 0x08 0) 0xABCD
              (machine [0x34; 0x12; 0; 0; 0; 0; 0; 0]);
      Ok (Processor.get_memory CPU 0 2)) = Ok [0xCD; 0x12].
Proof. split; vm_compute; reflexivity. Qed.

(** C8: FER8 is written, and reading it back raises the illegal-instruction
    fault; FER7 reads back. *)
Lemma write_then_read_FER8 :
  (CPU ← sample_set (register_operand 0x64 8) 0xDEADBEEF (machine []);
   sample_get (register_operand 0x64 8) CPU) = Throw IllegalInstruction
  /\ (CPU ← sample_set (register_operand 0x64 8) 0xDEADBEEF (machine []);
      Ok (Processor.Registers CPU Processor.FullyExtendedRegister8)) = Ok 0xDEADBEEF
  /\ (CPU ← sample_set (register_operand 0x64 7) 0xDEADBEEF (machine []);
      sample_get (register_operand 0x64 7) CPU) = Ok 0xDEADBEEF.
Proof. repeat split; vm_compute; reflexivity. Qed.

(** ** Register access *)

Section Registers.
Import Processor.

Variables R_StackPointer R_DataPointer R_ExtendedSegmentPointer : Z.

Local Abbreviation do_get_register :=
  (Processor.do_get_register R_StackPointer R_DataPointer R_ExtendedSegmentPointer).
Local Abbreviation do_set_register :=
  (Processor.do_set_register R_StackPointer R_DataPointer R_ExtendedSegmentPointer).

Lemma assign_same (Registers : RegisterFile) (r : RegisterName) (value : Z) :
  assign Registers r value r = value.
Proof. unfold assign. by rewrite decide_True. Qed.

Lemma assign_other (Registers : RegisterFile) (r r' : RegisterName) (value : Z) :
  r' <> r -> assign Registers r value r' = Registers r'.
Proof. intros. unfold assign. by rewrite decide_False. Qed.

(** Width narrowing: a register that [do_set_register] writes reads back as
    the value modulo 2 to the power of its width, except FER8 to FER15, which
    [do_get_register] does not serve. *)
Theorem register_write_then_read (this : Target) (x : Z) (CPU CPU' : processor) :
  0 <= x < 2 ^ 64 ->
  do_set_register this x CPU = Ok CPU' ->
  ~ (TargetWidth this = 0x64 /\ 8 <= RegisterIndex this <= 15) ->
  do_get_register this CPU' = Ok (x mod 2 ^ width_bits (TargetWidth this)).
Proof.
  intros Hx Hset Hhigh.
  destruct this as [type width index constant address text].
  unfold Processor.do_set_register, Processor.do_get_register in *.
  cbn [TargetWidth RegisterIndex] in *.
  assert (H64 : x mod 2 ^ 64 = x) by (by apply Z.mod_small).
  destruct width as [|w|w]; try discriminate;
    repeat destruct_scrutinee; try discriminate;
    (destruct index as [|i|i]; repeat destruct_scrutinee; try discriminate;
     try (exfalso; apply Hhigh; split; [reflexivity|lia]);
     repeat match goal with
            | H : context [if ?b then _ else _] |- _ => destruct b
            end;
     try discriminate;
     injection Hset as <-;
     cbn [Registers with_Registers width_bits]; rewrite assign_same;
     first [reflexivity | by rewrite H64]).
Qed.

(** FER8 to FER15: [do_set_register] writes them, [do_get_register] raises
    the illegal-instruction fault, whatever indices outside 8..15 the named
    registers have. *)
Lemma fully_extended_high_registers (n x : Z) (CPU : processor) :
  8 <= n <= 15 ->
  ~ 8 <= R_StackPointer <= 15 ->
  ~ 8 <= R_DataPointer <= 15 ->
  ~ 8 <= R_ExtendedSegmentPointer <= 15 ->
  do_get_register (register_operand 0x64 n) CPU = Throw IllegalInstruction
  /\ exists CPU' : processor, do_set_register (register_operand 0x64 n) x CPU = Ok CPU'.
Proof.
  intros Hn Hsp Hdp Hesp.
  assert (Hcases : In n (seqZ 8 8)) by (apply list_elem_of_In, elem_of_seqZ; lia).
  vm_compute in Hcases.
  unfold Processor.do_get_register, Processor.do_set_register.
  cbn [TargetWidth RegisterIndex register_operand].
  repeat (destruct Hcases as [<- | Hcases]); try destruct Hcases;
    (split; [|eexists; reflexivity]);
    repeat match goal with
           | |- context [?a =? ?b] => destruct (Z.eqb_spec a b); [lia|]
           end;
    reflexivity.
Qed.

End Registers.

Lemma fully_extended_high_registers_witness :
  Processor.do_get_register
    sample_R_StackPointer sample_R_DataPointer sample_R_ExtendedSegmentPointer
    (register_operand 0x64 14) (machine []) = Throw IllegalInstruction
  /\ exists CPU' : Processor.processor,
       Processor.do_set_register
         sample_R_StackPointer sample_R_DataPointer sample_R_ExtendedSegmentPointer
         (register_operand 0x64 14) 7 (machine []) = Ok CPU'.
Proof.
  apply (fully_extended_high_registers
           sample_R_StackPointer sample_R_DataPointer sample_R_ExtendedSegmentPointer
           14 7 (machine [])); unfold sample_R_StackPointer, sample_R_DataPointer,
                                   sample_R_ExtendedSegmentPointer; lia.
Defined.

Lemma register_write_then_read_witness :
  Processor.do_get_register
    sample_R_StackPointer sample_R_DataPointer sample_R_ExtendedSegmentPointer
    (register_operand 0x16 0)
    (Processor.with_Registers (machine [])
       (Processor.assign (Processor.Registers (machine []))
                         Processor.ExtendedRegister0 (u16 0xFFFFFFFFFFFFFFE0)))
  = Ok (0xFFFFFFFFFFFFFFE0 mod 2 ^ width_bits 0x16).
Proof.
  apply (register_write_then_read
           sample_R_StackPointer sample_R_DataPointer sample_R_ExtendedSegmentPointer
           (register_operand 0x16 0) 0xFFFFFFFFFFFFFFE0 (machine [])).
  - lia.
  - reflexivity.
  - intros [Hwidth _]. discriminate Hwidth.
Defined.

(** ** Memory access *)

Section MemoryAccess.
Import Processor.

Variables R_StackPointer R_DataPointer R_ExtendedSegmentPointer : Z.

Local Abbreviation get_target_content_in_u64bit_t :=
  (Processor.get_target_content_in_u64bit_t
     R_StackPointer R_DataPointer R_ExtendedSegmentPointer).
Local Abbreviation set_target_content_in_u64bit_t :=
  (Processor.set_target_content_in_u64bit_t
     R_StackPointer R_DataPointer R_ExtendedSegmentPointer).
Local Abbreviation do_setup_memory_info :=
  (Processor.do_setup_memory_info R_StackPointer R_DataPointer R_ExtendedSegmentPointer).
Local Abbreviation do_decode_via_prefix :=
  (Processor.do_decode_via_prefix R_StackPointer R_DataPointer R_ExtendedSegmentPointer).
Local Abbreviation block :=
  (parameter_block R_StackPointer R_DataPointer R_ExtendedSegmentPointer).

Lemma store_bytes_outside (Memory : gmap Z Z) (address : Z) (bytes : list Z) (a : Z) :
  a < address \/ address + Z.of_nat (length bytes) <= a ->
  memory_byte (store_bytes Memory address bytes) a = memory_byte Memory a.
Proof.
  revert Memory address. induction bytes as [|byte bytes IH]; intros Memory address Ha.
  - reflexivity.
  - cbn [store_bytes length] in *. rewrite IH by lia.
    unfold memory_byte. rewrite lookup_insert_ne by lia. reflexivity.
Qed.

Lemma read_store_bytes (Memory : gmap Z Z) (address : Z) (bytes : list Z) :
  read_bytes (store_bytes Memory address bytes) address (length bytes) = bytes.
Proof.
  revert Memory address. induction bytes as [|byte bytes IH]; intros Memory address.
  - reflexivity.
  - cbn [store_bytes length read_bytes]. rewrite IH. f_equal.
    rewrite store_bytes_outside by lia.
    unfold memory_byte. by rewrite lookup_insert_eq.
Qed.

(** The number of bytes [set_target_content_in_u64bit_t] writes for a width
    tag. *)
Lemma actual_width_bits (tag : Z) :
  tag = 0x08 \/ tag = 0x16 \/ tag = 0x32 \/ tag = 0x64 ->
  exists actual_width : nat,
    Z.of_nat actual_width * 8 = width_bits tag
    /\ forall (address val : Z) (CPU : processor),
         set_target_content_in_u64bit_t (memory_operand tag address) val CPU
         = Ok (write_memory CPU address (le_bytes actual_width val)).
Proof.
  intros [-> | [-> | [-> | ->]]]; eexists; (split; [|reflexivity]); reflexivity.
Qed.

(** Writing a memory operand of access width [w] stores the [w / 8] low
    bytes of the value at the operand's address and leaves every other byte
    of the memory, and the registers, as they were. *)
Theorem memory_write_low_bytes (tag address val : Z) (CPU : processor) :
  tag = 0x08 \/ tag = 0x16 \/ tag = 0x32 \/ tag = 0x64 ->
  exists (CPU' : processor) (count : nat),
    set_target_content_in_u64bit_t (memory_operand tag address) val CPU = Ok CPU'
    /\ Z.of_nat count * 8 = width_bits tag
    /\ get_memory CPU' address count = le_bytes count val
    /\ (forall a : Z, a < address \/ address + Z.of_nat count <= a ->
                      memory_byte (Memory CPU') a = memory_byte (Memory CPU) a)
    /\ Registers CPU' = Registers CPU
    /\ InstructionPointer CPU' = InstructionPointer CPU.
Proof.
  intros Htag. destruct (actual_width_bits tag Htag) as (count & Hcount & Hset).
  exists (write_memory CPU address (le_bytes count val)), count.
  split; [apply Hset|]. split; [done|]. split.
  - unfold get_memory, write_memory. cbn [Memory with_Memory].
    rewrite <- (length_le_bytes count val) at 2. apply read_store_bytes.
  - split; [|split; reflexivity].
    intros a Ha. unfold write_memory. cbn [Memory with_Memory].
    apply store_bytes_outside. by rewrite length_le_bytes.
Qed.

(** Reading a memory operand returns the eight bytes at its address,
    whatever its access width. *)
Lemma memory_read_eight_bytes (tag address : Z) (CPU : processor) :
  get_target_content_in_u64bit_t (memory_operand tag address) CPU
  = Ok (le_value (get_memory CPU address 8)).
Proof. reflexivity. Qed.

(** *** The nesting bound of [do_decode_via_prefix] *)

Lemma block_ext {A : Type}
    (decode decode' : Z -> Target -> processor -> result (Target * processor))
    (continue continue' : Z -> Target -> processor -> result A)
    (this : Target) (CPU : processor) :
  (forall this CPU, decode 0x01 this CPU = decode' 0x01 this CPU) ->
  (forall this CPU, decode 0x02 this CPU = decode' 0x02 this CPU) ->
  (forall value this CPU, continue value this CPU = continue' value this CPU) ->
  block decode this CPU continue = block decode' this CPU continue'.
Proof.
  intros Hregister Hconstant Hcontinue. unfold parameter_block.
  destruct (pop 8 CPU) as [[Prefix CPU1]|e]; [|reflexivity]. cbn [mbind result_bind].
  destruct (decide (Prefix = 0x01)) as [->|Hne1].
  { cbn [mbind result_bind illegal_instruction_assert]. 
    change (illegal_instruction_assert _) with (Ok tt). cbn [mbind result_bind].
    rewrite Hregister.
    destruct (decode' 1 this CPU1) as [[this1 CPU2]|e]; [|reflexivity].
    cbn [mbind result_bind].
    destruct (get_target_content_in_u64bit_t this1 CPU2); [|reflexivity].
    cbn [mbind result_bind]. apply Hcontinue. }
  destruct (decide (Prefix = 0x02)) as [->|Hne2].
  { change (illegal_instruction_assert _) with (Ok tt). cbn [mbind result_bind].
    rewrite Hconstant.
    destruct (decode' 2 this CPU1) as [[this1 CPU2]|e]; [|reflexivity].
    cbn [mbind result_bind].
    destruct (get_target_content_in_u64bit_t this1 CPU2); [|reflexivity].
    cbn [mbind result_bind]. apply Hcontinue. }
  unfold REGISTER_PREFIX, CONSTANT_PREFIX.
  apply Z.eqb_neq in Hne1 as ->. apply Z.eqb_neq in Hne2 as ->.
  reflexivity.
Qed.

(** One level of nesting is all [do_decode_via_prefix] ever enters. *)
Lemma do_decode_via_prefix_nesting (nesting : nat) (prefix : Z) (this : Target)
    (CPU : processor) :
  do_decode_via_prefix (S nesting) prefix this CPU = do_decode_via_prefix 1 prefix this CPU.
Proof.
  destruct prefix as [|[[]|[]|]|]; try reflexivity.
  change (do_setup_memory_info (do_decode_via_prefix nesting) this CPU
          = do_setup_memory_info (do_decode_via_prefix 0) this CPU).
  rewrite !do_setup_memory_info_blocks.
  destruct (pop 8 CPU) as [[width CPU1]|e]; [|reflexivity]. cbn [mbind result_bind].
  repeat (apply block_ext;
          [intros; by rewrite !do_decode_via_prefix_register
          |intros; by rewrite !do_decode_via_prefix_constant
          |intros; cbv zeta]).
  reflexivity.
Qed.

End MemoryAccess.

Lemma memory_write_low_bytes_witness :
  exists (CPU' : Processor.processor) (count : nat),
    sample_set (memory_operand 0x16 4) 0xABCDEF (machine [1; 2; 3; 4; 5; 6; 7; 8]) = Ok CPU'
    /\ Z.of_nat count * 8 = width_bits 0x16
    /\ Processor.get_memory CPU' 4 count = le_bytes count 0xABCDEF
    /\ (forall a : Z, a < 4 \/ 4 + Z.of_nat count <= a ->
          Processor.memory_byte (Processor.Memory CPU') a
          = Processor.memory_byte (Processor.Memory (machine [1; 2; 3; 4; 5; 6; 7; 8])) a)
    /\ Processor.Registers CPU' = Processor.Registers (machine [1; 2; 3; 4; 5; 6; 7; 8])
    /\ Processor.InstructionPointer CPU'
       = Processor.InstructionPointer (machine [1; 2; 3; 4; 5; 6; 7; 8]).
Proof.
  apply (memory_write_low_bytes
           sample_R_StackPointer sample_R_DataPointer sample_R_ExtendedSegmentPointer
           0x16 4 0xABCDEF (machine [1; 2; 3; 4; 5; 6; 7; 8])).
  right. left. reflexivity.
Defined.

(** ** Operand text: blanks and letter case *)

Section Normalisation.
Import Assembler.
Variable exec_command : string -> list string -> cmd_status.

(** [std::toupper] maps no character to a lower-case letter or to a blank. *)
Lemma toupper_idempotent (c : ascii) : toupper (toupper c) = toupper c.
Proof. destruct c as [[] [] [] [] [] [] [] []]; reflexivity. Qed.

Lemma toupper_space (c : ascii) : Ascii.eqb (toupper c) " " = Ascii.eqb c " ".
Proof. destruct c as [[] [] [] [] [] [] [] []]; reflexivity. Qed.

Lemma capitalization_idempotent (s : string) :
  capitalization (capitalization s) = capitalization s.
Proof.
  unfold capitalization. induction s as [|c s IH]; cbn [string_map]; [done|].
  by rewrite toupper_idempotent, IH.
Qed.

Lemma remove_space_idempotent (s : string) : remove_space (remove_space s) = remove_space s.
Proof.
  induction s as [|c s IH]; cbn [remove_space]; [done|].
  destruct (Ascii.eqb c " ") eqn:Hc; [done|].
  cbn [remove_space]. by rewrite Hc, IH.
Qed.

Lemma remove_space_capitalization (s : string) :
  remove_space (capitalization s) = capitalization (remove_space s).
Proof.
  unfold capitalization. induction s as [|c s IH]; cbn [remove_space string_map]; [done|].
  rewrite toupper_space. destruct (Ascii.eqb c " "); [done|].
  cbn [string_map]. by rewrite IH.
Qed.

(** [parse] never returns the value-initialised record: the last branch of
    [encode_target] is not reached. *)
Lemma parse_valid_type (T : string) (parsed : parsed_target_t) :
  parse T = Ok parsed -> TargetType parsed <> NOTaValidType.
Proof.
  unfold parse, is_valid_memory.
  destruct (is_valid_register _); [intros [= <-]; done|].
  destruct (is_valid_constant _); [intros [= <-]; done|].
  destruct (memory_pattern _) as [[[[ratio base] offset1] offset2]|]; [|done].
  intros [= <-]; done.
Qed.

(** Blanks and letter case do not matter in an operand text: stripping the
    blanks of [T], or putting [T] in upper case, changes neither what [parse]
    returns (the error message included) nor what [encode_target] appends or
    throws. *)
Theorem operand_text_normalised (buffer : list Z) (T : string) :
  (parse (remove_space T) = parse T /\ parse (capitalization T) = parse T)
  /\ encode_target exec_command buffer (remove_space T) = encode_target exec_command buffer T
  /\ encode_target exec_command buffer (capitalization T) = encode_target exec_command buffer T.
Proof.
  assert (Hspace : parse (remove_space T) = parse T).
  { unfold parse. by rewrite remove_space_idempotent. }
  assert (Hcase : parse (capitalization T) = parse T).
  { unfold parse. by rewrite remove_space_capitalization, capitalization_idempotent. }
  split; [done|].
  unfold encode_target. rewrite Hspace, Hcase.
  destruct (parse T) as [parsed|e] eqn:Hparse; [|done].
  apply parse_valid_type in Hparse. cbn [mbind result_bind].
  by destruct (TargetType parsed).
Qed.

End Normalisation.

(** ** The encoder and its buffer *)

Section Buffers.
Import Assembler.
Variable exec_command : string -> list string -> cmd_status.

Lemma encode_memory_app (buffer : list Z) (input : parsed_target_t) :
  encode_memory exec_command buffer input =
  bytes ← encode_memory exec_command [] input; Ok (buffer ++ bytes).
Proof.
  unfold encode_memory.
  set (ratio := MemoryAccessRatio (memory input)).
  assert (Hratio : exists code : list Z, forall buffer : list Z,
    (if String.eqb ratio "1" then push8 buffer 0x01
     else if String.eqb ratio "2" then push8 buffer 0x02
     else if String.eqb ratio "4" then push8 buffer 0x04
     else if String.eqb ratio "8" then push8 buffer 0x08
     else if String.eqb ratio "16" then push8 buffer 0x16
     else buffer) = buffer ++ code).
  { repeat (destruct (String.eqb ratio _); [by eexists|]).
    exists []. intros b. by rewrite app_nil_r. }
  destruct Hratio as (code & Hcode). rewrite !Hcode.
  unfold push8, push. cbn [Nat.div Nat.divmod fst le_bytes].
  rewrite (encode_each_parameter_app exec_command ((buffer ++ _) ++ code)).
  rewrite (encode_each_parameter_app exec_command (([] ++ _) ++ code)).
  destruct (encode_each_parameter exec_command [] (MemoryBaseAddress _)) as [P1|e];
    cbn [mbind result_bind]; [|done].
  rewrite (encode_each_parameter_app exec_command (((buffer ++ _) ++ code) ++ P1)).
  rewrite (encode_each_parameter_app exec_command ((([] ++ _) ++ code) ++ P1)).
  destruct (encode_each_parameter exec_command [] (MemoryOffset1 _)) as [P2|e];
    cbn [mbind result_bind]; [|done].
  rewrite (encode_each_parameter_app exec_command ((((buffer ++ _) ++ code) ++ P1) ++ P2)).
  rewrite (encode_each_parameter_app exec_command (((([] ++ _) ++ code) ++ P1) ++ P2)).
  destruct (encode_each_parameter exec_command [] (MemoryOffset2 _)) as [P3|e];
    cbn [mbind result_bind]; [|done].
  by rewrite <- !app_assoc.
Qed.

(** [encode_target] only appends: the bytes already in the buffer stay
    where they are, and what is appended (or thrown) does not depend on them;
    so the encodings of successive operands follow each other in the buffer. *)
Theorem encode_target_appends (buffer : list Z) (T : string) :
  encode_target exec_command buffer T =
  bytes ← encode_target exec_command [] T; Ok (buffer ++ bytes).
Proof.
  unfold encode_target.
  destruct (parse T) as [parsed|e]; cbn [mbind result_bind]; [|done].
  destruct (TargetType parsed).
  - done.
  - apply encode_register_app.
  - apply encode_constant_app.
  - apply encode_memory_app.
Qed.

End Buffers.

(** ** The size of an encoded operand *)

Section Sizes.
Import Assembler.
Variable exec_command : string -> list string -> cmd_status.

Lemma register_record_bytes (name : string) :
  In name register_pattern ->
  exists width index : Z,
    encode_register [] (register_target name) = Ok [0x01; width; index]
    /\ In width [0x08; 0x16; 0x32; 0x64] /\ 0 <= index <= 7.
Proof.
  intros Hin. vm_compute in Hin.
  repeat (destruct Hin as [<-|Hin];
          [do 2 eexists; split; [vm_compute; reflexivity | split; [cbn; tauto | lia]]|]).
  contradiction.
Qed.

Lemma constant_record_bytes (text : string) (bytes : list Z) :
  is_valid_constant text = true ->
  encode_constant exec_command [] (constant_target text) = Ok bytes ->
  exists (sign : Z) (VAL : list Z),
    bytes = 0x02 :: sign :: VAL /\ (sign = 0x00 \/ sign = 0x01)
    /\ length VAL = 8%nat /\ Forall is_byte VAL.
Proof.
  unfold is_valid_constant.
  destruct (constant_pattern text) as [expression|] eqn:Hconstant; [intros _|done].
  rewrite (encode_constant_stored _ _ _ Hconstant).
  destruct (stored_constant exec_command expression) as [value|e]; [|done].
  cbn [mbind result_bind]. intros [= <-].
  exists (if value <? 0 then 0x01 else 0x00), (le_bytes 8 value).
  split; [done|]. split; [destruct (value <? 0); tauto|].
  split; [apply length_le_bytes | apply Forall_is_byte_le_bytes].
Qed.

Lemma parameter_record_bytes (param : string) (bytes : list Z) :
  encode_each_parameter exec_command [] param = Ok bytes ->
  (length bytes = 3%nat \/ length bytes = 10%nat) /\ Forall is_byte bytes.
Proof.
  unfold encode_each_parameter.
  destruct (is_valid_register param) eqn:Hregister.
  - destruct (negb _); [done|].
    apply is_valid_register_In, register_record_bytes in Hregister
      as (width & index & -> & Hwidth & Hindex).
    intros [= <-]. split; [by left|].
    cbn in Hwidth. unfold is_byte.
    constructor; [lia|]. constructor; [|constructor; [lia | constructor]].
    destruct Hwidth as [<- | [<- | [<- | [<- | []]]]]; lia.
  - destruct (is_valid_constant param) eqn:Hconstant; [|done].
    intros Hbytes.
    apply constant_record_bytes in Hbytes as (sign & VAL & -> & Hsign & Hlength & HVAL);
      [|done].
    split; [right; cbn; lia|].
    unfold is_byte. constructor; [lia|]. constructor; [destruct Hsign; lia | done].
Qed.

(** Every operand [encode_target] assembles is a sequence of bytes that
    starts with one of the three prefixes: a register takes 3 bytes, a
    constant 10, and a memory operand between 11 and 32 (prefix, ratio and
    three sub-operands of 3 or 10 bytes). *)
Theorem encoded_operand_size (T : string) (bytes : list Z) :
  encode_target exec_command [] T = Ok bytes ->
  Forall is_byte bytes
  /\ match bytes with
     | 0x01 :: _ => length bytes = 3%nat
     | 0x02 :: _ => length bytes = 10%nat
     | 0x03 :: _ => (11 <= length bytes <= 32)%nat
     | _ => False
     end.
Proof.
  unfold encode_target, parse.
  set (text := capitalization (remove_space T)).
  destruct (is_valid_register text) eqn:Hregister.
  - cbn [mbind result_bind TargetType register_target].
    apply is_valid_register_In, register_record_bytes in Hregister
      as (width & index & -> & Hwidth & Hindex).
    intros [= <-]. split; [|done].
    cbn in Hwidth. unfold is_byte.
    constructor; [lia|]. constructor; [|constructor; [lia | constructor]].
    destruct Hwidth as [<- | [<- | [<- | [<- | []]]]]; lia.
  - destruct (is_valid_constant text) eqn:Hconstant.
    + cbn [mbind result_bind TargetType constant_target]. intros Hbytes.
      apply constant_record_bytes in Hbytes as (sign & VAL & -> & Hsign & Hlength & HVAL);
        [|done].
      split; [|cbn; lia].
      unfold is_byte. constructor; [lia|]. constructor; [destruct Hsign; lia | done].
    + unfold is_valid_memory.
      destruct (memory_pattern text) as [[[[ratio base] offset1] offset2]|] eqn:Hmemory;
        [|done].
      cbn [mbind result_bind TargetType]. intros Hbytes.
      apply encode_memory_layout in Hbytes
        as (RATIO & P1 & P2 & P3 & HRATIO & HP1 & HP2 & HP3 & ->);
        [|by apply memory_pattern_ratio in Hmemory].
      apply parameter_record_bytes in HP1 as [HL1 HB1].
      apply parameter_record_bytes in HP2 as [HL2 HB2].
      apply parameter_record_bytes in HP3 as [HL3 HB3].
      split.
      * constructor; [unfold is_byte; lia|]. constructor.
        -- unfold ratio_byte in HRATIO. unfold is_byte.
           repeat (destruct (String.eqb ratio _); [injection HRATIO as <-; lia|]). done.
        -- rewrite !Forall_app. done.
      * cbn [length]. rewrite !length_app. lia.
Qed.

End Sizes.

Lemma encoded_operand_size_witness :
  Forall is_byte [0x01; 0x32; 0x04]
  /\ length [0x01; 0x32; 0x04] = 3%nat.
Proof.
  apply (encoded_operand_size (bc_prints "") "%her4" [0x01; 0x32; 0x04]).
  vm_compute. reflexivity.
Defined.

(** ** Operands one after another *)

Section Sequences.
Import Assembler.
Variable exec_command : string -> list string -> cmd_status.

(** [decode] consumes exactly the bytes of one operand.  Run on what
    [encode_target] produced for [T], followed by any bytes [rest], it raises
    no exception, leaves [rest], keeps the pieces already in [output] and
    appends the very pieces it prints for the encoding alone.  Operands
    encoded one after the other are therefore decoded one after the other. *)
Theorem decode_consumes_one_operand (T : string) (bytes : list Z)
    (output : list string) (rest : list Z) :
  encode_target exec_command [] T = Ok bytes ->
  exists pieces : list string,
    decode output (bytes ++ rest) = Ok (output ++ pieces, rest)
    /\ decode [] bytes = Ok (pieces, []).
Proof.
  intros Hbytes.
  enough (exists pieces : list string,
            forall (output : list string) (rest : list Z),
              decode output (bytes ++ rest) = Ok (output ++ pieces, rest))
    as (pieces & Hdecode).
  { exists pieces. split; [apply Hdecode|].
    by rewrite <- (app_nil_r bytes), Hdecode. }
  revert Hbytes. unfold encode_target, parse.
  set (text := capitalization (remove_space T)).
  destruct (is_valid_register text) eqn:Hregister.
  - cbn [mbind result_bind TargetType register_target].
    apply is_valid_register_In, register_round_trip in Hregister
      as (width & index & -> & Hdecode).
    intros [= <-]. exists [text]. intros output' rest'.
    cbn [app]. by rewrite decode_as_register, Hdecode.
  - unfold is_valid_constant, is_valid_memory.
    destruct (constant_pattern text) as [expression|] eqn:Hconstant.
    + cbn [mbind result_bind TargetType constant_target].
      rewrite (encode_constant_stored _ _ _ Hconstant).
      destruct (stored_constant exec_command expression) as [value|e] eqn:Hstored;
        cbn [mbind result_bind]; [|done].
      intros [= <-]. exists [canonical_constant value]. intros output' rest'.
      cbn [app]. rewrite decode_as_constant.
      apply (decode_constant_stored value output' rest').
      by apply stored_constant_range with exec_command expression.
    + destruct (memory_pattern text) as [[[[ratio base] offset1] offset2]|] eqn:Hmemory;
        [|done].
      cbn [mbind result_bind TargetType]. intros Hbytes.
      pose proof (memory_pattern_ratio _ _ _ _ _ Hmemory) as Hratio.
      apply memory_decoded in Hbytes
        as (RATIO & P1 & P2 & P3 & text1 & text2 & text3
            & _ & _ & _ & _ & _ & _ & _ & _ & Hdecode);
        [|done].
      eexists. exact Hdecode.
Qed.

End Sequences.

Lemma decode_consumes_one_operand_witness :
  exists pieces : list string,
    Assembler.decode ["%R7"] ([0x01; 0x32; 0x04] ++ [0x01; 0x64; 0x00])
    = Ok (["%R7"] ++ pieces, [0x01; 0x64; 0x00])
    /\ Assembler.decode [] [0x01; 0x32; 0x04] = Ok (pieces, []).
Proof.
  apply (decode_consumes_one_operand (bc_prints "") "%her4" [0x01; 0x32; 0x04]).
  vm_compute. reflexivity.
Defined.

(** ** [push] and [pop] *)

Section PushPop.
Import Assembler.

(** For the four lengths [pop] knows, popping what [push] has pushed gives
    back the value modulo 2^LENGTH and leaves the bytes that follow. *)
Theorem push_pop_round_trip (LENGTH : nat) (value : Z) (rest : list Z) :
  In LENGTH [8; 16; 32; 64]%nat ->
  pop LENGTH (push LENGTH [] value ++ rest) = Ok (value mod 2 ^ Z.of_nat LENGTH, rest).
Proof.
  intros HLENGTH. unfold pop, push. cbn [app].
  cbn in HLENGTH. destruct HLENGTH as [<- | [<- | [<- | [<- | []]]]].
  - change (8 / 8)%nat with 1%nat. rewrite pop_loop_le_bytes. cbn [mbind result_bind].
    change 0xFF with (Z.ones 8). rewrite Z.land_ones by lia.
    change (256 ^ Z.of_nat 1) with (2 ^ 8). change (Z.of_nat 8) with 8.
    by rewrite Z.mod_mod.
  - change (16 / 8)%nat with 2%nat. rewrite pop_loop_le_bytes. cbn [mbind result_bind].
    change 0xFFFF with (Z.ones 16). rewrite Z.land_ones by lia.
    change (256 ^ Z.of_nat 2) with (2 ^ 16). change (Z.of_nat 16) with 16.
    by rewrite Z.mod_mod.
  - change (32 / 8)%nat with 4%nat. rewrite pop_loop_le_bytes. cbn [mbind result_bind].
    change 0xFFFFFFFF with (Z.ones 32). rewrite Z.land_ones by lia.
    change (256 ^ Z.of_nat 4) with (2 ^ 32). change (Z.of_nat 32) with 32.
    by rewrite Z.mod_mod.
  - change (64 / 8)%nat with 8%nat. rewrite pop_loop_le_bytes. cbn [mbind result_bind].
    change 0xFFFFFFFFFFFFFFFF with (Z.ones 64). rewrite Z.land_ones by lia.
    change (256 ^ Z.of_nat 8) with (2 ^ 64). change (Z.of_nat 64) with 64.
    by rewrite Z.mod_mod.
Qed.

End PushPop.

Lemma push_pop_round_trip_witness :
  Assembler.pop 16 (Assembler.push 16 [] 0x12345 ++ [0xAA])
  = Ok (0x12345 mod 2 ^ Z.of_nat 16, [0xAA]).
Proof. apply push_pop_round_trip. cbn. tauto. Defined.

(** ** Errors of the encoder *)

Section Errors.
Import Assembler.
Variable exec_command : string -> list string -> cmd_status.

Lemma parse_constant (T expression : string) :
  constant_pattern (capitalization (remove_space T)) = Some expression ->
  is_valid_register (capitalization (remove_space T)) = false ->
  parse T = Ok (constant_target (capitalization (remove_space T))).
Proof.
  intros Hconstant Hregister. unfold parse, is_valid_constant.
  by rewrite Hregister, Hconstant.
Qed.

Lemma constant_pattern_not_register (text expression : string) :
  constant_pattern text = Some expression -> is_valid_register text = false.
Proof.
  intros Hconstant. destruct (is_valid_register text) eqn:Hregister; [|done].
  apply is_valid_register_In in Hregister. vm_compute in Hregister.
  repeat (destruct Hregister as [<-|Hregister]; [discriminate Hconstant|]).
  contradiction.
Qed.

(** When the calculator exits with a status other than 0 on a constant
    operand, [encode_target] throws [TargetExpressionError]; the message holds
    the expression as it was handed to the calculator, hexadecimal literals
    already replaced, and the exit status. *)
Theorem bc_failure_is_reported (buffer : list Z) (T expression : string) :
  let input := process_base16 expression in
  let cmd := "bc <<< " +:+ dquote +:+ "scale=" +:+ to_string 0 +:+ "; "
             +:+ input +:+ dquote in
  let status := exit_status (exec_command "sh" ["-c"; cmd]) in
  constant_pattern (capitalization (remove_space T)) = Some expression ->
  status <> 0 ->
  encode_target exec_command buffer T
  = Throw (TargetExpressionError (input +:+ ": " +:+ to_string status)).
Proof.
  intros input cmd status Hconstant Hstatus.
  unfold encode_target.
  rewrite (parse_constant T expression Hconstant)
    by (by apply constant_pattern_not_register with expression).
  cbn [mbind result_bind TargetType constant_target].
  unfold encode_constant. cbn [ConstantExpression constant_target].
  destruct (constant_pattern_body _ _ Hconstant) as [-> ->].
  unfold execute_bc. fold input. fold cmd. fold status.
  destruct (Z.eqb_spec status 0) as [|_]; [done|]. reflexivity.
Qed.

(** A memory operand whose base is a register other than a 64-bit one
    (%FER0 to %FER7) is refused with the message "Not a 64bit Register". *)
Theorem memory_base_must_be_64bit (buffer : list Z) (T ratio base offset1 offset2 : string) :
  memory_pattern (capitalization (remove_space T)) = Some (ratio, base, offset1, offset2) ->
  is_valid_register base = true ->
  pop_back base <> "%FER" ->
  encode_target exec_command buffer T
  = Throw (TargetExpressionError ("Not a 64bit Register: " +:+ base)).
Proof.
  intros Hmemory Hregister Hclass.
  unfold encode_target. rewrite (parse_memory _ _ _ _ _ Hmemory).
  cbn [mbind result_bind TargetType].
  unfold encode_memory.
  cbn [memory MemoryAccessRatio MemoryBaseAddress MemoryOffset1 MemoryOffset2].
  unfold encode_each_parameter at 3. rewrite Hregister.
  destruct (String.eqb_spec (pop_back base) "%FER") as [|_]; [done|]. reflexivity.
Qed.

End Errors.

Lemma bc_failure_is_reported_witness :
  Assembler.encode_target
    (fun _ _ => {| Assembler.fd_stdout := ""; Assembler.fd_stderr := "";
                   Assembler.exit_status := 127 |})
    [] "$( 0x10 + 1 )"
  = Throw (TargetExpressionError "16+1: 127").
Proof.
  apply (bc_failure_is_reported
           (fun _ _ => {| Assembler.fd_stdout := ""; Assembler.fd_stderr := "";
                          Assembler.exit_status := 127 |})
           [] "$( 0x10 + 1 )" "0X10+1"); [reflexivity | discriminate].
Defined.

Lemma memory_base_must_be_64bit_witness :
  Assembler.encode_target (bc_prints "") [] "*4(%r1, %fer2, $(3))"
  = Throw (TargetExpressionError "Not a 64bit Register: %R1").
Proof.
  apply (memory_base_must_be_64bit _ [] "*4(%r1, %fer2, $(3))" "4" "%R1" "%FER2" "$(3)");
    [reflexivity | reflexivity | discriminate].
Defined.

(** ** Register indices the decoder does not check *)

Section Indices.
Import Assembler.
Variable exec_command : string -> list string -> cmd_status.

Lemma land_byte (byte : Z) : 0 <= byte < 256 -> Z.land (byte + 256 * 0) 0xFF = byte.
Proof.
  intros Hbyte. rewrite Z.mul_0_r, Z.add_0_r.
  change 0xFF with (Z.ones 8). rewrite Z.land_ones by lia. apply Z.mod_small. lia.
Qed.

(** None of the texts a class and an index from 8 to 255 spell is accepted
    by the parser. *)
Lemma high_register_texts_rejected :
  forallb (fun index =>
    forallb (fun class =>
      let text := class +:+ to_string index in
      String.eqb (capitalization (remove_space text)) text
      && negb (is_valid_register text) && negb (is_valid_constant text)
      && negb (is_valid_memory text))
      ["%R"; "%EXR"; "%HER"; "%FER"])
    (seqZ 8 248) = true.
Proof. vm_compute. reflexivity. Qed.

(** [decode_register] prints whatever index byte it finds: a register
    record of a known class and of any index from 0 to 255 is disassembled,
    but from index 8 on the text it yields is refused by [encode_target]. *)
Theorem decode_register_any_index (buffer : list Z) (width index : Z) (class : string) :
  In (width, class) [(0x08, "%R"); (0x16, "%EXR"); (0x32, "%HER"); (0x64, "%FER")] ->
  0 <= index < 256 ->
  disassemble [0x01; width; index] = Ok (class +:+ to_string index)
  /\ (8 <= index ->
      encode_target exec_command buffer (class +:+ to_string index)
      = Throw (TargetExpressionError (class +:+ to_string index))).
Proof.
  intros Hclass Hindex. split.
  - unfold disassemble. rewrite decode_as_register. unfold decode_register.
    assert (Hwidth : 0 <= width < 256).
    { cbn in Hclass.
      destruct Hclass as [[= <- <-] | [[= <- <-] | [[= <- <-] | [[= <- <-] | []]]]]; lia. }
    rewrite pop8_cons, (land_byte width Hwidth). cbn [mbind result_bind].
    rewrite pop8_cons, (land_byte index Hindex). cbn [mbind result_bind].
    cbn in Hclass.
    destruct Hclass as [[= <- <-] | [[= <- <-] | [[= <- <-] | [[= <- <-] | []]]]];
      cbn [mbind result_bind app]; unfold printed; cbn [fold_right];
      by rewrite append_empty_r.
  - intros Hhigh.
    pose proof high_register_texts_rejected as Hall.
    rewrite forallb_forall in Hall.
    specialize (Hall index). rewrite forallb_forall in Hall.
    assert (Hin : In index (seqZ 8 248)) by (apply list_elem_of_In, elem_of_seqZ; lia).
    specialize (Hall Hin class).
    assert (Hin' : In class ["%R"; "%EXR"; "%HER"; "%FER"]).
    { cbn in Hclass. cbn.
      destruct Hclass as [[= <- <-] | [[= <- <-] | [[= <- <-] | [[= <- <-] | []]]]]; tauto. }
    specialize (Hall Hin'). cbv zeta in Hall.
    apply andb_prop in Hall as [Hall Hmemory].
    apply andb_prop in Hall as [Hall Hconstant].
    apply andb_prop in Hall as [Htext Hregister].
    apply String.eqb_eq in Htext.
    apply negb_true_iff in Hregister, Hconstant, Hmemory.
    unfold encode_target, parse. rewrite Htext, Hregister, Hconstant, Hmemory.
    reflexivity.
Qed.

End Indices.

Lemma decode_register_any_index_witness :
  Assembler.disassemble [0x01; 0x64; 14] = Ok ("%FER" +:+ to_string 14)
  /\ (8 <= 14 ->
      Assembler.encode_target (bc_prints "") [] ("%FER" +:+ to_string 14)
      = Throw (TargetExpressionError ("%FER" +:+ to_string 14))).
Proof.
  apply (decode_register_any_index (bc_prints "") [] 0x64 14 "%FER"); [cbn; tauto | lia].
Defined.

(** ** Register records in the instruction stream *)

Section OperandRecords.
Import Processor.

Variables R_StackPointer R_DataPointer R_ExtendedSegmentPointer : Z.

Local Abbreviation do_get_register :=
  (Processor.do_get_register R_StackPointer R_DataPointer R_ExtendedSegmentPointer).
Local Abbreviation do_set_register :=
  (Processor.do_set_register R_StackPointer R_DataPointer R_ExtendedSegmentPointer).
Local Abbreviation get_target_content_in_u64bit_t :=
  (Processor.get_target_content_in_u64bit_t
     R_StackPointer R_DataPointer R_ExtendedSegmentPointer).
Local Abbreviation set_target_content_in_u64bit_t :=
  (Processor.set_target_content_in_u64bit_t
     R_StackPointer R_DataPointer R_ExtendedSegmentPointer).
Local Abbreviation Target_new :=
  (Processor.Target_new R_StackPointer R_DataPointer R_ExtendedSegmentPointer).
Local Abbreviation value_of :=
  (record_value R_StackPointer R_DataPointer R_ExtendedSegmentPointer).

Lemma do_setup_register_info_classes (this : Target) (CPU : processor)
    (width index : Z) (rest : list Z) :
  instruction_stream CPU (width :: index :: rest) ->
  (forall class : string,
     In (width, class)
        [(0x08, "%R"); (0x16, "%EXR"); (0x32, "%HER"); (0x64, "%FER"); (0xFC, "%XMM")] ->
     do_setup_register_info this CPU
     = Ok (decoded_register this width index (class +:+ to_string index), advance CPU 2))
  /\ (~ In width [0x08; 0x16; 0x32; 0x64; 0xFC] ->
      do_setup_register_info this CPU = Throw IllegalInstruction)
  /\ instruction_stream (advance CPU 2) rest.
Proof.
  intros Hstream.
  apply pop8_stream in Hstream as [Hpopw Hstream].
  apply pop8_stream in Hstream as [Hpopi Hstream].
  rewrite advance_advance in *.
  unfold do_setup_register_info. rewrite Hpopw. cbn [mbind result_bind].
  rewrite Hpopi. cbn [mbind result_bind].
  split; [|split; [|done]].
  - intros class Hclass. cbn in Hclass.
    destruct Hclass as [[= <- <-] | [[= <- <-] | [[= <- <-] | [[= <- <-] | [[= <- <-] | []]]]]];
      reflexivity.
  - intros Hwidth. cbn in Hwidth.
    destruct width as [|p|p]; try reflexivity.
    repeat destruct_scrutinee; try reflexivity; exfalso; apply Hwidth; tauto.
Qed.

(** [Target::Target] on a register record 01 WIDTH INDEX: for the five
    classes 08, 16, 32, 64 and FC (hexadecimal) it builds a register operand
    of that width and index, three bytes further, whose literal is the class
    name and the index in decimal between angle brackets; the index is not
    checked.  Any other width raises the illegal-instruction fault. *)
Theorem register_record_decoding (this : Target) (CPU : processor)
    (width index : Z) (class : string) (rest : list Z) :
  instruction_stream CPU (0x01 :: width :: index :: rest) ->
  (In (width, class)
      [(0x08, "%R"); (0x16, "%EXR"); (0x32, "%HER"); (0x64, "%FER"); (0xFC, "%XMM")] ->
   exists target : Target,
     Target_new this CPU = Ok (target, advance CPU 3)
     /\ TargetType target = TypeRegister
     /\ TargetWidth target = width
     /\ RegisterIndex target = index
     /\ literal target = "<" +:+ class +:+ to_string index +:+ ">")
  /\ (~ In width [0x08; 0x16; 0x32; 0x64; 0xFC] ->
      Target_new this CPU = Throw IllegalInstruction).
Proof.
  intros Hstream.
  apply pop8_stream in Hstream as [Hprefix Hstream].
  apply (do_setup_register_info_classes this) in Hstream as (Hknown & Hunknown & _).
  rewrite advance_advance in *.
  unfold Processor.Target_new. rewrite Hprefix. cbn [mbind result_bind].
  rewrite do_decode_via_prefix_register.
  split.
  - intros Hclass. rewrite (Hknown class Hclass). cbn [mbind result_bind].
    eexists. split; [reflexivity|].
    cbn [TargetType TargetWidth RegisterIndex literal decoded_register set_literal
         set_TargetWidth set_TargetType set_RegisterIndex].
    by rewrite append_assoc.
  - intros Hwidth. by rewrite (Hunknown Hwidth).
Qed.

(** A register record of class FC is decoded (as %XMM), but the operand can
    be neither read nor written: both accesses raise the illegal-instruction
    fault. *)
Theorem xmm_operand_unusable (this : Target) (CPU : processor) (index : Z) (rest : list Z) :
  instruction_stream CPU (0x01 :: 0xFC :: index :: rest) ->
  exists target : Target,
    Target_new this CPU = Ok (target, advance CPU 3)
    /\ literal target = "<%XMM" +:+ to_string index +:+ ">"
    /\ get_target_content_in_u64bit_t target (advance CPU 3) = Throw IllegalInstruction
    /\ forall val : Z,
         set_target_content_in_u64bit_t target val (advance CPU 3) = Throw IllegalInstruction.
Proof.
  intros Hstream.
  apply pop8_stream in Hstream as [Hprefix Hstream].
  apply (do_setup_register_info_classes this) in Hstream as (Hknown & _ & _).
  rewrite advance_advance in *.
  unfold Processor.Target_new. rewrite Hprefix. cbn [mbind result_bind].
  rewrite do_decode_via_prefix_register, (Hknown "%XMM") by (cbn; tauto).
  cbn [mbind result_bind]. eexists. split; [reflexivity|].
  split; [cbn [literal decoded_register set_literal]; by rewrite append_assoc|].
  split; [reflexivity|]. intros val. reflexivity.
Qed.

End OperandRecords.

Lemma register_record_decoding_witness :
  (In (0x32, "%HER")
      [(0x08, "%R"); (0x16, "%EXR"); (0x32, "%HER"); (0x64, "%FER"); (0xFC, "%XMM")] ->
   exists target : Processor.Target,
     sample_Target_new blank_target (machine [0x01; 0x32; 0x04])
     = Ok (target, advance (machine [0x01; 0x32; 0x04]) 3)
     /\ Processor.TargetType target = Processor.TypeRegister
     /\ Processor.TargetWidth target = 0x32
     /\ Processor.RegisterIndex target = 0x04
     /\ Processor.literal target = "<" +:+ "%HER" +:+ to_string 0x04 +:+ ">")
  /\ (~ In 0x32 [0x08; 0x16; 0x32; 0x64; 0xFC] ->
      sample_Target_new blank_target (machine [0x01; 0x32; 0x04]) = Throw IllegalInstruction).
Proof.
  apply (register_record_decoding
           sample_R_StackPointer sample_R_DataPointer sample_R_ExtendedSegmentPointer
           blank_target (machine [0x01; 0x32; 0x04]) 0x32 0x04 "%HER" []).
  stream_of_machine.
Defined.

Lemma xmm_operand_unusable_witness :
  exists target : Processor.Target,
    sample_Target_new blank_target (machine [0x01; 0xFC; 0x02])
    = Ok (target, advance (machine [0x01; 0xFC; 0x02]) 3)
    /\ Processor.literal target = "<%XMM" +:+ to_string 0x02 +:+ ">"
    /\ sample_get target (advance (machine [0x01; 0xFC; 0x02]) 3) = Throw IllegalInstruction
    /\ forall val : Z,
         sample_set target val (advance (machine [0x01; 0xFC; 0x02]) 3)
         = Throw IllegalInstruction.
Proof.
  apply (xmm_operand_unusable
           sample_R_StackPointer sample_R_DataPointer sample_R_ExtendedSegmentPointer
           blank_target (machine [0x01; 0xFC; 0x02]) 0x02 []).
  stream_of_machine.
Defined.

(** ** Sub-operands of a memory operand; constant operands *)

Section SubOperands.
Import Processor.

Variables R_StackPointer R_DataPointer R_ExtendedSegmentPointer : Z.

Local Abbreviation do_get_register :=
  (Processor.do_get_register R_StackPointer R_DataPointer R_ExtendedSegmentPointer).
Local Abbreviation do_set_register :=
  (Processor.do_set_register R_StackPointer R_DataPointer R_ExtendedSegmentPointer).
Local Abbreviation get_target_content_in_u64bit_t :=
  (Processor.get_target_content_in_u64bit_t
     R_StackPointer R_DataPointer R_ExtendedSegmentPointer).
Local Abbreviation set_target_content_in_u64bit_t :=
  (Processor.set_target_content_in_u64bit_t
     R_StackPointer R_DataPointer R_ExtendedSegmentPointer).
Local Abbreviation do_setup_memory_info :=
  (Processor.do_setup_memory_info R_StackPointer R_DataPointer R_ExtendedSegmentPointer).
Local Abbreviation do_decode_via_prefix :=
  (Processor.do_decode_via_prefix R_StackPointer R_DataPointer R_ExtendedSegmentPointer).
Local Abbreviation Target_new :=
  (Processor.Target_new R_StackPointer R_DataPointer R_ExtendedSegmentPointer).
Local Abbreviation value_of :=
  (record_value R_StackPointer R_DataPointer R_ExtendedSegmentPointer).
Local Abbreviation block :=
  (parameter_block R_StackPointer R_DataPointer R_ExtendedSegmentPointer).

(** A block of [do_setup_memory_info] on a prefix that is neither 01 nor 02. *)
Lemma parameter_block_rejects {A : Type}
    (decode : Z -> Target -> processor -> result (Target * processor))
    (this : Target) (CPU : processor) (prefix : Z) (rest : list Z)
    (continue : Z -> Target -> processor -> result A) :
  instruction_stream CPU (prefix :: rest) ->
  prefix <> 0x01 -> prefix <> 0x02 ->
  block decode this CPU continue = Throw IllegalInstruction.
Proof.
  intros Hstream Hnot1 Hnot2. apply pop8_stream in Hstream as [Hprefix _].
  unfold parameter_block. rewrite Hprefix. cbn [mbind result_bind].
  unfold REGISTER_PREFIX, CONSTANT_PREFIX.
  destruct (Z.eqb_spec prefix 1) as [|_]; [done|].
  destruct (Z.eqb_spec prefix 2) as [|_]; [done|]. reflexivity.
Qed.

(** Each of the three sub-operands of a memory operand must start with the
    register prefix 01 or the constant prefix 02: behind up to two readable
    sub-operand records, any other prefix byte raises the illegal-instruction
    fault.  In particular the memory prefix 03 does: memory operands do not
    nest. *)
Theorem memory_suboperand_prefix (this : Target) (CPU : processor) (WIDTH prefix : Z)
    (front : list parameter_record) (rest : list Z) :
  (length front < 3)%nat ->
  Forall well_formed_record front ->
  Forall (fun record => exists value : Z, value_of record CPU = Ok value) front ->
  instruction_stream CPU
    (0x03 :: WIDTH :: concat (map record_bytes front) ++ prefix :: rest) ->
  prefix <> 0x01 -> prefix <> 0x02 ->
  Target_new this CPU = Throw IllegalInstruction.
Proof.
  intros Hlength Hwf Hvalues Hstream Hnot1 Hnot2.
  apply pop8_stream in Hstream as [Hmemory Hstream].
  apply pop8_stream in Hstream as [Hwidth Hstream].
  unfold Processor.Target_new. rewrite Hmemory. cbn [mbind result_bind].
  change (do_decode_via_prefix 1 3 this (advance CPU 1))
    with (do_setup_memory_info (do_decode_via_prefix 0) this (advance CPU 1)).
  rewrite do_setup_memory_info_blocks, Hwidth. cbn [mbind result_bind].
  destruct front as [|P1 front]; cbn [map concat app] in Hstream.
  { by rewrite (parameter_block_rejects _ _ _ _ _ _ Hstream Hnot1 Hnot2). }
  apply Forall_cons_1 in Hwf as [Hwf1 Hwf]. apply Forall_cons_1 in Hvalues as [[v1 Hv1] Hvalues].
  rewrite <- app_assoc in Hstream.
  destruct (parameter_block_stream _ _ _ this _ P1 _ v1 Hwf1 Hstream Hv1)
    as [[this1 Hblock1] Hstream1].
  rewrite Hblock1. cbv zeta.
  destruct front as [|P2 front]; cbn [map concat app] in Hstream1.
  { by rewrite (parameter_block_rejects _ _ _ _ _ _ Hstream1 Hnot1 Hnot2). }
  apply Forall_cons_1 in Hwf as [Hwf2 Hwf]. apply Forall_cons_1 in Hvalues as [[v2 Hv2] Hvalues].
  rewrite <- app_assoc in Hstream1.
  destruct (parameter_block_stream _ _ _ this1 _ P2 _ v2 Hwf2 Hstream1 Hv2)
    as [[this2 Hblock2] Hstream2].
  rewrite Hblock2.
  destruct front as [|P3 front]; cbn [map concat app] in Hstream2.
  { by rewrite (parameter_block_rejects _ _ _ _ _ _ Hstream2 Hnot1 Hnot2). }
  cbn [length] in Hlength. lia.
Qed.

(** A constant record 02 64 VAL yields an operand that reads as the
    little-endian value of VAL and that no write accepts: every
    [set_target_content_in_u64bit_t] raises the illegal-instruction fault.
    [do_setup_constant_info] never assigns [TargetWidth]: it is left as the
    storage held it. *)
Theorem constant_operand_access (this : Target) (CPU : processor) (VAL rest : list Z) :
  length VAL = 8%nat ->
  instruction_stream CPU (0x02 :: 0x64 :: VAL ++ rest) ->
  exists target : Target,
    Target_new this CPU = Ok (target, advance CPU 10)
    /\ TargetWidth target = TargetWidth this
    /\ literal target = "<$(" +:+ to_string (le_value VAL) +:+ ")>"
    /\ get_target_content_in_u64bit_t target (advance CPU 10) = Ok (le_value VAL)
    /\ forall val : Z,
         set_target_content_in_u64bit_t target val (advance CPU 10) = Throw IllegalInstruction.
Proof.
  intros Hlength Hstream.
  apply pop8_stream in Hstream as [Hprefix Hstream].
  apply (do_setup_constant_info_stream this) in Hstream as [Hsetup _]; [|done].
  change (100 =? 100) with true in Hsetup. cbv iota in Hsetup.
  rewrite advance_advance in *.
  unfold Processor.Target_new. rewrite Hprefix. cbn [mbind result_bind].
  rewrite do_decode_via_prefix_constant, Hsetup. cbn [mbind result_bind].
  eexists. split; [reflexivity|]. split; [reflexivity|].
  split; [cbn [literal set_literal]; by rewrite !append_assoc|].
  split; [reflexivity|]. intros val.
  unfold Processor.set_target_content_in_u64bit_t.
  cbn [TargetWidth TargetType set_literal set_ConstantValue set_TargetType].
  destruct (TargetWidth this) as [|p|p]; try reflexivity.
  repeat destruct_scrutinee; reflexivity.
Qed.

End SubOperands.

Lemma memory_suboperand_prefix_witness :
  sample_Target_new blank_target
    (machine (0x03 :: 0x64 :: concat (map record_bytes [RegisterRecord 0x64 0x00])
              ++ 0x03 :: [0x64; 0x01; 0x64; 0x00]))
  = Throw IllegalInstruction.
Proof.
  apply (memory_suboperand_prefix
           sample_R_StackPointer sample_R_DataPointer sample_R_ExtendedSegmentPointer
           blank_target _ 0x64 0x03 [RegisterRecord 0x64 0x00] [0x64; 0x01; 0x64; 0x00]).
  - cbn. lia.
  - repeat constructor.
  - repeat constructor. exists 0. reflexivity.
  - stream_of_machine.
  - discriminate.
  - discriminate.
Defined.

Lemma constant_operand_access_witness :
  exists target : Processor.Target,
    sample_Target_new blank_target (machine ([0x02; 0x64] ++ le_bytes 8 114514 ++ []))
    = Ok (target, advance (machine ([0x02; 0x64] ++ le_bytes 8 114514 ++ [])) 10)
    /\ Processor.TargetWidth target = Processor.TargetWidth blank_target
    /\ Processor.literal target = "<$(" +:+ to_string (le_value (le_bytes 8 114514)) +:+ ")>"
    /\ sample_get target (advance (machine ([0x02; 0x64] ++ le_bytes 8 114514 ++ [])) 10)
       = Ok (le_value (le_bytes 8 114514))
    /\ forall val : Z,
         sample_set target val (advance (machine ([0x02; 0x64] ++ le_bytes 8 114514 ++ [])) 10)
         = Throw IllegalInstruction.
Proof.
  apply (constant_operand_access
           sample_R_StackPointer sample_R_DataPointer sample_R_ExtendedSegmentPointer
           blank_target (machine ([0x02; 0x64] ++ le_bytes 8 114514 ++ []))
           (le_bytes 8 114514) []).
  - reflexivity.
  - stream_of_machine.
Defined.

(** ** The instructions NOP and ADD *)

Section Instructions.
Import Processor.

Variables R_StackPointer R_DataPointer R_ExtendedSegmentPointer : Z.
Variable INT_ILLEGAL_INSTRUCTION : Z.
Variable blank : Target.

Local Abbreviation do_get_register :=
  (Processor.do_get_register R_StackPointer R_DataPointer R_ExtendedSegmentPointer).
Local Abbreviation do_set_register :=
  (Processor.do_set_register R_StackPointer R_DataPointer R_ExtendedSegmentPointer).
Local Abbreviation get_target_content_in_u64bit_t :=
  (Processor.get_target_content_in_u64bit_t
     R_StackPointer R_DataPointer R_ExtendedSegmentPointer).
Local Abbreviation set_target_content_in_u64bit_t :=
  (Processor.set_target_content_in_u64bit_t
     R_StackPointer R_DataPointer R_ExtendedSegmentPointer).
Local Abbreviation Target_new :=
  (Processor.Target_new R_StackPointer R_DataPointer R_ExtendedSegmentPointer).
Local Abbreviation value_of :=
  (record_value R_StackPointer R_DataPointer R_ExtendedSegmentPointer).
Local Abbreviation operation :=
  (Processor.operation R_StackPointer R_DataPointer R_ExtendedSegmentPointer
     INT_ILLEGAL_INSTRUCTION blank).

Lemma do_set_register_ext (this this' : Target) (reg : Z) (CPU : processor) :
  TargetWidth this = TargetWidth this' ->
  RegisterIndex this = RegisterIndex this' ->
  do_set_register this reg CPU = do_set_register this' reg CPU.
Proof. unfold Processor.do_set_register. by intros -> ->. Qed.

(** The operand [Target::Target] builds from a readable register record or a
    constant record: where the stream stands afterwards, what a read of the
    operand yields and what a write does. *)
Lemma Target_new_record (this : Target) (CPU : processor) (record : parameter_record)
    (rest : list Z) (value : Z) :
  well_formed_record record ->
  instruction_stream CPU (record_bytes record ++ rest) ->
  value_of record CPU = Ok value ->
  let CPU' := advance CPU (length (record_bytes record)) in
  exists target : Target,
    Target_new this CPU = Ok (target, CPU')
    /\ instruction_stream CPU' rest
    /\ (forall CPU'' : processor,
          Registers CPU'' = Registers CPU ->
          get_target_content_in_u64bit_t target CPU'' = Ok value)
    /\ (forall (val : Z) (CPU'' : processor),
          set_target_content_in_u64bit_t target val CPU'' =
          match record with
          | RegisterRecord width index => do_set_register (register_operand width index) val CPU''
          | ConstantRecord _ => Throw IllegalInstruction
          end).
Proof.
  intros Hwf Hstream Hvalue CPU'. subst CPU'.
  destruct record as [width index|VAL];
    cbn [record_bytes app length well_formed_record] in *.
  - apply pop8_stream in Hstream as [Hprefix Hstream].
    unfold record_value in Hvalue.
    pose proof (do_get_register_width _ _ _ _ _ _ Hvalue) as Hwidth.
    cbn [TargetWidth register_operand] in Hwidth.
    apply (do_setup_register_info_stream this) in Hstream as [[text Hsetup] Hstream];
      [|done].
    rewrite advance_advance in *.
    unfold Processor.Target_new. rewrite Hprefix. cbn [mbind result_bind].
    rewrite do_decode_via_prefix_register, Hsetup. cbn [mbind result_bind].
    eexists. split; [reflexivity|]. split; [done|]. split.
    + intros CPU'' Hregisters.
      unfold Processor.get_target_content_in_u64bit_t.
      cbn [TargetType decoded_register set_literal set_TargetWidth set_TargetType].
      by rewrite (do_get_register_ext _ _ _ _ (register_operand width index) _ CPU), Hvalue.
    + intros val CPU''.
      unfold Processor.set_target_content_in_u64bit_t.
      cbn [TargetType TargetWidth decoded_register set_literal set_TargetWidth set_TargetType].
      destruct Hwidth as [-> | [-> | [-> | ->]]]; cbn [mbind result_bind];
        by apply do_set_register_ext.
  - apply pop8_stream in Hstream as [Hprefix Hstream].
    apply (do_setup_constant_info_stream this) in Hstream as [Hsetup Hstream]; [|done].
    change (100 =? 100) with true in Hsetup. cbv iota in Hsetup.
    rewrite advance_advance in *. rewrite Hwf.
    injection Hvalue as <-.
    unfold Processor.Target_new. rewrite Hprefix. cbn [mbind result_bind].
    rewrite do_decode_via_prefix_constant, Hsetup. cbn [mbind result_bind].
    eexists. split; [reflexivity|]. split; [done|]. split; [reflexivity|].
    intros val CPU''.
    unfold Processor.set_target_content_in_u64bit_t.
    cbn [TargetWidth TargetType set_literal set_ConstantValue set_TargetType].
    destruct (TargetWidth this) as [|p|p]; try reflexivity.
    repeat destruct_scrutinee; reflexivity.
Qed.

(** ADD on two operand records (a readable register or a constant each):
    the opcode 1, one width byte and the two records are fetched, and the
    sum of the two values modulo 2^64 is written to the first operand with
    [do_set_register], which truncates it to the register's width.  The width
    byte of the instruction has no influence, and a constant as first operand
    raises the illegal-instruction fault. *)
Theorem add_on_records (timestamp : Z) (CPU : processor) (width : Z)
    (P1 P2 : parameter_record) (rest : list Z) (value1 value2 : Z) :
  well_formed_record P1 -> well_formed_record P2 ->
  instruction_stream CPU
    ([0x01; 0; 0; 0; 0; 0; 0; 0] ++ width :: record_bytes P1 ++ record_bytes P2 ++ rest) ->
  value_of P1 CPU = Ok value1 ->
  value_of P2 CPU = Ok value2 ->
  let fetched := advance CPU (9 + length (record_bytes P1) + length (record_bytes P2)) in
  instruction_stream fetched rest
  /\ operation timestamp CPU =
     match P1 with
     | RegisterRecord width1 index1 =>
         do_set_register (register_operand width1 index1)
                         ((value1 + value2) mod 2 ^ 64) fetched
     | ConstantRecord _ => Throw IllegalInstruction
     end.
Proof.
  intros Hwf1 Hwf2 Hstream Hvalue1 Hvalue2 fetched.
  apply (pop_stream 64) in Hstream as [Hopcode Hstream]; [|done].
  change (64 / 8)%nat with 8%nat in *.
  apply pop8_stream in Hstream as [Hwidth Hstream].
  destruct (Target_new_record blank _ P1 _ value1 Hwf1 Hstream Hvalue1)
    as (operand1 & Hoperand1 & Hstream1 & Hget1 & Hset1).
  destruct (Target_new_record blank _ P2 _ value2 Hwf2 Hstream1 Hvalue2)
    as (operand2 & Hoperand2 & Hstream2 & Hget2 & _).
  assert (Hfetched :
    advance (advance (advance (advance CPU 8) 1) (length (record_bytes P1)))
            (length (record_bytes P2)) = fetched).
  { subst fetched. rewrite !advance_advance. f_equal; lia. }
  rewrite Hfetched in *.
  split; [done|].
  unfold Processor.operation, Processor.operation_calling. rewrite Hopcode. cbn [mbind result_bind le_value].
  change (1 + 256 * _) with 1. cbv iota.
  unfold add, pop_target. rewrite Hwidth. cbn [mbind result_bind].
  rewrite Hoperand1. cbn [mbind result_bind].
  rewrite Hoperand2. cbn [mbind result_bind].
  rewrite Hget1 by reflexivity. cbn [mbind result_bind].
  rewrite Hget2 by reflexivity. cbn [mbind result_bind].
  apply Hset1.
Qed.

(** NOP: the step fetches the eight bytes of the opcode 0 and changes
    nothing else. *)
Theorem nop_only_advances (timestamp : Z) (CPU : processor) (rest : list Z) :
  instruction_stream CPU ([0x00; 0; 0; 0; 0; 0; 0; 0] ++ rest) ->
  operation timestamp CPU = Ok (advance CPU 8)
  /\ instruction_stream (advance CPU 8) rest.
Proof.
  intros Hstream.
  apply (pop_stream 64) in Hstream as [Hopcode Hstream]; [|done].
  change (64 / 8)%nat with 8%nat in *. split; [|done].
  unfold Processor.operation, Processor.operation_calling. rewrite Hopcode. reflexivity.
Qed.

End Instructions.

Lemma add_on_records_witness :
  instruction_stream
    (advance (machine ([0x01; 0; 0; 0; 0; 0; 0; 0] ++
                       0x08 :: record_bytes (RegisterRecord 0x64 0x02)
                       ++ record_bytes (ConstantRecord (le_bytes 8 0x1F)) ++ [0xEE]))
       (9 + length (record_bytes (RegisterRecord 0x64 0x02))
          + length (record_bytes (ConstantRecord (le_bytes 8 0x1F))))) [0xEE]
  /\ sample_operation 0
       (machine ([0x01; 0; 0; 0; 0; 0; 0; 0] ++
                 0x08 :: record_bytes (RegisterRecord 0x64 0x02)
                 ++ record_bytes (ConstantRecord (le_bytes 8 0x1F)) ++ [0xEE]))
     = Processor.do_set_register
         sample_R_StackPointer sample_R_DataPointer sample_R_ExtendedSegmentPointer
         (register_operand 0x64 0x02) ((0 + 0x1F) mod 2 ^ 64)
         (advance (machine ([0x01; 0; 0; 0; 0; 0; 0; 0] ++
                            0x08 :: record_bytes (RegisterRecord 0x64 0x02)
                            ++ record_bytes (ConstantRecord (le_bytes 8 0x1F)) ++ [0xEE]))
            (9 + length (record_bytes (RegisterRecord 0x64 0x02))
               + length (record_bytes (ConstantRecord (le_bytes 8 0x1F))))).
Proof.
  apply (add_on_records
           sample_R_StackPointer sample_R_DataPointer sample_R_ExtendedSegmentPointer
           0 blank_target 0 _ 0x08 (RegisterRecord 0x64 0x02)
           (ConstantRecord (le_bytes 8 0x1F)) [0xEE] 0 0x1F).
  - exact I.
  - reflexivity.
  - stream_of_machine.
  - reflexivity.
  - reflexivity.
Defined.

Lemma nop_only_advances_witness :
  sample_operation 0 (machine ([0x00; 0; 0; 0; 0; 0; 0; 0] ++ [0x55]))
  = Ok (advance (machine ([0x00; 0; 0; 0; 0; 0; 0; 0] ++ [0x55])) 8)
  /\ instruction_stream (advance (machine ([0x00; 0; 0; 0; 0; 0; 0; 0] ++ [0x55])) 8) [0x55].
Proof.
  apply (nop_only_advances
           sample_R_StackPointer sample_R_DataPointer sample_R_ExtendedSegmentPointer
           0 blank_target 0 _ [0x55]).
  stream_of_machine.
Defined.

(** ** More on the interruption vector table *)

Section VectorTableMore.
Import Processor.

(** The first [n] rounds of the loop, started on any table. *)
Lemma vector_loop_keeps (table : gmap Z Z) (n : nat) (i : Z) :
  Z.of_nat n <= TOTAL_ENTRIES ->
  foldl vector_entry table (seqZ 0 (Z.of_nat n)) !! i =
  match table !! i with
  | Some address => Some address
  | None => if decide (0 <= i < Z.of_nat n)
            then Some (START_ADDRESS + INCREMENT * i) else None
  end.
Proof.
  revert i. induction n as [|n IH]; intros i Hn.
  - simpl. destruct (table !! i); [done|]. case_decide; [lia|done].
  - rewrite seqZ_S, foldl_snoc, Z.add_0_l.
    set (prev := foldl vector_entry table (seqZ 0 (Z.of_nat n))) in *.
    assert (Haddr : u64 (START_ADDRESS + u64 (Z.of_nat n * INCREMENT))
                    = START_ADDRESS + INCREMENT * Z.of_nat n).
    { unfold u64, START_ADDRESS, INCREMENT, TOTAL_ENTRIES in *.
      rewrite (Z.mod_small (Z.of_nat n * 8)) by lia.
      rewrite Z.mod_small by lia. lia. }
    unfold vector_entry, map_insert. cbn [fst snd]. rewrite Haddr.
    pose proof (IH (Z.of_nat n) ltac:(lia)) as Hprev.
    destruct (decide (i = Z.of_nat n)) as [->|Hne].
    + destruct (table !! Z.of_nat n) as [address|].
      * by rewrite Hprev.
      * rewrite decide_False in Hprev by lia. rewrite Hprev, lookup_insert_eq.
        by rewrite decide_True by lia.
    + assert (Hstep : match prev !! Z.of_nat n with
                      | Some _ => prev
                      | None => <[Z.of_nat n := START_ADDRESS + INCREMENT * Z.of_nat n]> prev
                      end !! i = prev !! i).
      { destruct (prev !! Z.of_nat n); [done|]. by rewrite lookup_insert_ne. }
      rewrite Hstep, IH by lia.
      destruct (table !! i); [done|]. repeat case_decide; try done; lia.
Qed.

(** The loop of [__initialize_vector__] uses [std::map::insert], which
    leaves an entry that is already there: run on any table, it keeps every
    entry of the table and adds 0xA0000 + 8 * i for the numbers from 0 to 511
    that had none; running it a second time changes nothing. *)
Theorem initialize_vector_keeps_entries (table : gmap Z Z) (i : Z) :
  initialize_vector table !! i =
    match table !! i with
    | Some address => Some address
    | None => if decide (0 <= i < 512) then Some (0xA0000 + 8 * i) else None
    end
  /\ initialize_vector (initialize_vector table) = initialize_vector table.
Proof.
  assert (Hlookup : forall (table : gmap Z Z) (i : Z),
    initialize_vector table !! i =
    match table !! i with
    | Some address => Some address
    | None => if decide (0 <= i < 512) then Some (0xA0000 + 8 * i) else None
    end).
  { intros table' i'. rewrite initialize_vector_unfold.
    change TOTAL_ENTRIES with (Z.of_nat 512).
    rewrite vector_loop_keeps by (unfold TOTAL_ENTRIES; lia). reflexivity. }
  split; [apply Hlookup|].
  apply map_eq. intros j. rewrite (Hlookup (initialize_vector table)).
  destruct (initialize_vector table !! j) as [address|] eqn:Hj; [done|].
  rewrite Hlookup in Hj. destruct (table !! j); [done|].
  case_decide; [done|reflexivity].
Qed.

(** The entries of the table lie between 0xA0000 and 0xA0FF8, are multiples
    of 8, and those of two different interruption numbers are at least 8
    bytes apart. *)
Theorem vector_entries_disjoint (i j a b : Z) :
  interruption_vector_address_table !! i = Some a ->
  interruption_vector_address_table !! j = Some b ->
  (0xA0000 <= a <= 0xA0FF8 /\ a mod 8 = 0)
  /\ (i <> j -> a + 8 <= b \/ b + 8 <= a).
Proof.
  unfold interruption_vector_address_table.
  rewrite !initialize_vector_unfold. change TOTAL_ENTRIES with (Z.of_nat 512).
  rewrite !vector_loop_keeps by (unfold TOTAL_ENTRIES; lia).
  rewrite !lookup_empty. unfold START_ADDRESS, INCREMENT.
  repeat case_decide; try done. intros [= <-] [= <-].
  split; [split|].
  - lia.
  - replace (655360 + 8 * i) with ((81920 + i) * 8) by lia. apply Z_mod_mult.
  - lia.
Qed.

End VectorTableMore.

Lemma vector_entries_disjoint_witness :
  Processor.interruption_vector_address_table !! 2 = Some (0xA0000 + 8 * 2)
  /\ Processor.interruption_vector_address_table !! 511 = Some (0xA0000 + 8 * 511)
  /\ (0xA0000 <= 0xA0000 + 8 * 2 <= 0xA0FF8 /\ (0xA0000 + 8 * 2) mod 8 = 0)
  /\ (2 <> 511 -> 0xA0000 + 8 * 2 + 8 <= 0xA0000 + 8 * 511
                  \/ 0xA0000 + 8 * 511 + 8 <= 0xA0000 + 8 * 2).
Proof.
  assert (H2 : Processor.interruption_vector_address_table !! 2 = Some (0xA0000 + 8 * 2))
    by (vm_compute; reflexivity).
  assert (H511 : Processor.interruption_vector_address_table !! 511
                 = Some (0xA0000 + 8 * 511)) by (vm_compute; reflexivity).
  split; [exact H2|]. split; [exact H511|].
  exact (vector_entries_disjoint 2 511 _ _ H2 H511).
Defined.

(** ** Reading back what was written to memory *)

Section MemoryReadBack.
Import Processor.

Variables R_StackPointer R_DataPointer R_ExtendedSegmentPointer : Z.

Local Abbreviation get_target_content_in_u64bit_t :=
  (Processor.get_target_content_in_u64bit_t
     R_StackPointer R_DataPointer R_ExtendedSegmentPointer).
Local Abbreviation set_target_content_in_u64bit_t :=
  (Processor.set_target_content_in_u64bit_t
     R_StackPointer R_DataPointer R_ExtendedSegmentPointer).

Lemma le_value_app (front back : list Z) :
  le_value (front ++ back) = le_value front + 256 ^ Z.of_nat (length front) * le_value back.
Proof.
  induction front as [|byte front IH]; cbn [app le_value length].
  - change (256 ^ Z.of_nat 0) with 1. lia.
  - rewrite IH, Nat2Z.inj_succ, Z.pow_succ_r by lia. lia.
Qed.

Lemma read_bytes_outside (Memory : gmap Z Z) (address : Z) (bytes : list Z)
    (from : Z) (count : nat) :
  address + Z.of_nat (length bytes) <= from ->
  read_bytes (store_bytes Memory address bytes) from count = read_bytes Memory from count.
Proof.
  revert from. induction count as [|count IH]; intros from Hfrom; cbn [read_bytes]; [done|].
  rewrite IH by lia. f_equal. apply store_bytes_outside. lia.
Qed.

(** Writing [val] to a memory operand of access width w and reading the
    operand back yields the w low bits of [val] in the low bits of the
    result, and above them the bytes the memory held behind the operand: the
    read always takes eight bytes.  At width 64 the read yields [val] modulo
    2^64. *)
Theorem memory_write_then_read (tag address val : Z) (CPU : processor) :
  tag = 0x08 \/ tag = 0x16 \/ tag = 0x32 \/ tag = 0x64 ->
  exists (CPU' : processor) (count : nat),
    set_target_content_in_u64bit_t (memory_operand tag address) val CPU = Ok CPU'
    /\ Z.of_nat count * 8 = width_bits tag
    /\ get_target_content_in_u64bit_t (memory_operand tag address) CPU'
       = Ok (val mod 2 ^ width_bits tag
             + 2 ^ width_bits tag
               * le_value (get_memory CPU (address + Z.of_nat count) (8 - count))).
Proof.
  intros Htag.
  destruct (actual_width_bits R_StackPointer R_DataPointer R_ExtendedSegmentPointer tag Htag)
    as (count & Hcount & Hset).
  exists (write_memory CPU address (le_bytes count val)), count.
  split; [apply Hset|]. split; [done|].
  assert (Hle : (count <= 8)%nat).
  { destruct Htag as [-> | [-> | [-> | ->]]]; cbn [width_bits] in Hcount; lia. }
  rewrite memory_read_eight_bytes. f_equal.
  unfold get_memory, write_memory. cbn [Memory with_Memory].
  replace 8%nat with (count + (8 - count))%nat at 1 by lia.
  rewrite read_bytes_app.
  rewrite <- (length_le_bytes count val) at 2. rewrite read_store_bytes.
  rewrite read_bytes_outside by (rewrite length_le_bytes; lia).
  rewrite le_value_app, le_value_le_bytes, length_le_bytes.
  rewrite <- Hcount.
  replace (2 ^ (Z.of_nat count * 8)) with (256 ^ Z.of_nat count); [done|].
  rewrite Z.mul_comm, Z.pow_mul_r by lia. reflexivity.
Qed.

End MemoryReadBack.

Lemma memory_write_then_read_witness :
  exists (CPU' : Processor.processor) (count : nat),
    sample_set (memory_operand 0x16 2) 0xABCDEF (machine [1; 2; 3; 4; 5; 6; 7; 8; 9; 10]) = Ok CPU'
    /\ Z.of_nat count * 8 = width_bits 0x16
    /\ sample_get (memory_operand 0x16 2) CPU'
       = Ok (0xABCDEF mod 2 ^ width_bits 0x16
             + 2 ^ width_bits 0x16
               * le_value (Processor.get_memory (machine [1; 2; 3; 4; 5; 6; 7; 8; 9; 10])
                             (2 + Z.of_nat count) (8 - count))).
Proof.
  apply (memory_write_then_read
           sample_R_StackPointer sample_R_DataPointer sample_R_ExtendedSegmentPointer
           0x16 2 0xABCDEF (machine [1; 2; 3; 4; 5; 6; 7; 8; 9; 10])).
  right. left. reflexivity.
Defined.

(** ** Register operands, from the assembler to the processor *)

Section RegisterAgreement.
Import Processor.

Variable exec_command : string -> list string -> Assembler.cmd_status.
Variables R_StackPointer R_DataPointer R_ExtendedSegmentPointer : Z.

Local Abbreviation get_target_content_in_u64bit_t :=
  (Processor.get_target_content_in_u64bit_t
     R_StackPointer R_DataPointer R_ExtendedSegmentPointer).
Local Abbreviation Target_new :=
  (Processor.Target_new R_StackPointer R_DataPointer R_ExtendedSegmentPointer).

(** The two sides agree on register operands: the three bytes
    [encode_target] emits for a register text are decoded by [Target::Target]
    into a register operand whose literal is the same text (blanks stripped,
    upper case) between angle brackets, and which can be read. *)
Theorem register_text_reaches_processor (T : string) (bytes : list Z)
    (this : Target) (CPU : processor) (rest : list Z) :
  let name := Assembler.capitalization (Assembler.remove_space T) in
  Assembler.is_valid_register name = true ->
  Assembler.encode_target exec_command [] T = Ok bytes ->
  instruction_stream CPU (bytes ++ rest) ->
  exists (target : Target) (value : Z),
    Target_new this CPU = Ok (target, advance CPU 3)
    /\ TargetType target = TypeRegister
    /\ literal target = "<" +:+ name +:+ ">"
    /\ get_target_content_in_u64bit_t target (advance CPU 3) = Ok value.
Proof.
  intros name Hregister. unfold Assembler.encode_target, Assembler.parse.
  fold name. rewrite Hregister. cbn [mbind result_bind Assembler.TargetType
                                     Assembler.register_target].
  apply is_valid_register_In in Hregister. revert Hregister.
  generalize name. clear name. intros name Hin Hbytes Hstream.
  vm_compute in Hin.
  repeat (destruct Hin as [<-|Hin];
    [ vm_compute in Hbytes; injection Hbytes as <-;
      cbn [app] in Hstream;
      apply pop8_stream in Hstream as [Hprefix Hstream];
      apply pop8_stream in Hstream as [Hwidth Hstream];
      apply pop8_stream in Hstream as [Hindex Hstream];
      unfold Processor.Target_new, do_setup_register_info;
      rewrite Hprefix; cbn [mbind result_bind do_decode_via_prefix];
      unfold do_setup_register_info;
      rewrite Hwidth; cbn [mbind result_bind];
      rewrite Hindex; cbn [mbind result_bind];
      rewrite !advance_advance;
      do 2 eexists; split; [reflexivity|]; split; [reflexivity|];
      split; [vm_compute; reflexivity|]; reflexivity
    |]).
  contradiction.
Qed.

End RegisterAgreement.

Lemma register_text_reaches_processor_witness :
  exists (target : Processor.Target) (value : Z),
    sample_Target_new blank_target (machine ([0x01; 0x16; 0x05] ++ []))
    = Ok (target, advance (machine ([0x01; 0x16; 0x05] ++ [])) 3)
    /\ Processor.TargetType target = Processor.TypeRegister
    /\ Processor.literal target
       = "<" +:+ Assembler.capitalization (Assembler.remove_space " %exr5") +:+ ">"
    /\ sample_get target (advance (machine ([0x01; 0x16; 0x05] ++ [])) 3) = Ok value.
Proof.
  apply (register_text_reaches_processor (bc_prints "")
           sample_R_StackPointer sample_R_DataPointer sample_R_ExtendedSegmentPointer
           " %exr5" [0x01; 0x16; 0x05] blank_target _ []).
  - reflexivity.
  - reflexivity.
  - stream_of_machine.
Defined.

(** ** The caller label of [debug::log] *)

Section Shortening.
Import Debug.

Lemma length_append (s t : string) :
  String.length (s +:+ t) = (String.length s + String.length t)%nat.
Proof. induction s as [|c s IH]; [done|]. rewrite append_cons. cbn [String.length]. by rewrite IH. Qed.

Lemma length_take_characters (count : nat) (s : string) :
  String.length (take_characters count s) = Nat.min count (String.length s).
Proof.
  revert s. induction count as [|count IH]; intros [|c s]; cbn; rewrite ?IH; done.
Qed.

Lemma length_drop_characters (count : nat) (s : string) :
  String.length (drop_characters count s) = (String.length s - count)%nat.
Proof.
  revert s. induction count as [|count IH]; intros [|c s]; cbn; rewrite ?IH; done.
Qed.

Lemma take_characters_all (count : nat) (s : string) :
  (String.length s <= count)%nat -> take_characters count s = s.
Proof.
  revert s. induction count as [|count IH]; intros [|c s] Hle; cbn [take_characters];
    try done; cbn [String.length] in Hle; [lia|].
  rewrite IH by lia. done.
Qed.

(** [shorten_caller_when_fit] never returns more than [max_length]
    characters, whenever the prefix and the ellipsis fit in [max_length] (as
    they do with the defaults 64, 5 and three dots): a text that fits is
    returned as it is; a longer one is cut down to exactly [max_length]
    characters, its first [prefix_length] characters, the ellipsis and its
    last characters.  No [substr] runs out of range. *)
Theorem shortened_caller_fits (input : string) (max_length prefix_length : Z)
    (ellipsis : string) :
  0 <= prefix_length ->
  prefix_length + size ellipsis <= max_length ->
  max_length < 2 ^ 64 -> size input < 2 ^ 64 ->
  exists output : string,
    shorten_caller_when_fit input max_length prefix_length ellipsis = Some output
    /\ size output = Z.min (size input) max_length
    /\ (size input <= max_length -> output = input)
    /\ (max_length < size input ->
        output = take_characters (Z.to_nat prefix_length) input +:+ ellipsis
                 +:+ drop_characters
                       (Z.to_nat (size input - (max_length - prefix_length - size ellipsis)))
                       input).
Proof.
  intros Hprefix Hroom Hmax Hsize. unfold shorten_caller_when_fit.
  assert (Hellipsis : 0 <= size ellipsis) by (unfold size; lia).
  destruct (Z.leb_spec (size input) max_length) as [Hshort|Hlong].
  { exists input. split; [done|]. split; [lia|]. split; [done|lia]. }
  set (suffix_length := max_length - prefix_length - size ellipsis).
  rewrite (u64_small (max_length - prefix_length)) by lia.
  rewrite (u64_small (max_length - prefix_length - size ellipsis)) by lia.
  fold suffix_length.
  rewrite (u64_small (size input - suffix_length)) by (subst suffix_length; lia).
  unfold substr.
  destruct (Z.ltb_spec (size input) 0) as [|_]; [unfold size in *; lia|].
  destruct (Z.ltb_spec (size input) (size input - suffix_length)) as [|_];
    [subst suffix_length; lia|].
  cbn [mbind option_bind drop_characters Z.to_nat].
  eexists. split; [reflexivity|].
  assert (Hdrop : take_characters (Z.to_nat suffix_length)
                    (drop_characters (Z.to_nat (size input - suffix_length)) input)
                  = drop_characters (Z.to_nat (size input - suffix_length)) input).
  { apply take_characters_all. rewrite length_drop_characters.
    unfold size in *. subst suffix_length. lia. }
  rewrite Hdrop.
  split; [|split; [lia|done]].
  unfold size. rewrite !length_append, length_take_characters, !length_drop_characters.
  unfold size in *. subst suffix_length. lia.
Qed.

End Shortening.

Lemma shortened_caller_fits_witness :
  let input :=
    "processor::__InstructionExecutorType__::add(processor::Target&, processor::Target&)" in
  exists output : string,
    Debug.shorten_caller_when_fit input 64 5 "..." = Some output
    /\ Debug.size output = Z.min (Debug.size input) 64
    /\ (Debug.size input <= 64 -> output = input)
    /\ (64 < Debug.size input ->
        output = Debug.take_characters (Z.to_nat 5) input +:+ "..."
                 +:+ Debug.drop_characters
                       (Z.to_nat (Debug.size input - (64 - 5 - Debug.size "..."))) input).
Proof.
  apply (shortened_caller_fits
           "processor::__InstructionExecutorType__::add(processor::Target&, processor::Target&)"
           64 5 "..."); vm_compute; congruence.
Defined.

(** ** Numbers the calculator prints *)

Section Numbers.
Import Assembler.

Lemma leading_digits_cons (base acc : Z) (c : ascii) (rest : string) :
  leading_digits base acc (String c rest) =
  match digit_value c with
  | Some d => if d <? base then leading_digits base (acc * base + d) rest else acc
  | None => acc
  end.
Proof. reflexivity. Qed.

Lemma leading_digits_end (base acc : Z) (tail : string) :
  ends_number base tail = true -> leading_digits base acc tail = acc.
Proof.
  destruct tail as [|c tail]; [done|]. unfold ends_number, is_digit_in.
  cbn [leading_digits]. destruct (digit_value c) as [d|]; [|done].
  by destruct (d <? base).
Qed.

Lemma leading_digits_decimal_acc (d : Decimal.uint) (p : positive) (tail : string) :
  ends_number 10 tail = true ->
  leading_digits 10 (Z.pos p) (DecimalString.NilEmpty.string_of_uint d +:+ tail)
  = Z.pos (Pos.of_uint_acc d p).
Proof.
  intros Htail. revert p.
  induction d as [|d IH|d IH|d IH|d IH|d IH|d IH|d IH|d IH|d IH|d IH]; intros p;
    cbn [DecimalString.NilEmpty.string_of_uint Pos.of_uint_acc];
    [by apply leading_digits_end|..];
    rewrite append_cons, leading_digits_cons; evaluate_character_tests;
    cbv beta iota; change (_ <? 10) with true; cbv iota;
    rewrite <- IH; f_equal; lia.
Qed.

Lemma leading_digits_decimal (d : Decimal.uint) (tail : string) :
  ends_number 10 tail = true ->
  leading_digits 10 0 (DecimalString.NilEmpty.string_of_uint d +:+ tail)
  = Z.of_N (Pos.of_uint d).
Proof.
  intros Htail.
  induction d as [|d IH|d IH|d IH|d IH|d IH|d IH|d IH|d IH|d IH|d IH];
    cbn [DecimalString.NilEmpty.string_of_uint Pos.of_uint];
    [by apply leading_digits_end|..];
    rewrite append_cons, leading_digits_cons; evaluate_character_tests;
    cbv beta iota; change (_ <? 10) with true; cbv iota;
    [exact IH|..]; by apply leading_digits_decimal_acc.
Qed.

(** In base 10 [scan_number] skips no "0x". *)
Lemma scan_number_decimal (nptr : string) :
  scan_number nptr 10 =
  let s := skip_spaces nptr in
  let '(negative, s) :=
    match s with
    | String c rest =>
        if Ascii.eqb c "-" then (true, rest)
        else if Ascii.eqb c "+" then (false, rest)
        else (false, s)
    | EmptyString => (false, s)
    end in
  (negative, leading_digits 10 0 s).
Proof.
  unfold scan_number. cbv zeta.
  destruct (match skip_spaces nptr with
            | String c rest => _ | EmptyString => _ end) as [negative s].
  by destruct s as [|z [|x [|d rest]]].
Qed.

Lemma scan_number_to_string (n : Z) (tail : string) :
  ends_number 10 tail = true ->
  scan_number (to_string n +:+ tail) 10 = (n <? 0, Z.abs n).
Proof.
  intros Htail. rewrite scan_number_decimal. unfold to_string.
  destruct n as [|p|p]; cbn [Z.to_int DecimalString.NilZero.string_of_int];
    [change (0 <? 0, Z.abs 0) with (false, 0)
    |change (Z.pos p <? 0, Z.abs (Z.pos p)) with (false, Z.pos p)
    |change (Z.neg p <? 0, Z.abs (Z.neg p)) with (true, Z.pos p)].
  - cbn [DecimalString.NilZero.string_of_uint DecimalString.NilEmpty.string_of_uint].
    rewrite append_cons. change ("" +:+ tail) with tail.
    cbn [skip_spaces]. evaluate_character_tests. cbv beta iota zeta.
    rewrite leading_digits_cons. evaluate_character_tests. cbv beta iota.
    change (0 <? 10) with true. cbv iota. f_equal. by apply leading_digits_end.
  - pose proof (DecimalPos.Unsigned.of_to p) as Hvalue.
    pose proof (DecimalPos.Unsigned.to_uint_nonnil p) as Hnonnil.
    assert (Hstring : DecimalString.NilZero.string_of_uint (Pos.to_uint p)
                      = DecimalString.NilEmpty.string_of_uint (Pos.to_uint p))
      by (by destruct (Pos.to_uint p)).
    rewrite Hstring.
    pose proof (leading_digits_decimal (Pos.to_uint p) tail Htail) as Hdigits.
    rewrite Hvalue in Hdigits. cbn [Z.of_N] in Hdigits. rewrite <- Hdigits.
    destruct (Pos.to_uint p); [done|..];
      cbn [DecimalString.NilEmpty.string_of_uint]; rewrite append_cons;
      cbn [skip_spaces]; evaluate_character_tests; cbv beta iota zeta; reflexivity.
  - pose proof (DecimalPos.Unsigned.of_to p) as Hvalue.
    pose proof (DecimalPos.Unsigned.to_uint_nonnil p) as Hnonnil.
    assert (Hstring : DecimalString.NilZero.string_of_uint (Pos.to_uint p)
                      = DecimalString.NilEmpty.string_of_uint (Pos.to_uint p))
      by (by destruct (Pos.to_uint p)).
    rewrite Hstring.
    pose proof (leading_digits_decimal (Pos.to_uint p) tail Htail) as Hdigits.
    rewrite Hvalue in Hdigits. cbn [Z.of_N] in Hdigits. rewrite <- Hdigits.
    rewrite append_cons. cbn [skip_spaces]. evaluate_character_tests.
    cbv beta iota zeta. reflexivity.
Qed.

Lemma strtoll_to_string (n : Z) (tail : string) :
  ends_number 10 tail = true ->
  strtoll (to_string n +:+ tail) 10 = Z.max LLONG_MIN (Z.min LLONG_MAX n).
Proof.
  intros Htail. unfold strtoll. rewrite (scan_number_to_string n tail Htail).
  unfold LLONG_MIN, LLONG_MAX. destruct (Z.ltb_spec n 0); lia.
Qed.

Lemma strtoull_to_string (n : Z) (tail : string) :
  ends_number 10 tail = true ->
  strtoull (to_string n +:+ tail) 10
  = if ULLONG_MAX <? Z.abs n then ULLONG_MAX else u64 n.
Proof.
  intros Htail. unfold strtoull. rewrite (scan_number_to_string n tail Htail).
  destruct (ULLONG_MAX <? Z.abs n) eqn:Hbig; [done|].
  apply Z.ltb_ge in Hbig. unfold ULLONG_MAX in Hbig.
  destruct (Z.ltb_spec n 0).
  - f_equal. lia.
  - rewrite Z.abs_eq by lia. symmetry. apply u64_small. lia.
Qed.

End Numbers.

(** ** The constant stored for a result of the calculator *)

Section ConstantValues.
Import Assembler.
Variable exec_command : string -> list string -> cmd_status.

(** What [encode_constant] stores when the calculator prints the number [n]. *)
Lemma stored_constant_of_output (expression tail : string) (n : Z) :
  execute_bc exec_command (process_base16 expression) 0 = Ok (to_string n +:+ tail) ->
  ends_number 10 tail = true ->
  stored_constant exec_command expression =
  let as_signed := Z.max LLONG_MIN (Z.min LLONG_MAX n) in
  let as_unsigned := if ULLONG_MAX <? Z.abs n then ULLONG_MAX else u64 n in
  if as_signed =? as_unsigned then Ok as_signed
  else match process_base16 expression with
       | String first _ => if Ascii.eqb first "-" then Ok as_signed else Ok as_unsigned
       | EmptyString => Throw UndefinedBehaviour
       end.
Proof.
  intros Hbc Htail. unfold stored_constant. rewrite Hbc. cbn [mbind result_bind].
  by rewrite (strtoll_to_string n tail Htail), (strtoull_to_string n tail Htail).
Qed.

(** The cases in which the value stored is the value the calculator
    prints. *)
Lemma stored_constant_faithful (expression tail : string) (n : Z) :
  execute_bc exec_command (process_base16 expression) 0 = Ok (to_string n +:+ tail) ->
  ends_number 10 tail = true ->
  0 <= n <= LLONG_MAX
  \/ (LLONG_MIN <= n < 0
      /\ exists rest : string, process_base16 expression = String "-" rest)
  \/ (LLONG_MAX < n <= ULLONG_MAX
      /\ exists (first : ascii) (rest : string),
           process_base16 expression = String first rest /\ first <> "-"%char) ->
  stored_constant exec_command expression = Ok n.
Proof.
  intros Hbc Htail Hcases.
  rewrite (stored_constant_of_output expression tail n Hbc Htail). cbv zeta.
  unfold LLONG_MIN, LLONG_MAX, ULLONG_MAX, u64 in *.
  destruct Hcases as [Hn | [[Hn (rest & ->)] | [Hn (first & rest & -> & Hfirst)]]].
  - rewrite Z.max_r, Z.min_r by lia.
    destruct (Z.ltb_spec (2 ^ 64 - 1) (Z.abs n)) as [|_]; [lia|].
    rewrite Z.mod_small by lia. by rewrite Z.eqb_refl.
  - rewrite Z.max_r, Z.min_r by lia.
    destruct (Z.ltb_spec (2 ^ 64 - 1) (Z.abs n)) as [|_]; [lia|].
    by destruct (n =? n mod 2 ^ 64).
  - rewrite Z.max_r, Z.min_l by lia.
    destruct (Z.ltb_spec (2 ^ 64 - 1) (Z.abs n)) as [|_]; [lia|].
    rewrite Z.mod_small by lia.
    destruct (Z.eqb_spec (2 ^ 63 - 1) n) as [|_]; [lia|].
    by destruct (Ascii.eqb_spec first "-").
Qed.

(** The value the calculator prints is the value stored, with the sign byte
    of its sign, whenever it fits: between 0 and 2^63 - 1; between -2^63 and
    -1 for an expression that starts with a minus sign; between 2^63 and
    2^64 - 1 for an expression that starts with another character. *)
Theorem constant_record_of_result (text expression tail : string) (n : Z) :
  constant_pattern text = Some expression ->
  execute_bc exec_command (process_base16 expression) 0 = Ok (to_string n +:+ tail) ->
  ends_number 10 tail = true ->
  (0 <= n <= LLONG_MAX ->
   encode_constant exec_command [] (constant_target text)
   = Ok (0x02 :: 0x00 :: le_bytes 8 n))
  /\ (LLONG_MIN <= n < 0 ->
      (exists rest : string, process_base16 expression = String "-" rest) ->
      encode_constant exec_command [] (constant_target text)
      = Ok (0x02 :: 0x01 :: le_bytes 8 n))
  /\ (LLONG_MAX < n <= ULLONG_MAX ->
      (exists (first : ascii) (rest : string),
         process_base16 expression = String first rest /\ first <> "-"%char) ->
      encode_constant exec_command [] (constant_target text)
      = Ok (0x02 :: 0x00 :: le_bytes 8 n)).
Proof.
  intros Hpattern Hbc Htail.
  rewrite (encode_constant_stored _ _ _ Hpattern).
  pose proof (stored_constant_faithful expression tail n Hbc Htail) as Hstored.
  unfold LLONG_MIN, LLONG_MAX, ULLONG_MAX in *.
  split; [|split].
  - intros Hn. rewrite Hstored by tauto. cbn [mbind result_bind].
    destruct (Z.ltb_spec n 0) as [|_]; [lia|done].
  - intros Hn Hminus. rewrite Hstored by tauto. cbn [mbind result_bind].
    destruct (Z.ltb_spec n 0) as [_|]; [done|lia].
  - intros Hn Hother. rewrite Hstored by tauto. cbn [mbind result_bind].
    destruct (Z.ltb_spec n 0) as [|_]; [lia|done].
Qed.

(** Where the stored value is not the value printed.  The sign byte follows
    the first character of the expression, not the sign of the result: a
    negative result of an expression that does not start with a minus sign is
    stored as the unsigned number n + 2^64 under the sign byte 00; and results
    out of range are clamped, to 2^63 - 1 or -2^63 for an expression that
    starts with a minus sign, to 2^64 - 1 above that for any other. *)
Theorem constant_sign_follows_text (text expression tail : string) (n : Z) :
  constant_pattern text = Some expression ->
  execute_bc exec_command (process_base16 expression) 0 = Ok (to_string n +:+ tail) ->
  ends_number 10 tail = true ->
  ((exists (first : ascii) (rest : string),
      process_base16 expression = String first rest /\ first <> "-"%char) ->
   (LLONG_MIN <= n < 0 ->
    encode_constant exec_command [] (constant_target text)
    = Ok (0x02 :: 0x00 :: le_bytes 8 (n + 2 ^ 64)))
   /\ (ULLONG_MAX < n ->
       encode_constant exec_command [] (constant_target text)
       = Ok (0x02 :: 0x00 :: le_bytes 8 ULLONG_MAX)))
  /\ ((exists rest : string, process_base16 expression = String "-" rest) ->
      (LLONG_MAX < n ->
       encode_constant exec_command [] (constant_target text)
       = Ok (0x02 :: 0x00 :: le_bytes 8 LLONG_MAX))
      /\ (n < LLONG_MIN ->
          encode_constant exec_command [] (constant_target text)
          = Ok (0x02 :: 0x01 :: le_bytes 8 LLONG_MIN))).
Proof.
  intros Hpattern Hbc Htail.
  rewrite (encode_constant_stored _ _ _ Hpattern).
  rewrite (stored_constant_of_output expression tail n Hbc Htail). cbv zeta.
  unfold LLONG_MIN, LLONG_MAX, ULLONG_MAX, u64.
  split.
  - intros (first & rest & -> & Hfirst).
    destruct (Ascii.eqb_spec first "-") as [|_]; [done|]. split.
    + intros Hn. rewrite Z.max_r, Z.min_r by lia.
      destruct (Z.ltb_spec (2 ^ 64 - 1) (Z.abs n)) as [|_]; [lia|].
      assert (Hunsigned : n mod 2 ^ 64 = n + 2 ^ 64).
      { symmetry. apply Z.mod_unique with (-1); lia. }
      rewrite Hunsigned.
      destruct (Z.eqb_spec n (n + 2 ^ 64)) as [|_]; [lia|]. cbn [mbind result_bind].
      destruct (Z.ltb_spec (n + 2 ^ 64) 0) as [|_]; [lia|done].
    + intros Hn. rewrite Z.max_r, Z.min_l by lia.
      destruct (Z.ltb_spec (2 ^ 64 - 1) (Z.abs n)) as [_|]; [|lia].
      reflexivity.
  - intros (rest & ->). change (Ascii.eqb "-" "-") with true. split.
    + intros Hn. rewrite Z.max_r, Z.min_l by lia.
      destruct (Z.ltb_spec (2 ^ 64 - 1) (Z.abs n)) as [|Hsmall].
      * reflexivity.
      * rewrite Z.mod_small by lia.
        destruct (Z.eqb_spec (2 ^ 63 - 1) n) as [|_]; [lia|]. reflexivity.
    + intros Hn. rewrite Z.min_r, Z.max_l by lia.
      destruct (Z.ltb_spec (2 ^ 64 - 1) (Z.abs n)) as [|_].
      * reflexivity.
      * assert (n mod 2 ^ 64 <> - 2 ^ 63) by (pose proof (Z.mod_pos_bound n (2 ^ 64)); lia).
        destruct (Z.eqb_spec (- 2 ^ 63) (n mod 2 ^ 64)) as [|_]; [lia|]. reflexivity.
Qed.

End ConstantValues.

Lemma constant_record_of_result_witness :
  (0 <= -32 <= LLONG_MAX ->
   Assembler.encode_constant (bc_prints (to_string (-32) +:+ newline)) []
     (Assembler.constant_target "$(-32)")
   = Ok (0x02 :: 0x00 :: le_bytes 8 (-32)))
  /\ (LLONG_MIN <= -32 < 0 ->
      (exists rest : string, Assembler.process_base16 "-32" = String "-" rest) ->
      Assembler.encode_constant (bc_prints (to_string (-32) +:+ newline)) []
        (Assembler.constant_target "$(-32)")
      = Ok (0x02 :: 0x01 :: le_bytes 8 (-32)))
  /\ (LLONG_MAX < -32 <= ULLONG_MAX ->
      (exists (first : ascii) (rest : string),
         Assembler.process_base16 "-32" = String first rest /\ first <> "-"%char) ->
      Assembler.encode_constant (bc_prints (to_string (-32) +:+ newline)) []
        (Assembler.constant_target "$(-32)")
      = Ok (0x02 :: 0x00 :: le_bytes 8 (-32))).
Proof.
  apply (constant_record_of_result (bc_prints (to_string (-32) +:+ newline))
           "$(-32)" "-32" newline (-32)); reflexivity.
Defined.

Lemma constant_sign_follows_text_witness :
  ((exists (first : ascii) (rest : string),
      Assembler.process_base16 "0-1" = String first rest /\ first <> "-"%char) ->
   (LLONG_MIN <= -1 < 0 ->
    Assembler.encode_constant (bc_prints (to_string (-1) +:+ newline)) []
      (Assembler.constant_target "$(0-1)")
    = Ok (0x02 :: 0x00 :: le_bytes 8 (-1 + 2 ^ 64)))
   /\ (ULLONG_MAX < -1 ->
       Assembler.encode_constant (bc_prints (to_string (-1) +:+ newline)) []
         (Assembler.constant_target "$(0-1)")
       = Ok (0x02 :: 0x00 :: le_bytes 8 ULLONG_MAX)))
  /\ ((exists rest : string, Assembler.process_base16 "0-1" = String "-" rest) ->
      (LLONG_MAX < -1 ->
       Assembler.encode_constant (bc_prints (to_string (-1) +:+ newline)) []
         (Assembler.constant_target "$(0-1)")
       = Ok (0x02 :: 0x00 :: le_bytes 8 LLONG_MAX))
      /\ (-1 < LLONG_MIN ->
          Assembler.encode_constant (bc_prints (to_string (-1) +:+ newline)) []
            (Assembler.constant_target "$(0-1)")
          = Ok (0x02 :: 0x01 :: le_bytes 8 LLONG_MIN))).
Proof.
  apply (constant_sign_follows_text (bc_prints (to_string (-1) +:+ newline))
           "$(0-1)" "0-1" newline (-1)); reflexivity.
Defined.

(** ** Texts without hexadecimal literal *)

Section PlainTexts.
Import Assembler.

Lemma string_forallb_cons (p : ascii -> bool) (c : ascii) (s : string) :
  string_forallb p (String c s) = p c && string_forallb p s.
Proof. reflexivity. Qed.

Lemma string_forallb_app (p : ascii -> bool) (s t : string) :
  string_forallb p (s +:+ t) = string_forallb p s && string_forallb p t.
Proof.
  induction s as [|c s IH]; [done|].
  by rewrite append_cons, !string_forallb_cons, IH, andb_assoc.
Qed.

Lemma remove_space_app (s t : string) :
  remove_space (s +:+ t) = remove_space s +:+ remove_space t.
Proof.
  induction s as [|c s IH]; [done|]. rewrite append_cons. cbn [remove_space].
  destruct (Ascii.eqb c " "); [done|]. by rewrite append_cons, IH.
Qed.

Lemma capitalization_app (s t : string) :
  capitalization (s +:+ t) = capitalization s +:+ capitalization t.
Proof.
  unfold capitalization. induction s as [|c s IH]; [done|].
  rewrite append_cons. cbn [string_map]. by rewrite append_cons, IH.
Qed.

Lemma plain_character (c : ascii) :
  plain c = true ->
  toupper c = c /\ Ascii.eqb c " " = false /\ Ascii.eqb c "X" = false
  /\ Ascii.eqb c "x" = false /\ regex_dot c = true.
Proof.
  destruct c as [[] [] [] [] [] [] [] []]; intros Hplain; vm_compute in Hplain;
    try discriminate Hplain; vm_compute; done.
Qed.

Lemma plain_text (s : string) :
  string_forallb plain s = true ->
  remove_space s = s /\ capitalization s = s /\ string_forallb regex_dot s = true.
Proof.
  unfold capitalization. induction s as [|c s IH]; [done|].
  rewrite string_forallb_cons. intros [Hc Hs]%andb_prop.
  destruct (plain_character c Hc) as (Hupper & Hblank & _ & _ & Hdot).
  destruct (IH Hs) as (IH1 & IH2 & IH3).
  cbn [remove_space string_map]. rewrite string_forallb_cons.
  by rewrite Hblank, Hupper, Hdot, IH1, IH2, IH3.
Qed.

Lemma plain_text_no_upper_marker (fuel : nat) (replacement s : string) :
  string_forallb plain s = true ->
  replace_from fuel "0X" replacement s = s.
Proof.
  revert s. induction fuel as [|fuel IH]; intros s Hs; [done|].
  destruct s as [|c s]; [done|].
  rewrite string_forallb_cons in Hs. apply andb_prop in Hs as [Hc Hs].
  cbn [replace_from].
  assert (Hnone : strip_prefix "0X" (String c s) = None).
  { cbn [strip_prefix]. destruct (Ascii.eqb "0" c); [|done].
    destruct s as [|c' s]; [done|].
    rewrite string_forallb_cons in Hs. apply andb_prop in Hs as [Hc' _].
    destruct (plain_character c' Hc') as (_ & _ & HX & _).
    rewrite Ascii.eqb_sym. by rewrite HX. }
  rewrite Hnone. by rewrite IH.
Qed.

Lemma plain_text_no_literal (fuel : nat) (s : string) :
  string_forallb plain s = true -> base16_matches fuel s = [].
Proof.
  revert s. induction fuel as [|fuel IH]; intros s Hs; [done|].
  destruct s as [|c s]; [done|].
  rewrite string_forallb_cons in Hs. apply andb_prop in Hs as [Hc Hs].
  cbn [base16_matches].
  assert (Hnone : base16_pattern (String c s) = None).
  { unfold base16_pattern. cbn [strip_prefix]. destruct (Ascii.eqb "0" c); [|done].
    destruct s as [|c' s]; [done|].
    rewrite string_forallb_cons in Hs. apply andb_prop in Hs as [Hc' _].
    destruct (plain_character c' Hc') as (_ & _ & _ & Hx & _).
    rewrite Ascii.eqb_sym. by rewrite Hx. }
  rewrite Hnone. by apply IH.
Qed.

(** A text without hexadecimal literal goes to the calculator as it is. *)
Lemma process_base16_plain (s : string) :
  string_forallb plain s = true -> process_base16 s = s.
Proof.
  intros Hs. unfold process_base16, replace_all.
  rewrite (plain_text_no_upper_marker _ _ s Hs).
  by rewrite (plain_text_no_literal _ s Hs).
Qed.

Lemma plain_decimal_digits (d : Decimal.uint) :
  string_forallb plain (DecimalString.NilEmpty.string_of_uint d) = true.
Proof.
  induction d; cbn [DecimalString.NilEmpty.string_of_uint]; [done|..];
    rewrite string_forallb_cons; evaluate_character_tests; exact IHd.
Qed.

Lemma plain_to_string (n : Z) : string_forallb plain (to_string n) = true.
Proof.
  unfold to_string.
  assert (Hdigits : forall d, string_forallb plain (DecimalString.NilZero.string_of_uint d) = true).
  { intros d. destruct d; try apply (plain_decimal_digits (_ d)); done. }
  destruct (Z.to_int n) as [d|d]; cbn [DecimalString.NilZero.string_of_int];
    [apply Hdigits|].
  rewrite string_forallb_cons. evaluate_character_tests. apply Hdigits.
Qed.

End PlainTexts.

(** ** Hexadecimal literals *)

Section HexadecimalLiterals.
Import Assembler.

(** The digits [to_hex_upper] prints. *)
Local Abbreviation upper_digits d :=
  (string_map toupper (HexadecimalString.NilEmpty.string_of_uint d)).

Lemma leading_digits_hexadecimal_acc (d : Hexadecimal.uint) (p : positive) (tail : string) :
  ends_number 16 tail = true ->
  leading_digits 16 (Z.pos p) (upper_digits d +:+ tail) = Z.pos (Pos.of_hex_uint_acc d p).
Proof.
  intros Htail. revert p.
  induction d; intros p;
    cbn [HexadecimalString.NilEmpty.string_of_uint string_map Pos.of_hex_uint_acc];
    [by apply leading_digits_end|..];
    rewrite append_cons, leading_digits_cons; evaluate_character_tests;
    change (_ <? 16) with true; cbv iota;
    rewrite <- IHd; f_equal; lia.
Qed.

Lemma leading_digits_hexadecimal (d : Hexadecimal.uint) (tail : string) :
  ends_number 16 tail = true ->
  leading_digits 16 0 (upper_digits d +:+ tail) = Z.of_N (Pos.of_hex_uint d).
Proof.
  intros Htail.
  induction d;
    cbn [HexadecimalString.NilEmpty.string_of_uint string_map Pos.of_hex_uint];
    [by apply leading_digits_end|..];
    rewrite append_cons, leading_digits_cons; evaluate_character_tests;
    change (_ <? 16) with true; cbv iota;
    [exact IHd|..]; by apply leading_digits_hexadecimal_acc.
Qed.

Lemma span_upper_digits (d : Hexadecimal.uint) :
  span (is_digit_in 16) (upper_digits d) = (upper_digits d, EmptyString).
Proof.
  induction d; cbn [HexadecimalString.NilEmpty.string_of_uint string_map span];
    [done|..]; evaluate_character_tests; by rewrite IHd.
Qed.

Lemma plain_upper_digits (d : Hexadecimal.uint) :
  string_forallb plain (upper_digits d) = true.
Proof.
  induction d; cbn [HexadecimalString.NilEmpty.string_of_uint string_map]; [done|..];
    rewrite string_forallb_cons; evaluate_character_tests; exact IHd.
Qed.

(** [to_hex_upper] prints at least one digit, and the digits of its
    argument. *)
Lemma to_hex_upper_digits (value : Z) :
  0 <= value ->
  exists (first : ascii) (d d' : Hexadecimal.uint),
    to_hex_upper value = upper_digits d
    /\ upper_digits d = String first (upper_digits d')
    /\ is_digit_in 16 first = true
    /\ Z.of_N (Pos.of_hex_uint d) = value.
Proof.
  intros Hvalue. unfold to_hex_upper.
  pose proof (HexadecimalN.Unsigned.of_to (Z.to_N value)) as Hof_to.
  unfold N.of_hex_uint in Hof_to.
  set (d := N.to_hex_uint (Z.to_N value)) in *.
  assert (Hnonnil : d <> Hexadecimal.Nil).
  { subst d. destruct (Z.to_N value) as [|p]; [done|].
    apply HexadecimalPos.Unsigned.to_uint_nonnil. }
  assert (Hstring : HexadecimalString.NilZero.string_of_uint d
                    = HexadecimalString.NilEmpty.string_of_uint d) by (by destruct d).
  rewrite Hstring.
  assert (Hfirst : exists (first : ascii) (d' : Hexadecimal.uint),
            upper_digits d = String first (upper_digits d')
            /\ is_digit_in 16 first = true).
  { destruct d as [|d'|d'|d'|d'|d'|d'|d'|d'|d'|d'|d'|d'|d'|d'|d'|d']; [done|..];
      eexists _, d'; cbn [HexadecimalString.NilEmpty.string_of_uint string_map];
      (split; [reflexivity|]); vm_compute; reflexivity. }
  destruct Hfirst as (first & d' & Hfirst & Hdigit).
  exists first, d, d'. split; [done|]. split; [done|]. split; [done|].
  rewrite Hof_to. lia.
Qed.

Lemma replace_from_hit (fuel : nat) (target replacement input rest : string) :
  strip_prefix target input = Some rest ->
  replace_from (S fuel) target replacement input
  = replacement +:+ replace_from fuel target replacement rest.
Proof. intros Hhit. cbn [replace_from]. by rewrite Hhit. Qed.

Lemma replace_from_empty (fuel : nat) (c : ascii) (target replacement : string) :
  replace_from fuel (String c target) replacement EmptyString = EmptyString.
Proof. by destruct fuel. Qed.

Lemma replace_all_nonempty (c : ascii) (target replacement input : string) :
  replace_all (String c target) replacement input
  = replace_from (S (String.length input)) (String c target) replacement input.
Proof. reflexivity. Qed.

Lemma strip_prefix_app (p s : string) : strip_prefix p (p +:+ s) = Some s.
Proof.
  induction p as [|c p IH]; [by destruct s|].
  rewrite append_cons. cbn [strip_prefix]. by rewrite Ascii.eqb_refl.
Qed.

(** [strtoull] in base 16 on a literal of upper-case digits. *)
Lemma strtoull_upper_digits (first : ascii) (d d' : Hexadecimal.uint) :
  upper_digits d = String first (upper_digits d') ->
  is_digit_in 16 first = true ->
  Z.of_N (Pos.of_hex_uint d) <= ULLONG_MAX ->
  strtoull ("0x" +:+ upper_digits d) 16 = Z.of_N (Pos.of_hex_uint d).
Proof.
  intros Hfirst Hdigit Hvalue.
  unfold strtoull, scan_number. rewrite Hfirst, !append_cons.
  change ("" +:+ String first (upper_digits d')) with (String first (upper_digits d')).
  cbn [skip_spaces]. evaluate_character_tests. rewrite Hdigit.
  change ((16 =? 16) && true && (false || false || true)) with true.
  rewrite Z.eqb_refl. cbn [andb orb]. cbv iota.
  rewrite <- Hfirst, <- (append_empty_r (upper_digits d)).
  rewrite leading_digits_hexadecimal by done.
  destruct (Z.ltb_spec ULLONG_MAX (Z.of_N (Pos.of_hex_uint d))) as [|_]; [lia|]. reflexivity.
Qed.

(** The hexadecimal literal the disassembler prints, in the upper case
    [parse] puts it in, is replaced by the decimal of its value. *)
Lemma process_base16_literal (value : Z) :
  0 <= value <= ULLONG_MAX ->
  process_base16 ("0X" +:+ to_hex_upper value) = to_string value.
Proof.
  intros Hvalue.
  destruct (to_hex_upper_digits value) as (first & d & d' & -> & Hfirst & Hdigit & Hd); [lia|].
  unfold process_base16.
  assert (Hmarker : replace_all "0X" "0x" ("0X" +:+ upper_digits d) = "0x" +:+ upper_digits d).
  { rewrite replace_all_nonempty.
    rewrite (replace_from_hit _ _ _ _ _ (strip_prefix_app "0X" (upper_digits d))).
    by rewrite (plain_text_no_upper_marker _ _ _ (plain_upper_digits d)). }
  rewrite Hmarker.
  assert (Hmatches : base16_matches (S (String.length ("0x" +:+ upper_digits d)))
                       ("0x" +:+ upper_digits d) = ["0x" +:+ upper_digits d]).
  { cbn [base16_matches]. unfold base16_pattern.
    rewrite strip_prefix_app, span_upper_digits.
    rewrite Hfirst. cbv iota. by f_equal. }
  rewrite Hmatches. cbn [map fold_left].
  assert (Hnumber : strtoull ("0x" +:+ upper_digits d) 16 = value).
  { rewrite <- Hd. apply (strtoull_upper_digits first d d' Hfirst Hdigit). lia. }
  rewrite Hnumber.
  change ("0x" +:+ upper_digits d) with (String "0" ("x" +:+ upper_digits d)) at 1.
  rewrite replace_all_nonempty.
  change (String "0" ("x" +:+ upper_digits d)) with ("0x" +:+ upper_digits d).
  rewrite <- (append_empty_r ("0x" +:+ upper_digits d)) at 3.
  rewrite (replace_from_hit _ _ _ _ _ (strip_prefix_app _ _)).
  change ("0x" +:+ upper_digits d) with (String "0" ("x" +:+ upper_digits d)).
  by rewrite replace_from_empty, append_empty_r.
Qed.

End HexadecimalLiterals.

(** ** From the disassembly back to the bytes *)

Section Reassembly.
Import Assembler.
Variable exec_command : string -> list string -> cmd_status.

Lemma to_string_first (n : Z) :
  exists (first : ascii) (rest : string),
    to_string n = String first rest /\ (first = "-"%char <-> n < 0).
Proof.
  unfold to_string. destruct n as [|p|p]; cbn [Z.to_int DecimalString.NilZero.string_of_int].
  - eexists _, _. split; [reflexivity|]. split; [discriminate|lia].
  - pose proof (DecimalPos.Unsigned.to_uint_nonnil p) as Hnonnil.
    destruct (Pos.to_uint p); [done|..];
      eexists _, _; (split; [reflexivity|]); split; (discriminate || lia).
  - eexists _, _. split; [reflexivity|]. split; [lia|done].
Qed.

(** The text [decode_constant] prints for a stored value is a constant
    operand; its expression, once the hexadecimal literal is replaced, is the
    decimal of the value. *)
Lemma canonical_constant_parsed (value : Z) :
  LLONG_MIN <= value <= ULLONG_MAX ->
  exists expression : string,
    capitalization (remove_space (canonical_constant value))
    = "$(" +:+ expression +:+ ")"
    /\ constant_pattern ("$(" +:+ expression +:+ ")") = Some expression
    /\ process_base16 expression = to_string value.
Proof.
  intros Hvalue. unfold canonical_constant.
  assert (Hpattern : forall expression : string,
            string_forallb regex_dot expression = true ->
            constant_pattern ("$(" +:+ expression +:+ ")") = Some expression).
  { intros expression Hdot. unfold constant_pattern.
    rewrite strip_prefix_app, unsnoc_snoc, Hdot. reflexivity. }
  destruct (Z.ltb_spec value 0) as [Hnegative|Hpositive].
  - exists (to_string value).
    pose proof (plain_to_string value) as Hplain.
    destruct (plain_text _ Hplain) as (Hspace & Hcase & Hdot).
    split; [|split].
    + rewrite !remove_space_app, !capitalization_app, Hspace, Hcase. reflexivity.
    + by apply Hpattern.
    + by apply process_base16_plain.
  - exists ("0X" +:+ to_hex_upper value).
    destruct (to_hex_upper_digits value Hpositive) as (first & d & d' & Hdigits & _).
    pose proof (plain_upper_digits d) as Hplain. rewrite <- Hdigits in Hplain.
    destruct (plain_text _ Hplain) as (Hspace & Hcase & Hdot).
    split; [|split].
    + rewrite !remove_space_app, !capitalization_app, Hspace, Hcase. reflexivity.
    + apply Hpattern. by rewrite string_forallb_app, Hdot.
    + apply process_base16_literal. lia.
Qed.

(** The other round trip, for constants.  A constant record whose sign byte
    is the sign of its value is disassembled into a text that assembles back
    into the same record, on a host whose calculator prints back a decimal
    number it is given. *)
Theorem disassembled_constant_reassembles (value : Z) (tail : string) :
  LLONG_MIN <= value <= ULLONG_MAX ->
  execute_bc exec_command (to_string value) 0 = Ok (to_string value +:+ tail) ->
  ends_number 10 tail = true ->
  let record := 0x02 :: (if value <? 0 then 0x01 else 0x00) :: le_bytes 8 value in
  exists text : string,
    disassemble record = Ok text
    /\ encode_target exec_command [] text = Ok record.
Proof.
  intros Hvalue Hbc Htail record. exists (canonical_constant value). split.
  - unfold disassemble, record. rewrite decode_as_constant.
    rewrite <- (app_nil_r (le_bytes 8 value)).
    rewrite (decode_constant_stored value [] []) by done.
    cbn [mbind result_bind app printed fold_right]. by rewrite append_empty_r.
  - destruct (canonical_constant_parsed value Hvalue)
      as (expression & Hnormalised & Hpattern & Hprocessed).
    unfold encode_target.
    assert (Hparse : parse (canonical_constant value)
                     = Ok (constant_target ("$(" +:+ expression +:+ ")"))).
    { rewrite <- Hnormalised. apply parse_constant with expression.
      - by rewrite Hnormalised.
      - rewrite Hnormalised. by apply constant_pattern_not_register with expression. }
    rewrite Hparse. cbn [mbind result_bind TargetType constant_target].
    rewrite (encode_constant_stored _ _ _ Hpattern).
    rewrite <- Hprocessed in Hbc at 1.
    rewrite (stored_constant_faithful exec_command expression tail value Hbc Htail).
    { reflexivity. }
    rewrite Hprocessed.
    destruct (to_string_first value) as (first & rest & Hfirst & Hminus).
    unfold LLONG_MIN, LLONG_MAX, ULLONG_MAX in *.
    destruct (Z.lt_ge_cases value 0); [right; left|].
    + split; [lia|]. exists rest. rewrite Hfirst. f_equal. by apply Hminus.
    + destruct (Z.le_gt_cases value (2 ^ 63 - 1)); [left; lia|right; right].
      split; [lia|]. exists first, rest. split; [done|]. intros Heq. apply Hminus in Heq. lia.
Qed.

End Reassembly.

Lemma disassembled_constant_reassembles_witness :
  exists text : string,
    Assembler.disassemble (0x02 :: (if 0x1F <? 0 then 0x01 else 0x00) :: le_bytes 8 0x1F)
    = Ok text
    /\ Assembler.encode_target (bc_prints (to_string 0x1F +:+ newline)) [] text
       = Ok (0x02 :: (if 0x1F <? 0 then 0x01 else 0x00) :: le_bytes 8 0x1F).
Proof.
  apply (disassembled_constant_reassembles (bc_prints (to_string 0x1F +:+ newline))
           0x1F newline); [vm_compute; split; discriminate | reflexivity | reflexivity].
Defined.

(** ** A literal inside a longer literal *)

Section LiteralCollision.
Import Assembler.

(** [replace_from] needs no more fuel than the input has characters, one
    more for the end of the input. *)
Lemma replace_from_enough (c : ascii) (target replacement : string) (fuel fuel' : nat)
    (input : string) :
  (String.length input < fuel)%nat -> (String.length input < fuel')%nat ->
  replace_from fuel (String c target) replacement input
  = replace_from fuel' (String c target) replacement input.
Proof.
  revert fuel' input. induction fuel as [|fuel IH]; intros fuel' input Hfuel Hfuel'; [lia|].
  destruct fuel' as [|fuel']; [lia|]. cbn [replace_from].
  destruct (strip_prefix (String c target) input) as [rest|] eqn:Hprefix.
  - apply strip_prefix_Some in Hprefix. subst input.
    rewrite length_append in Hfuel, Hfuel'. cbn [String.length] in Hfuel, Hfuel'.
    f_equal. apply IH; lia.
  - destruct input as [|c' input]; [done|]. cbn [String.length] in Hfuel, Hfuel'.
    f_equal. apply IH; lia.
Qed.

Lemma replace_all_hit (c : ascii) (target replacement rest : string) :
  replace_all (String c target) replacement (String c target +:+ rest)
  = replacement +:+ replace_all (String c target) replacement rest.
Proof.
  rewrite !replace_all_nonempty.
  rewrite (replace_from_hit _ _ _ _ _ (strip_prefix_app _ _)). f_equal.
  apply replace_from_enough; rewrite ?length_append; cbn [String.length]; lia.
Qed.

Lemma replace_all_skip (c c' : ascii) (target replacement rest : string) :
  strip_prefix (String c target) (String c' rest) = None ->
  replace_all (String c target) replacement (String c' rest)
  = String c' (replace_all (String c target) replacement rest).
Proof.
  intros Hmiss. rewrite !replace_all_nonempty.
  cbn [String.length replace_from]. by rewrite Hmiss.
Qed.

(** A marker of hexadecimal literals, "0x" or "0X", starts nowhere in a
    plain text, nor on its last character when what follows does not start
    with the x. *)
Lemma replace_all_plain_prefix (x : ascii) (target replacement prefix rest : string) :
  plain x = false ->
  string_forallb plain prefix = true ->
  match rest with String c _ => Ascii.eqb x c = false | EmptyString => True end ->
  replace_all (String "0" (String x target)) replacement (prefix +:+ rest)
  = prefix +:+ replace_all (String "0" (String x target)) replacement rest.
Proof.
  intros Hx Hplain Hrest. induction prefix as [|c prefix IH]; [done|].
  rewrite string_forallb_cons in Hplain. apply andb_prop in Hplain as [Hc Hplain].
  rewrite !append_cons. rewrite replace_all_skip; [by rewrite IH|].
  cbn [strip_prefix]. destruct (Ascii.eqb "0" c); [|done].
  destruct prefix as [|c' prefix].
  - change ("" +:+ rest) with rest. destruct rest as [|c' rest]; [done|]. by rewrite Hrest.
  - rewrite append_cons.
    rewrite string_forallb_cons in Hplain. apply andb_prop in Hplain as [Hc' _].
    destruct (Ascii.eqb_spec x c') as [->|]; [congruence|done].
Qed.

Lemma replace_all_plain (x : ascii) (target replacement text : string) :
  plain x = false ->
  string_forallb plain text = true ->
  replace_all (String "0" (String x target)) replacement text = text.
Proof.
  intros Hx Hplain.
  rewrite <- (append_empty_r text) at 1.
  rewrite (replace_all_plain_prefix x target replacement text "" Hx Hplain I).
  apply append_empty_r.
Qed.

Lemma base16_matches_enough (fuel fuel' : nat) (s : string) :
  (String.length s < fuel)%nat -> (String.length s < fuel')%nat ->
  base16_matches fuel s = base16_matches fuel' s.
Proof.
  revert fuel' s. induction fuel as [|fuel IH]; intros fuel' s Hfuel Hfuel'; [lia|].
  destruct fuel' as [|fuel']; [lia|]. cbn [base16_matches].
  destruct (base16_pattern s) as [[found others]|] eqn:Hpattern.
  - f_equal. apply IH.
    all: unfold base16_pattern in Hpattern;
      destruct (strip_prefix "0x" s) as [rest|] eqn:Hprefix; [|done];
      apply strip_prefix_Some in Hprefix; subst s;
      destruct (span (is_digit_in 16) rest) as [digits others'] eqn:Hspan;
      assert (Hlength : (String.length others' <= String.length rest)%nat);
      [ clear -Hspan; revert digits others' Hspan;
        induction rest as [|c rest IHrest]; intros digits others' Hspan; cbn [span] in Hspan;
        [injection Hspan as <- <-; done|];
        destruct (is_digit_in 16 c);
        [ destruct (span (is_digit_in 16) rest) as [taken left'] eqn:Hrest;
          injection Hspan as <- <-; specialize (IHrest _ _ eq_refl); cbn [String.length]; lia
        | injection Hspan as <- <-; done ]
      | destruct digits; [done|]; injection Hpattern as <- <-;
        rewrite length_append in *; cbn [String.length] in *; lia ].
  - destruct s as [|c s]; [done|]. cbn [String.length] in Hfuel, Hfuel'. apply IH; lia.
Qed.

Lemma span_digits (digits rest : string) :
  string_forallb (is_digit_in 16) digits = true ->
  match rest with String c _ => is_digit_in 16 c = false | EmptyString => True end ->
  span (is_digit_in 16) (digits +:+ rest) = (digits, rest).
Proof.
  intros Hdigits Hrest. induction digits as [|c digits IH].
  - change ("" +:+ rest) with rest. destruct rest as [|c rest]; [done|].
    cbn [span]. by rewrite Hrest.
  - rewrite string_forallb_cons in Hdigits. apply andb_prop in Hdigits as [Hc Hdigits].
    rewrite append_cons. cbn [span]. by rewrite Hc, IH.
Qed.


Local Abbreviation upper_digits d :=
  (string_map toupper (HexadecimalString.NilEmpty.string_of_uint d)).

Lemma digits_upper_digits (d : Hexadecimal.uint) :
  string_forallb (is_digit_in 16) (upper_digits d) = true.
Proof.
  induction d; cbn [HexadecimalString.NilEmpty.string_of_uint string_map]; [done|..];
    rewrite string_forallb_cons; evaluate_character_tests; exact IHd.
Qed.

Lemma string_forallb_and (p q : ascii -> bool) (s : string) :
  string_forallb (fun c => p c && q c) s = string_forallb p s && string_forallb q s.
Proof.
  induction s as [|c s IH]; [done|]. rewrite !string_forallb_cons, IH.
  destruct (p c), (q c), (string_forallb p s), (string_forallb q s); done.
Qed.

(** A defect of [process_base16]: each literal is replaced wherever its text
    occurs, also at the head of a longer literal.  When a literal is followed,
    behind a plus sign, by the same literal lengthened by further digits, the
    longer one is not replaced by its value: the value of the shorter one
    is put in front of the further digits. *)
Theorem literal_replaced_inside_longer (value : Z) (more : string) :
  0 <= value <= ULLONG_MAX ->
  string_forallb (fun c => is_digit_in 16 c && plain c) more = true ->
  process_base16 ("0X" +:+ to_hex_upper value +:+ "+0X" +:+ to_hex_upper value +:+ more)
  = to_string value +:+ "+" +:+ to_string value +:+ more.
Proof.
  intros Hvalue Hmore.
  rewrite string_forallb_and in Hmore. apply andb_prop in Hmore as [Hdigits Hplain].
  destruct (to_hex_upper_digits value) as (first & d & d' & -> & Hfirst & Hdigit & Hd); [lia|].
  pose proof (plain_upper_digits d) as HplainH.
  pose proof (digits_upper_digits d) as HdigitsH.
  set (H := upper_digits d) in *.
  set (tag := "0x" +:+ H).
  set (longer := "0x" +:+ (H +:+ more)).
  unfold process_base16.
  assert (Hmarker : replace_all "0X" "0x" ("0X" +:+ H +:+ "+0X" +:+ H +:+ more)
                    = tag +:+ "+" +:+ longer).
  { rewrite (replace_all_hit "0" "X").
    change ("+0X" +:+ H +:+ more) with ("+" +:+ ("0X" +:+ (H +:+ more))).
    rewrite <- (append_assoc H "+").
    rewrite (replace_all_plain_prefix "X" "" "0x" (H +:+ "+"));
      [|done|by rewrite string_forallb_app, HplainH|done].
    rewrite (replace_all_hit "0" "X").
    rewrite (replace_all_plain "X" "" "0x" (H +:+ more))
      by (done || by rewrite string_forallb_app, HplainH, Hplain).
    subst tag longer. by rewrite !append_assoc. }
  rewrite Hmarker.
  assert (Hmatches : base16_matches (S (String.length (tag +:+ "+" +:+ longer)))
                       (tag +:+ "+" +:+ longer) = [tag; longer]).
  { assert (Hfirst_match : base16_pattern (tag +:+ "+" +:+ longer)
                           = Some (tag, "+" +:+ longer)).
    { unfold base16_pattern. subst tag. rewrite append_assoc, strip_prefix_app.
      rewrite span_digits by done. rewrite Hfirst. reflexivity. }
    assert (Hsecond_match : base16_pattern longer = Some (longer, EmptyString)).
    { unfold base16_pattern. subst longer. rewrite strip_prefix_app.
      rewrite <- (append_empty_r (H +:+ more)) at 1.
      rewrite span_digits by (done || by rewrite string_forallb_app, HdigitsH, Hdigits).
      rewrite Hfirst, append_cons. reflexivity. }
    cbn [base16_matches]. rewrite Hfirst_match. f_equal.
    rewrite (base16_matches_enough _ (S (S (String.length longer))) ("+" +:+ longer)).
    - change ("+" +:+ longer) with (String "+" longer).
      cbn [base16_matches]. change (base16_pattern (String "+" longer)) with (@None (string * string)).
      cbv iota. rewrite Hsecond_match. f_equal; by destruct (String.length longer).
    - unfold tag. rewrite !length_append. cbn [String.length]. lia.
    - rewrite length_append. cbn [String.length]. lia. }
  rewrite Hmatches. cbn [map fold_left].
  assert (Hshort : strtoull tag 16 = value).
  { rewrite <- Hd. apply (strtoull_upper_digits first d d' Hfirst Hdigit). lia. }
  rewrite Hshort.
  assert (Hreplaced : replace_all tag (to_string value) (tag +:+ "+" +:+ longer)
                      = to_string value +:+ "+" +:+ to_string value +:+ more).
  { subst tag longer.
    change ("0x" +:+ H) with (String "0" (String "x" H)).
    rewrite (replace_all_hit "0" (String "x" H)). f_equal.
    rewrite (replace_all_plain_prefix "x" H (to_string value) "+"); [|done|done|done].
    f_equal.
    change ("0x" +:+ (H +:+ more)) with (String "0" (String "x" H) +:+ more).
    rewrite (replace_all_hit "0" (String "x" H)). f_equal.
    by apply replace_all_plain. }
  rewrite Hreplaced.
  subst longer. change ("0x" +:+ (H +:+ more)) with (String "0" (String "x" (H +:+ more))).
  apply replace_all_plain; [done|].
  rewrite !string_forallb_app, !plain_to_string, Hplain. reflexivity.
Qed.

End LiteralCollision.

Lemma literal_replaced_inside_longer_witness :
  Assembler.process_base16
    ("0X" +:+ to_hex_upper 1 +:+ "+0X" +:+ to_hex_upper 1 +:+ "0")
  = to_string 1 +:+ "+" +:+ to_string 1 +:+ "0".
Proof.
  apply (literal_replaced_inside_longer 1 "0"); [vm_compute; split; discriminate | reflexivity].
Defined.

(** ** Register operands, from the disassembly back to the bytes *)

Section RegisterReassembly.
Import Assembler.
Variable exec_command : string -> list string -> cmd_status.

Lemma register_records_reassemble :
  forallb (fun width =>
    forallb (fun index => reassembles exec_command [0x01; width; index]) (seqZ 0 8))
    [0x08; 0x16; 0x32; 0x64] = true.
Proof. vm_compute. reflexivity. Qed.

Lemma register_memory_records_reassemble :
  forallb (fun ratio =>
    forallb (fun base =>
      forallb (fun offset1 =>
        forallb (fun offset2 =>
          reassembles exec_command [0x03; ratio; 0x01; 0x64; base; 0x01; 0x64; offset1;
                       0x01; 0x64; offset2])
          (seqZ 0 8)) (seqZ 0 8)) (seqZ 0 8))
    [0x01; 0x02; 0x04; 0x08; 0x16] = true.
Proof. vm_compute. reflexivity. Qed.

Lemma reassembles_spec (bytes : list Z) :
  reassembles exec_command bytes = true ->
  exists text : string,
    disassemble bytes = Ok text /\ encode_target exec_command [] text = Ok bytes.
Proof.
  unfold reassembles.
  destruct (disassemble bytes) as [text|e]; [|done].
  destruct (encode_target exec_command [] text) as [bytes'|e] eqn:Hencoded; [|done].
  intros ->%bool_decide_eq_true. by exists text.
Qed.

(** The other round trip, for register operands.  A register record of
    class 08, 16, 32 or 64 and index 0 to 7, and a memory record of a known
    ratio whose three sub-operands are 64-bit registers of index 0 to 7, are
    disassembled into a text that assembles back into the same bytes. *)
Theorem disassembled_registers_reassemble (width ratio index base offset1 offset2 : Z) :
  In width [0x08; 0x16; 0x32; 0x64] -> In ratio [0x01; 0x02; 0x04; 0x08; 0x16] ->
  0 <= index <= 7 -> 0 <= base <= 7 -> 0 <= offset1 <= 7 -> 0 <= offset2 <= 7 ->
  (exists text : string,
     disassemble [0x01; width; index] = Ok text
     /\ encode_target exec_command [] text = Ok [0x01; width; index])
  /\ (exists text : string,
        disassemble [0x03; ratio; 0x01; 0x64; base; 0x01; 0x64; offset1; 0x01; 0x64; offset2]
        = Ok text
        /\ encode_target exec_command [] text
           = Ok [0x03; ratio; 0x01; 0x64; base; 0x01; 0x64; offset1; 0x01; 0x64; offset2]).
Proof.
  intros Hwidth Hratio Hindex Hbase Hoffset1 Hoffset2.
  assert (Hin : forall i : Z, 0 <= i <= 7 -> In i (seqZ 0 8))
    by (intros i Hi; apply list_elem_of_In, elem_of_seqZ; lia).
  split; apply reassembles_spec.
  - pose proof register_records_reassemble as Hall.
    rewrite forallb_forall in Hall. specialize (Hall width Hwidth).
    rewrite forallb_forall in Hall. exact (Hall index (Hin index Hindex)).
  - pose proof register_memory_records_reassemble as Hall.
    rewrite forallb_forall in Hall. specialize (Hall ratio Hratio).
    rewrite forallb_forall in Hall. specialize (Hall base (Hin base Hbase)).
    rewrite forallb_forall in Hall. specialize (Hall offset1 (Hin offset1 Hoffset1)).
    rewrite forallb_forall in Hall. exact (Hall offset2 (Hin offset2 Hoffset2)).
Qed.

End RegisterReassembly.

Lemma disassembled_registers_reassemble_witness :
  (exists text : string,
     Assembler.disassemble [0x01; 0x16; 5] = Ok text
     /\ Assembler.encode_target (bc_prints "") [] text = Ok [0x01; 0x16; 5])
  /\ (exists text : string,
        Assembler.disassemble [0x03; 0x16; 0x01; 0x64; 0; 0x01; 0x64; 7; 0x01; 0x64; 3]
        = Ok text
        /\ Assembler.encode_target (bc_prints "") [] text
           = Ok [0x03; 0x16; 0x01; 0x64; 0; 0x01; 0x64; 7; 0x01; 0x64; 3]).
Proof.
  apply (disassembled_registers_reassemble (bc_prints "") 0x16 0x16 5 0 7 3);
    cbn; (tauto || lia).
Defined.

(** ** The three kinds of operand text *)

Section Kinds.
Import Assembler.

(** No text is of two kinds: at most one of the three patterns matches, so
    the order in which [parse] tries them does not matter. *)
Theorem operand_kinds_exclusive (text : string) :
  (is_valid_register text = true -> is_valid_constant text = false /\ is_valid_memory text = false)
  /\ (is_valid_constant text = true -> is_valid_register text = false /\ is_valid_memory text = false)
  /\ (is_valid_memory text = true -> is_valid_register text = false /\ is_valid_constant text = false).
Proof.
  unfold is_valid_constant, is_valid_memory.
  destruct (memory_pattern text) as [[[[ratio base] offset1] offset2]|] eqn:Hmemory.
  - destruct (memory_pattern_exclusive _ _ _ _ _ Hmemory) as [-> ->]. done.
  - destruct (constant_pattern text) as [expression|] eqn:Hconstant.
    + rewrite (constant_pattern_not_register _ _ Hconstant). done.
    + done.
Qed.

End Kinds.

(** ** What the decoder reads *)

Section Consumption.
Import Assembler.

Lemma pop_loop_reads (count : nat) (input rest : list Z) (value : Z) :
  pop_loop count input = Ok (value, rest) ->
  exists front : list Z, length front = count /\ input = front ++ rest.
Proof.
  revert input value. induction count as [|count IH]; intros input value; cbn [pop_loop].
  - intros [= <- <-]. by exists [].
  - destruct input as [|byte input]; [done|].
    destruct (pop_loop count input) as [[high input']|e] eqn:Hloop; [|done].
    cbn [mbind result_bind]. intros [= <- <-].
    destruct (IH _ _ Hloop) as (front & Hlength & ->).
    exists (byte :: front). split; [cbn; lia|done].
Qed.

Lemma pop_reads (LENGTH : nat) (input rest : list Z) (value : Z) :
  pop LENGTH input = Ok (value, rest) ->
  exists front : list Z, length front = (LENGTH / 8)%nat /\ input = front ++ rest.
Proof.
  unfold pop.
  destruct (pop_loop (LENGTH / 8) input) as [[result input']|e] eqn:Hloop; [|done].
  cbn [mbind result_bind]. intros Hresult.
  assert (input' = rest) as ->.
  { destruct (LENGTH / 8)%nat as [|[|[|[|[|[|[|[|[|]]]]]]]]]; congruence. }
  by apply pop_loop_reads with result.
Qed.

Lemma pop8_reads (input rest : list Z) (value : Z) :
  pop8 input = Ok (value, rest) ->
  exists byte : Z, input = byte :: rest /\ value = Z.land (byte + 256 * 0) 0xFF.
Proof.
  destruct input as [|byte input]; [done|]. rewrite pop8_cons. intros [= <- <-]. by exists byte.
Qed.

Lemma decode_register_reads (output output' : list string) (input rest : list Z) :
  decode_register output input = Ok (output', rest) ->
  exists front : list Z, length front = 2%nat /\ input = front ++ rest.
Proof.
  unfold decode_register.
  destruct (pop8 input) as [[register_size input1]|e] eqn:Hsize; [|done].
  cbn [mbind result_bind].
  destruct (pop8 input1) as [[register_index input2]|e] eqn:Hindex; [|done].
  cbn [mbind result_bind].
  apply pop8_reads in Hsize as (b1 & -> & _). apply pop8_reads in Hindex as (b2 & -> & _).
  destruct (match register_size with 0x08 => _ | _ => _ end) as [prefix|e]; [|done].
  cbn [mbind result_bind]. intros [= _ <-]. by exists [b1; b2].
Qed.

Lemma decode_constant_reads (output output' : list string) (input rest : list Z) :
  decode_constant output input = Ok (output', rest) ->
  exists front : list Z, length front = 9%nat /\ input = front ++ rest.
Proof.
  unfold decode_constant.
  destruct (pop8 input) as [[sign input1]|e] eqn:Hsign; [|done]. cbn [mbind result_bind].
  destruct (pop 64 input1) as [[num input2]|e] eqn:Hnum; [|done]. cbn [mbind result_bind].
  apply pop8_reads in Hsign as (b & -> & _).
  apply pop_reads in Hnum as (front & Hlength & ->).
  intros [= _ <-]. exists (b :: front). split; [cbn; rewrite Hlength; reflexivity|done].
Qed.

Lemma decode_each_parameter_reads (output output' : list string) (input rest : list Z) :
  decode_each_parameter output input = Ok (output', rest) ->
  exists front : list Z, (3 <= length front <= 10)%nat /\ input = front ++ rest.
Proof.
  unfold decode_each_parameter.
  destruct (pop8 input) as [[prefix input1]|e] eqn:Hprefix; [|done]. cbn [mbind result_bind].
  apply pop8_reads in Hprefix as (b & -> & _).
  destruct prefix as [|p|p]; try done. repeat destruct_scrutinee; try done.
  - intros (front & Hlength & ->)%decode_constant_reads.
    exists (b :: front). split; [cbn; lia|done].
  - intros (front & Hlength & ->)%decode_register_reads.
    exists (b :: front). split; [cbn; lia|done].
Qed.

Lemma decode_memory_reads (output output' : list string) (input rest : list Z) :
  decode_memory output input = Ok (output', rest) ->
  exists front : list Z, (10 <= length front <= 31)%nat /\ input = front ++ rest.
Proof.
  unfold decode_memory.
  destruct (pop8 input) as [[ratio input1]|e] eqn:Hratio; [|done]. cbn [mbind result_bind].
  apply pop8_reads in Hratio as (b & -> & _).
  destruct (match ratio with 0x01 => _ | _ => _ end) as [ret|e]; [|done].
  cbn [mbind result_bind].
  destruct (decode_each_parameter _ input1) as [[output1 input2]|e] eqn:H1; [|done].
  cbn [mbind result_bind].
  destruct (decode_each_parameter _ input2) as [[output2 input3]|e] eqn:H2; [|done].
  cbn [mbind result_bind].
  destruct (decode_each_parameter _ input3) as [[output3 input4]|e] eqn:H3; [|done].
  cbn [mbind result_bind]. intros [= _ <-].
  apply decode_each_parameter_reads in H1 as (front1 & Hlength1 & ->).
  apply decode_each_parameter_reads in H2 as (front2 & Hlength2 & ->).
  apply decode_each_parameter_reads in H3 as (front3 & Hlength3 & ->).
  exists (b :: front1 ++ front2 ++ front3). split.
  - cbn [length]. rewrite !length_app. lia.
  - cbn [app]. by rewrite <- !app_assoc.
Qed.

(** Whatever [decode] accepts is one record and what follows it: the bytes
    read are a register record of 3 bytes, a constant record of 10 or a
    memory record of 11 to 32, by the prefix, and the bytes behind the record
    are left as they are. *)
Theorem decode_reads_one_record (output output' : list string) (input rest : list Z) :
  Forall is_byte input ->
  decode output input = Ok (output', rest) ->
  exists record : list Z,
    input = record ++ rest
    /\ match record with
       | 0x01 :: _ => length record = 3%nat
       | 0x02 :: _ => length record = 10%nat
       | 0x03 :: _ => (11 <= length record <= 32)%nat
       | _ => False
       end.
Proof.
  intros Hbytes. unfold decode.
  destruct (pop8 input) as [[prefix input1]|e] eqn:Hprefix; [|done]. cbn [mbind result_bind].
  apply pop8_reads in Hprefix as (b & -> & Hmasked).
  apply Forall_cons_1 in Hbytes as [Hb _].
  rewrite Z.mul_0_r, Z.add_0_r in Hmasked.
  change 0xFF with (Z.ones 8) in Hmasked.
  rewrite Z.land_ones, Z.mod_small in Hmasked by (unfold is_byte in Hb; lia). subst prefix.
  destruct b as [|p|p]; try done. repeat destruct_scrutinee; try done.
  - intros (front & Hlength & ->)%decode_memory_reads.
    exists (3 :: front). split; [done|]. cbn [length]. lia.
  - intros (front & Hlength & ->)%decode_constant_reads.
    exists (2 :: front). split; [done|]. cbn [length]. lia.
  - intros (front & Hlength & ->)%decode_register_reads.
    exists (1 :: front). split; [done|]. cbn [length]. lia.
Qed.

End Consumption.

Lemma decode_reads_one_record_witness :
  exists record : list Z,
    [0x02; 0x01; 0xE0; 0xFF; 0xFF; 0xFF; 0xFF; 0xFF; 0xFF; 0xFF; 0x01; 0x08; 0x03]
    = record ++ [0x01; 0x08; 0x03]
    /\ match record with
       | 0x01 :: _ => length record = 3%nat
       | 0x02 :: _ => length record = 10%nat
       | 0x03 :: _ => (11 <= length record <= 32)%nat
       | _ => False
       end.
Proof.
  apply (decode_reads_one_record [] ["$(-32)"]
           [0x02; 0x01; 0xE0; 0xFF; 0xFF; 0xFF; 0xFF; 0xFF; 0xFF; 0xFF; 0x01; 0x08; 0x03]
           [0x01; 0x08; 0x03]).
  - repeat constructor; unfold is_byte; lia.
  - vm_compute. reflexivity.
Defined.

(** ** Hexadecimal literals: the program and the specification *)

Section Tokens.
Import Assembler.

Lemma span_spec (p : ascii -> bool) (s taken others : string) :
  span p s = (taken, others) ->
  s = taken +:+ others
  /\ string_forallb p taken = true
  /\ match others with String c _ => p c = false | EmptyString => True end.
Proof.
  revert taken others. induction s as [|c s IH]; intros taken others Hspan; cbn [span] in Hspan.
  - by injection Hspan as <- <-.
  - destruct (p c) eqn:Hc.
    + destruct (span p s) as [taken' others'] eqn:Hs. injection Hspan as <- <-.
      destruct (IH _ _ eq_refl) as (-> & Htaken & Hothers).
      rewrite string_forallb_cons, Hc, Htaken. done.
    + by injection Hspan as <- <-.
Qed.

(** A literal at the head of a text: the marker, the digits, and what
    follows them, which does not start with a digit. *)
Lemma literal_at_Some (text digits others : string) :
  literal_at text = Some (digits, others) ->
  text = "0X" +:+ digits +:+ others
  /\ digits <> EmptyString
  /\ string_forallb (is_digit_in 16) digits = true
  /\ ends_number 16 others = true.
Proof.
  unfold literal_at. intros Hliteral.
  destruct (strip_prefix "0X" text) as [behind|] eqn:Hmarker; [|done].
  apply strip_prefix_Some in Hmarker. subst text.
  destruct (span (is_digit_in 16) behind) as [taken rest] eqn:Hspan.
  destruct taken as [|digit taken]; [done|]. injection Hliteral as <- <-.
  destruct (span_spec _ _ _ _ Hspan) as (-> & Hdigits & Hothers).
  split; [done|]. split; [done|]. split; [done|].
  unfold ends_number. destruct rest; [done|]. by rewrite Hothers.
Qed.

Lemma plain_normalised (c : ascii) :
  plain c = normalised c && negb (Ascii.eqb c "X").
Proof.
  unfold plain, normalised.
  destruct (Ascii.eqb (toupper c) c), (Ascii.eqb c " "), (Ascii.eqb c "X"), (regex_dot c); done.
Qed.

Lemma digit_not_marker (c : ascii) : is_digit_in 16 c = true -> Ascii.eqb c "X" = false.
Proof.
  destruct c as [[] [] [] [] [] [] [] []]; intros Hdigit; vm_compute in Hdigit;
    try discriminate Hdigit; vm_compute; done.
Qed.

Lemma normalised_digits (digits : string) :
  string_forallb normalised digits = true ->
  string_forallb (is_digit_in 16) digits = true ->
  string_forallb (fun c => is_digit_in 16 c && plain c) digits = true.
Proof.
  induction digits as [|c digits IH]; [done|].
  rewrite !string_forallb_cons.
  intros [Hc Hnormalised]%andb_prop [Hdigit Hdigits]%andb_prop.
  rewrite plain_normalised, Hc, Hdigit, (digit_not_marker c Hdigit). by apply IH.
Qed.

(** The tokens of a normalised text in which every X belongs to a literal
    spell the text, and are as [tokenized] says. *)
Lemma tokens_spec (fuel : nat) (text : string) :
  (String.length text < fuel)%nat ->
  string_forallb normalised text = true ->
  forallb (fun t => match t with
                    | Plain c => negb (Ascii.eqb c "X")
                    | Literal _ => true
                    end) (tokens fuel text) = true ->
  tokenized (tokens fuel text) = true
  /\ render (String.append "0X") (tokens fuel text) = text.
Proof.
  revert text. induction fuel as [|fuel IH]; intros text Hfuel Hnormalised Hmarkers; [lia|].
  cbn [tokens] in *.
  destruct (literal_at text) as [[digits others]|] eqn:Hliteral.
  - destruct (literal_at_Some _ _ _ Hliteral) as (-> & Hnonempty & Hdigits & Hothers).
    rewrite !length_append in Hfuel. cbn [String.length] in Hfuel.
    rewrite !string_forallb_app in Hnormalised.
    apply andb_prop in Hnormalised as [_ [Hnormalised_digits Hnormalised_others]%andb_prop].
    cbn [forallb] in Hmarkers.
    destruct (IH others) as [Htokenized Hrender]; [lia|done|done|].
    cbn [tokenized render]. rewrite Hrender, Htokenized.
    rewrite (normalised_digits digits Hnormalised_digits Hdigits).
    split; [|by rewrite append_assoc].
    destruct (String.eqb_spec digits "") as [|_]; [done|]. cbn [negb andb].
    rewrite andb_true_r.
    destruct fuel as [|fuel]; [lia|]. cbn [tokens].
    destruct others as [|c others]; [done|].
    cbn [ends_number] in Hothers.
    assert (Hnone : literal_at (String c others) = None).
    { unfold literal_at. cbn [strip_prefix].
      destruct (Ascii.eqb_spec "0" c) as [<-|]; [|done]. done. }
    by rewrite Hnone.
  - destruct text as [|c text]; [done|].
    cbn [String.length] in Hfuel. rewrite string_forallb_cons in Hnormalised.
    apply andb_prop in Hnormalised as [Hc Hnormalised].
    cbn [forallb] in Hmarkers. apply andb_prop in Hmarkers as [Hmarker Hmarkers].
    destruct (IH text) as [Htokenized Hrender]; [lia|done|done|].
    cbn [tokenized render]. by rewrite plain_normalised, Hc, Hmarker, Htokenized, Hrender.
Qed.

End Tokens.

Section Passes.
Import Assembler.

(** Two renderings agree when they write every literal alike. *)
Lemma render_ext (f g : string -> string) (ts : list token) :
  (forall digits : string, In digits (literal_digits ts) -> f digits = g digits) ->
  render f ts = render g ts.
Proof.
  induction ts as [|[c|digits] ts IH]; intros Hext; cbn [render]; [done|..].
  - f_equal. apply IH. intros digits Hin. by apply Hext.
  - rewrite (Hext digits) by (by left). f_equal. apply IH.
    intros digits' Hin. apply Hext. by right.
Qed.

(** A rendering whose literals start with a plain character starts with a
    plain character: no marker letter. *)
Lemma render_head (x : ascii) (f : string -> string) (ts : list token) :
  plain x = false ->
  tokenized ts = true ->
  (forall digits : string, exists (c : ascii) (rest : string),
      f digits = String c rest /\ plain c = true) ->
  match render f ts with
  | String c _ => Ascii.eqb x c = false
  | EmptyString => True
  end.
Proof.
  intros Hx Htokenized Hf.
  assert (Hdiffer : forall c : ascii, plain c = true -> Ascii.eqb x c = false).
  { intros c Hc. destruct (Ascii.eqb_spec x c) as [->|]; [congruence|done]. }
  destruct ts as [|[c|digits] ts]; cbn [render]; [done|..].
  - cbn [tokenized] in Htokenized. apply andb_prop in Htokenized as [Hc _]. by apply Hdiffer.
  - destruct (Hf digits) as (c & rest & -> & Hc). rewrite append_cons. by apply Hdiffer.
Qed.

(** What follows a literal does not start with a digit. *)
Lemma render_behind_literal (f : string -> string) (digits : string) (ts : list token) :
  tokenized (Literal digits :: ts) = true ->
  match render f ts with
  | String c _ => is_digit_in 16 c = false
  | EmptyString => True
  end.
Proof.
  cbn [tokenized]. intros [[_ Hbehind]%andb_prop _]%andb_prop.
  destruct ts as [|[c|digits'] ts]; cbn [render]; [done| |done].
  by apply negb_true_iff.
Qed.

Lemma tokenized_literal (digits : string) (ts : list token) :
  tokenized (Literal digits :: ts) = true ->
  digits <> EmptyString
  /\ string_forallb (is_digit_in 16) digits = true
  /\ string_forallb plain digits = true
  /\ tokenized ts = true.
Proof.
  cbn [tokenized].
  intros [[[Hnonempty Hdigits]%andb_prop _]%andb_prop Htokenized]%andb_prop.
  rewrite string_forallb_and in Hdigits. apply andb_prop in Hdigits as [Hdigits Hplain].
  split; [|done]. intros ->. done.
Qed.

Lemma upper_marker_head (digits : string) :
  exists (c : ascii) (rest : string), "0X" +:+ digits = String c rest /\ plain c = true.
Proof. by exists "0"%char, ("X" +:+ digits). Qed.

Lemma shown_head (replaced : list string) (digits : string) :
  exists (c : ascii) (rest : string), shown replaced digits = String c rest /\ plain c = true.
Proof.
  unfold shown. destruct (existsb _ replaced).
  - destruct (to_string_first (hexadecimal_value digits)) as (first & rest & Hfirst & _).
    exists first, rest. split; [done|].
    pose proof (plain_to_string (hexadecimal_value digits)) as Hplain.
    rewrite Hfirst, string_forallb_cons in Hplain. by apply andb_prop in Hplain as [? _].
  - by exists "0"%char, ("x" +:+ digits).
Qed.

(** The first pass of [process_base16]: every marker is put in lower
    case, and nothing else changes. *)
Lemma upper_markers_lowered (ts : list token) :
  tokenized ts = true ->
  replace_all "0X" "0x" (render (String.append "0X") ts) = render (shown []) ts.
Proof.
  induction ts as [|[c|digits] ts IH]; intros Htokenized; [done|..].
  - cbn [tokenized] in Htokenized. apply andb_prop in Htokenized as [Hc Htokenized].
    cbn [render].
    change (String c (render (String.append "0X") ts))
      with (String c "" +:+ render (String.append "0X") ts).
    rewrite (replace_all_plain_prefix "X" "" "0x" (String c ""));
      [|done|by rewrite string_forallb_cons, Hc
       |by apply render_head; [| |apply upper_marker_head]].
    rewrite IH by done. reflexivity.
  - pose proof (render_behind_literal (String.append "0X") _ _ Htokenized) as Hbehind.
    destruct (tokenized_literal _ _ Htokenized) as (_ & _ & Hplain & Htokenized').
    cbn [render]. change (shown [] digits) with ("0x" +:+ digits).
    rewrite !append_assoc.
    rewrite (replace_all_hit "0" "X").
    rewrite (replace_all_plain_prefix "X" "" "0x" digits);
      [|done|done|by apply render_head; [| |apply upper_marker_head]].
    by rewrite IH.
Qed.

(** The literals the iterator of [process_base16] then finds. *)
Lemma lowered_literals_found (ts : list token) (fuel : nat) :
  tokenized ts = true ->
  (String.length (render (shown []) ts) < fuel)%nat ->
  base16_matches fuel (render (shown []) ts) = map (String.append "0x") (literal_digits ts).
Proof.
  revert fuel. induction ts as [|[c|digits] ts IH]; intros fuel Htokenized Hfuel;
    (destruct fuel as [|fuel]; [lia|]).
  - reflexivity.
  - cbn [tokenized] in Htokenized. apply andb_prop in Htokenized as [Hc Htokenized].
    cbn [render String.length] in *. cbn [base16_matches literal_digits flat_map app].
    assert (Hnone : base16_pattern (String c (render (shown []) ts)) = None).
    { unfold base16_pattern. cbn [strip_prefix]. destruct (Ascii.eqb "0" c); [|done].
      pose proof (render_head "x" (shown []) ts eq_refl Htokenized (shown_head [])) as Hhead.
      destruct (render (shown []) ts) as [|c' rest]; [done|]. by rewrite Hhead. }
    rewrite Hnone. apply IH; [done|lia].
  - pose proof (render_behind_literal (shown []) _ _ Htokenized) as Hbehind.
    destruct (tokenized_literal _ _ Htokenized) as (Hnonempty & Hdigits & _ & Htokenized').
    cbn [render] in *. change (shown [] digits) with ("0x" +:+ digits) in *.
    rewrite !length_append in Hfuel. cbn [String.length] in Hfuel.
    cbn [base16_matches literal_digits flat_map app map].
    assert (Hfound : base16_pattern (("0x" +:+ digits) +:+ render (shown []) ts)
                     = Some ("0x" +:+ digits, render (shown []) ts)).
    { unfold base16_pattern. rewrite append_assoc, strip_prefix_app.
      rewrite span_digits by done. by destruct digits. }
    rewrite Hfound. f_equal. apply IH; [done|lia].
Qed.

End Passes.

Section Replacements.
Import Assembler.

(** The digit loop of [strtoull] spells what the specification calls the
    value of the digits. *)
Lemma leading_digits_hexadecimal_from (digits : string) (value : Z) :
  string_forallb (is_digit_in 16) digits = true ->
  leading_digits 16 value digits = hexadecimal_from value digits.
Proof.
  revert value. induction digits as [|c digits IH]; intros value Hdigits; [done|].
  rewrite string_forallb_cons in Hdigits. apply andb_prop in Hdigits as [Hc Hdigits].
  rewrite leading_digits_cons. cbn [hexadecimal_from]. unfold is_digit_in in Hc.
  destruct (digit_value c) as [d|]; [|done]. rewrite Hc.
  rewrite IH by done. f_equal. lia.
Qed.

(** [strtoull] in base 16 on a literal that fits 64 bits. *)
Lemma strtoull_literal (digits : string) :
  digits <> EmptyString ->
  string_forallb (is_digit_in 16) digits = true ->
  hexadecimal_value digits <= ULLONG_MAX ->
  strtoull ("0x" +:+ digits) 16 = hexadecimal_value digits.
Proof.
  intros Hnonempty Hdigits Hvalue.
  destruct digits as [|first digits]; [done|].
  pose proof Hdigits as Hfirst. rewrite string_forallb_cons in Hfirst.
  apply andb_prop in Hfirst as [Hfirst _].
  unfold strtoull, scan_number. rewrite !append_cons.
  change ("" +:+ String first digits) with (String first digits).
  cbn [skip_spaces]. evaluate_character_tests. rewrite Hfirst.
  change ((16 =? 16) && true && (false || false || true)) with true.
  rewrite Z.eqb_refl. cbn [andb orb]. cbv iota.
  rewrite leading_digits_hexadecimal_from by done.
  fold (hexadecimal_value (String first digits)).
  destruct (Z.ltb_spec ULLONG_MAX (hexadecimal_value (String first digits))) as [|_]; [lia|].
  reflexivity.
Qed.

Lemma heads_refl (digits : string) : heads digits digits = false.
Proof.
  unfold heads. rewrite <- (append_empty_r digits) at 2. by rewrite strip_prefix_app.
Qed.

(** A tag is found at a literal only when its digits are those of the
    literal, or head them. *)
Lemma strip_prefix_digits (tag digits tail : string) :
  string_forallb (is_digit_in 16) tag = true ->
  match tail with String c _ => is_digit_in 16 c = false | EmptyString => True end ->
  heads tag digits = false ->
  tag <> digits ->
  strip_prefix tag (digits +:+ tail) = None.
Proof.
  revert digits. induction tag as [|a tag IH]; intros digits Htag Htail Hheads Hdiffer.
  - unfold heads in Hheads. cbn [strip_prefix] in Hheads. by destruct digits.
  - rewrite string_forallb_cons in Htag. apply andb_prop in Htag as [Ha Htag].
    destruct digits as [|b digits].
    + change ("" +:+ tail) with tail. destruct tail as [|c tail]; [done|].
      cbn [strip_prefix]. destruct (Ascii.eqb_spec a c) as [->|]; [congruence|done].
    + rewrite append_cons. cbn [strip_prefix]. unfold heads in Hheads. cbn [strip_prefix] in Hheads.
      destruct (Ascii.eqb_spec a b) as [->|]; [|done].
      apply IH; [done|done|done|congruence].
Qed.

(** One step of the last loop of [process_base16]: replacing the tag of a
    literal that heads no literal still to be replaced turns this literal,
    wherever it stands, into the decimal of its value, and changes nothing
    else. *)
Lemma literal_replaced (tag : string) (replaced : list string) (ts : list token) :
  tokenized ts = true ->
  string_forallb (is_digit_in 16) tag = true ->
  (forall digits : string,
     In digits (literal_digits ts) -> existsb (String.eqb digits) replaced = false ->
     heads tag digits = false) ->
  replace_all ("0x" +:+ tag) (to_string (hexadecimal_value tag)) (render (shown replaced) ts)
  = render (shown (tag :: replaced)) ts.
Proof.
  intros Htokenized Htag. change ("0x" +:+ tag) with (String "0" (String "x" tag)).
  induction ts as [|[c|digits] ts IH]; intros Hheads.
  - rewrite replace_all_nonempty. apply replace_from_empty.
  - cbn [tokenized] in Htokenized. apply andb_prop in Htokenized as [Hc Htokenized].
    cbn [render].
    change (String c (render (shown replaced) ts))
      with (String c "" +:+ render (shown replaced) ts).
    rewrite (replace_all_plain_prefix "x" tag _ (String c ""));
      [|done|by rewrite string_forallb_cons, Hc
       |by apply render_head; [| |apply shown_head]].
    rewrite IH by done. reflexivity.
  - pose proof (render_behind_literal (shown replaced) _ _ Htokenized) as Hbehind.
    destruct (tokenized_literal _ _ Htokenized) as (_ & Hdigits & Hplain & Htokenized').
    pose proof (render_head "x" (shown replaced) ts eq_refl Htokenized' (shown_head replaced))
      as Hhead.
    assert (IH' : replace_all (String "0" (String "x" tag)) (to_string (hexadecimal_value tag))
                    (render (shown replaced) ts) = render (shown (tag :: replaced)) ts).
    { apply IH; [done|]. intros digits' Hin. apply Hheads. by right. }
    cbn [render]. unfold shown at 1 3. cbn [existsb].
    destruct (existsb (String.eqb digits) replaced) eqn:Hreplaced.
    + rewrite orb_true_r.
      rewrite (replace_all_plain_prefix "x" tag); [|done|apply plain_to_string|done].
      by rewrite IH'.
    + rewrite orb_false_r.
      destruct (String.eqb_spec digits tag) as [->|Hdiffer].
      * change ("0x" +:+ tag) with (String "0" (String "x" tag)).
        rewrite (replace_all_hit "0" (String "x" tag)). by rewrite IH'.
      * rewrite append_assoc.
        change ("0x" +:+ (digits +:+ render (shown replaced) ts))
          with (String "0" (String "x" (digits +:+ render (shown replaced) ts))).
        rewrite replace_all_skip.
        2:{ cbn [strip_prefix]. change (Ascii.eqb "0" "0") with true.
            change (Ascii.eqb "x" "x") with true. cbv iota.
            apply strip_prefix_digits; [done|done| |congruence].
            apply Hheads; [by left|done]. }
        rewrite replace_all_skip by done.
        rewrite (replace_all_plain_prefix "x" tag); [|done|done|done].
        by rewrite IH'.
Qed.

(** The last loop of [process_base16], from any stage on. *)
Lemma literals_replaced (todo replaced : list string) (ts : list token) :
  tokenized ts = true ->
  forallb (fun t => match t with
                    | Plain _ => true
                    | Literal digits => hexadecimal_value digits <=? ULLONG_MAX
                    end) ts = true ->
  (forall digits : string, In digits todo -> In digits (literal_digits ts)) ->
  (forall digits : string,
     In digits (literal_digits ts) ->
     existsb (String.eqb digits) replaced = true \/ In digits todo) ->
  apart todo = true ->
  fold_left (fun input '(tag, rep) => replace_all tag (to_string rep) input)
            (map (fun base16_number_str => (base16_number_str, strtoull base16_number_str 16))
                 (map (String.append "0x") todo))
            (render (shown replaced) ts)
  = render (fun digits => to_string (hexadecimal_value digits)) ts.
Proof.
  intros Htokenized Hvalues.
  assert (Hliteral : forall digits : string,
             In digits (literal_digits ts) ->
             digits <> EmptyString
             /\ string_forallb (is_digit_in 16) digits = true
             /\ hexadecimal_value digits <= ULLONG_MAX).
  { clear -Htokenized Hvalues.
    induction ts as [|[c|digits'] ts IH]; intros digits Hin; [done|..].
    - cbn [tokenized forallb] in *. apply andb_prop in Htokenized as [_ ?]. by apply IH.
    - destruct (tokenized_literal _ _ Htokenized) as (? & ? & _ & ?).
      cbn [forallb] in Hvalues. apply andb_prop in Hvalues as [Hvalue ?].
      destruct Hin as [<-|Hin]; [|by apply IH].
      split; [done|]. split; [done|]. by apply Z.leb_le. }
  revert replaced. induction todo as [|tag todo IH]; intros replaced Htodo Hcovered Hapart.
  - cbn [map fold_left]. apply render_ext. intros digits Hin. unfold shown.
    destruct (Hcovered digits Hin) as [->|[]]. reflexivity.
  - cbn [apart] in Hapart. apply andb_prop in Hapart as [Hlater Hapart].
    destruct (Hliteral tag) as (Hnonempty & Hdigits & Hvalue); [apply Htodo; by left|].
    cbn [map fold_left]. rewrite strtoull_literal by done.
    rewrite literal_replaced; [|done|done|].
    + apply IH; [|  |done].
      * intros digits Hin. apply Htodo. by right.
      * intros digits Hin. cbn [existsb].
        destruct (String.eqb_spec digits tag) as [->|Hdiffer]; [by left|].
        destruct (Hcovered digits Hin) as [->|[<-|Hin']]; [left; apply orb_true_r|done|by right].
    + intros digits Hin Hreplaced.
      destruct (Hcovered digits Hin) as [Hdone|[<-|Hin']]; [congruence|apply heads_refl|].
      rewrite forallb_forall in Hlater. specialize (Hlater digits Hin').
      by apply negb_true_iff.
Qed.

(** Where the program does what section 4.1 says: on a normalised
    expression whose literals can be told apart, [process_base16] replaces
    each hexadecimal literal by the decimal of its value. *)
Lemma process_base16_expands (expression : string) :
  string_forallb normalised expression = true ->
  separate_literals expression = true ->
  process_base16 expression = expand_literals expression.
Proof.
  intros Hnormalised Hseparate. unfold separate_literals in Hseparate. cbv zeta in Hseparate.
  apply andb_prop in Hseparate as [Htokens Hapart].
  unfold expand_literals. unfold tokenize in *.
  set (ts := tokens (S (String.length expression)) expression) in *.
  destruct (tokens_spec (S (String.length expression)) expression) as [Htokenized Hrender];
    [lia|done| |].
  { fold ts. rewrite forallb_forall in Htokens. apply forallb_forall.
    intros [c|digits] Hin; [|done]. exact (Htokens _ Hin). }
  fold ts in Htokenized, Hrender.
  unfold process_base16. rewrite <- Hrender.
  rewrite (upper_markers_lowered ts Htokenized).
  rewrite (lowered_literals_found ts _ Htokenized) by lia.
  apply literals_replaced; [done| |done|by right|done].
  rewrite forallb_forall in Htokens. apply forallb_forall.
  intros [c|digits] Hin; [done|]. exact (Htokens _ Hin).
Qed.

End Replacements.

(** ** The round trip, against the canonical text of the specification *)

Section CanonicalRoundTrip.
Import Assembler.
Variable exec_command : string -> list string -> cmd_status.

(** What [parse] leaves of a text holds no lower-case letter and no blank. *)
Local Abbreviation folded :=
  (fun c : ascii => Ascii.eqb (toupper c) c && negb (Ascii.eqb c " ")).

Lemma parse_folds (T : string) :
  string_forallb folded (capitalization (remove_space T)) = true.
Proof.
  unfold capitalization. induction T as [|c T IH]; [done|]. cbn [remove_space].
  destruct (Ascii.eqb c " ") eqn:Hblank; [done|].
  cbn [string_map]. rewrite string_forallb_cons.
  by rewrite toupper_idempotent, Ascii.eqb_refl, toupper_space, Hblank, IH.
Qed.

Lemma rsplit_Some (sep : ascii) (s before after : string) :
  rsplit sep s = Some (before, after) -> s = before +:+ String sep after.
Proof.
  revert before. induction s as [|c s IH]; intros before Hsplit; cbn [rsplit] in Hsplit; [done|].
  destruct (rsplit sep s) as [[before' after']|].
  - injection Hsplit as <- <-. rewrite append_cons. f_equal. by apply IH.
  - destruct (Ascii.eqb_spec c sep) as [->|]; [|done]. by injection Hsplit as <- <-.
Qed.

(** The capture group of [constant_pattern] is a piece of the text, and the
    dot matches each of its characters. *)
Lemma constant_pattern_Some (text expression : string) :
  constant_pattern text = Some expression ->
  text = "$(" +:+ expression +:+ ")"
  /\ string_forallb regex_dot expression = true.
Proof.
  unfold constant_pattern. intros Hpattern.
  destruct (strip_prefix "$(" text) as [rest|] eqn:Hprefix; [|done].
  apply strip_prefix_Some in Hprefix. subst text.
  destruct (unsnoc rest) as [[body closing]|] eqn:Hlast; [|done].
  apply unsnoc_Some in Hlast. subst rest.
  destruct (Ascii.eqb_spec closing ")") as [Hclosing|]; [subst closing|done].
  destruct (string_forallb regex_dot body) eqn:Hdot; [|done].
  by injection Hpattern as <-.
Qed.

Lemma normalised_expression (text expression : string) :
  string_forallb folded text = true ->
  constant_pattern text = Some expression ->
  string_forallb normalised expression = true.
Proof.
  intros Hfolded Hpattern.
  destruct (constant_pattern_Some _ _ Hpattern) as [-> Hdot].
  rewrite !string_forallb_app in Hfolded.
  apply andb_prop in Hfolded as [_ [Hfolded _]%andb_prop].
  clear Hpattern. induction expression as [|c expression IH]; [done|].
  rewrite string_forallb_cons in *.
  apply andb_prop in Hfolded as [[Hupper Hblank]%andb_prop Hfolded].
  apply andb_prop in Hdot as [Hc Hdot].
  unfold normalised at 1. rewrite Hupper, Hblank, Hc. by apply IH.
Qed.

(** The groups of [memory_pattern] are pieces of the text. *)
Lemma memory_pattern_Some (text ratio base offset1 offset2 : string) :
  memory_pattern text = Some (ratio, base, offset1, offset2) ->
  text = "*" +:+ ratio +:+ "(" +:+ base +:+ "," +:+ offset1 +:+ "," +:+ offset2 +:+ ")".
Proof.
  unfold memory_pattern. intros Hpattern.
  apply first_match_Some in Hpattern as (r & _ & Hpattern).
  destruct (strip_prefix _ text) as [rest|] eqn:Hprefix; [|done].
  apply strip_prefix_Some in Hprefix. subst text.
  destruct (unsnoc rest) as [[body closing]|] eqn:Hlast; [|done].
  apply unsnoc_Some in Hlast. subst rest.
  destruct (Ascii.eqb_spec closing ")") as [Hclosing|]; [subst closing|done].
  destruct (string_forallb regex_dot body); [|done]. cbn [andb] in Hpattern.
  destruct (rsplit "," body) as [[front g4]|] eqn:Hsecond; [|done].
  destruct (rsplit "," front) as [[g2 g3]|] eqn:Hfirst; [|done].
  apply rsplit_Some in Hsecond, Hfirst. subst body front.
  injection Hpattern as -> -> -> ->.
  rewrite !append_assoc. reflexivity.
Qed.

Lemma folded_groups (text ratio base offset1 offset2 : string) :
  string_forallb folded text = true ->
  memory_pattern text = Some (ratio, base, offset1, offset2) ->
  string_forallb folded base = true
  /\ string_forallb folded offset1 = true
  /\ string_forallb folded offset2 = true.
Proof.
  intros Hfolded Hpattern. apply memory_pattern_Some in Hpattern. subst text.
  rewrite !string_forallb_app in Hfolded.
  repeat match goal with H : _ && _ = true |- _ => apply andb_prop in H as [? ?] end.
  done.
Qed.

(** An expansion starts with a minus sign exactly when the expression
    does. *)
Lemma expand_literals_head (expression : string) :
  match expand_literals expression with
  | String front _ => Ascii.eqb front "-" = begins_with_minus expression
  | EmptyString => expression = EmptyString
  end.
Proof.
  unfold expand_literals, tokenize. cbn [tokens].
  destruct (literal_at expression) as [[digits others]|] eqn:Hliteral.
  - destruct (literal_at_Some _ _ _ Hliteral) as (-> & _ & Hdigits & _).
    cbn [render begins_with_minus].
    destruct (to_string_first (hexadecimal_value digits)) as (first & rest & -> & Hminus).
    rewrite append_cons. change (Ascii.eqb "0" "-") with false.
    destruct (Ascii.eqb_spec first "-") as [Hfirst|]; [|done].
    apply Hminus in Hfirst.
    assert (0 <= hexadecimal_value digits); [|lia].
    unfold hexadecimal_value. rewrite <- leading_digits_hexadecimal_from by done.
    by apply leading_digits_nonneg.
  - by destruct expression.
Qed.

(** On an expression whose literals can be told apart, the value
    [encode_constant] stores is the value section 4.1 specifies. *)
Lemma stored_constant_specified (expression : string) :
  string_forallb normalised expression = true ->
  separate_literals expression = true ->
  match stored_constant exec_command expression with
  | Ok value => specified_constant (calculator exec_command) expression = Ok value
  | Throw e =>
      e = UndefinedBehaviour
      \/ exists e', specified_constant (calculator exec_command) expression = Throw e'
  end.
Proof.
  intros Hnormalised Hseparate. unfold stored_constant, specified_constant, calculator.
  cbv zeta.
  rewrite (process_base16_expands expression Hnormalised Hseparate).
  destruct (execute_bc exec_command (expand_literals expression) 0) as [evaluated|e];
    cbn [mbind result_bind]; [|eauto].
  destruct (strtoll evaluated 10 =? strtoull evaluated 10); [done|].
  pose proof (expand_literals_head expression) as Hhead.
  destruct (expand_literals expression) as [|front rest]; [by left|].
  rewrite Hhead. by destruct (begins_with_minus expression).
Qed.

(** *** Sub-operands *)

Lemma parameter_round_trip (param : string) :
  string_forallb folded param = true ->
  constant_literals_apart param = true ->
  match encode_each_parameter exec_command [] param with
  | Ok bytes =>
      exists text : string,
        canonical_parameter (calculator exec_command) param = Ok text
        /\ forall (output : list string) (input : list Z),
             decode_each_parameter output (bytes ++ input) = Ok (output ++ [text], input)
  | Throw e =>
      e = UndefinedBehaviour
      \/ exists e', canonical_parameter (calculator exec_command) param = Throw e'
  end.
Proof.
  intros Hfolded Hapart.
  destruct (encode_each_parameter exec_command [] param) as [bytes|e] eqn:Hencoded.
  - destruct (parameter_decoded exec_command param bytes Hencoded) as (text & Hdecode & Htext).
    exists text. split; [|done].
    unfold canonical_parameter.
    destruct Htext as [(-> & -> & ->) | (-> & expression & value & Hpattern & Hstored & ->)];
      [done|].
    rewrite Hpattern. unfold constant_literals_apart in Hapart. rewrite Hpattern in Hapart.
    pose proof (stored_constant_specified expression
                  (normalised_expression _ _ Hfolded Hpattern) Hapart) as Hspecified.
    rewrite Hstored in Hspecified. by rewrite Hspecified.
  - revert Hencoded. unfold encode_each_parameter, canonical_parameter.
    destruct (is_valid_register param) eqn:Hregister.
    + destruct (String.eqb (pop_back param) "%FER"); cbn [negb]; [|by eauto].
      apply is_valid_register_In, register_round_trip in Hregister
        as (width & index & -> & _).
      done.
    + unfold is_valid_constant.
      destruct (constant_pattern param) as [expression|] eqn:Hpattern; [|by eauto].
      rewrite (encode_constant_stored _ _ _ Hpattern).
      unfold constant_literals_apart in Hapart. rewrite Hpattern in Hapart.
      pose proof (stored_constant_specified expression
                    (normalised_expression _ _ Hfolded Hpattern) Hapart) as Hspecified.
      destruct (stored_constant exec_command expression) as [value|e'];
        cbn [mbind result_bind]; [done|].
      intros [= <-]. destruct Hspecified as [->|[e'' ->]]; [by left|]. right. eauto.
Qed.

(** *** Memory operands *)

Lemma memory_round_trip (ratio base offset1 offset2 : string) :
  In ratio ["1"; "2"; "4"; "8"; "16"] ->
  string_forallb folded base = true ->
  string_forallb folded offset1 = true ->
  string_forallb folded offset2 = true ->
  constant_literals_apart base = true ->
  constant_literals_apart offset1 = true ->
  constant_literals_apart offset2 = true ->
  let input :=
    {| TargetType := MEMORY; RegisterName := ""; ConstantExpression := "";
       memory := {| MemoryAccessRatio := ratio; MemoryBaseAddress := base;
                    MemoryOffset1 := offset1; MemoryOffset2 := offset2 |} |} in
  let canonical :=
    base ← canonical_parameter (calculator exec_command) base;
    offset1 ← canonical_parameter (calculator exec_command) offset1;
    offset2 ← canonical_parameter (calculator exec_command) offset2;
    Ok ("*" +:+ ratio +:+ "(" +:+ base +:+ ", " +:+ offset1 +:+ ", " +:+ offset2 +:+ ")") in
  match encode_memory exec_command [] input with
  | Ok bytes => exists text : string, canonical = Ok text /\ disassemble bytes = Ok text
  | Throw e => e = UndefinedBehaviour \/ exists e', canonical = Throw e'
  end.
Proof.
  intros Hratio Hfolded1 Hfolded2 Hfolded3 Hapart1 Hapart2 Hapart3 input canonical.
  subst input canonical.
  apply memory_ratio_cases in Hratio as (ratio_byte & Hpush & Hdecode).
  unfold encode_memory.
  cbn [memory MemoryAccessRatio MemoryBaseAddress MemoryOffset1 MemoryOffset2].
  rewrite Hpush. clear Hpush.
  change (push8 [] MEMORY_PREFIX) with [0x03]. cbn [app].
  pose proof (parameter_round_trip base Hfolded1 Hapart1) as Hbase.
  pose proof (parameter_round_trip offset1 Hfolded2 Hapart2) as Hoffset1.
  pose proof (parameter_round_trip offset2 Hfolded3 Hapart3) as Hoffset2.
  rewrite (encode_each_parameter_app _ _ base).
  destruct (encode_each_parameter exec_command [] base) as [bytes1|e1];
    [destruct Hbase as (text1 & -> & Hdecode1)
    |cbn [mbind result_bind]; destruct Hbase as [->|(e & ->)]; by eauto].
  cbn [mbind result_bind].
  rewrite (encode_each_parameter_app _ _ offset1).
  destruct (encode_each_parameter exec_command [] offset1) as [bytes2|e2];
    [destruct Hoffset1 as (text2 & -> & Hdecode2)
    |cbn [mbind result_bind]; destruct Hoffset1 as [->|(e & ->)]; by eauto].
  cbn [mbind result_bind].
  rewrite (encode_each_parameter_app _ _ offset2).
  destruct (encode_each_parameter exec_command [] offset2) as [bytes3|e3];
    [destruct Hoffset2 as (text3 & -> & Hdecode3)
    |cbn [mbind result_bind]; destruct Hoffset2 as [->|(e & ->)]; by eauto].
  cbn [mbind result_bind].
  eexists. split; [reflexivity|].
  unfold disassemble. rewrite <- !app_assoc. cbn [app].
  rewrite decode_as_memory, Hdecode.
  rewrite Hdecode1. cbn [mbind result_bind].
  rewrite Hdecode2. cbn [mbind result_bind].
  rewrite <- (app_nil_r bytes3), Hdecode3. cbn [mbind result_bind].
  rewrite !printed_app. cbn [printed fold_right app].
  rewrite !append_empty_r, !append_assoc. reflexivity.
Qed.

(** *** Operands *)

Lemma constant_not_memory (text expression : string) :
  constant_pattern text = Some expression -> memory_pattern text = None.
Proof.
  intros Hpattern. apply constant_pattern_Some in Hpattern as [-> _]. reflexivity.
Qed.

(** On a text whose literals can be told apart, assembling fails (short
    of a read the program performs without a check) exactly when the text
    has no canonical form; otherwise disassembling the bytes yields that
    form. *)
Lemma operand_round_trip (T : string) :
  literals_apart T = true ->
  match encode_target exec_command [] T with
  | Ok bytes =>
      exists text : string,
        canonicalize (calculator exec_command) ", " T = Ok text
        /\ disassemble bytes = Ok text
  | Throw e =>
      e = UndefinedBehaviour
      \/ exists e', canonicalize (calculator exec_command) ", " T = Throw e'
  end.
Proof.
  pose proof (parse_folds T) as Hfolded.
  unfold encode_target, parse, canonicalize, literals_apart. cbv zeta.
  set (text := capitalization (remove_space T)) in *.
  destruct (is_valid_register text) eqn:Hregister.
  - intros _. cbn [mbind result_bind TargetType register_target].
    apply is_valid_register_In, register_round_trip in Hregister
      as (width & index & -> & Hdecode).
    exists text. split; [done|].
    unfold disassemble. rewrite decode_as_register, Hdecode.
    cbn [mbind result_bind app printed fold_right]. by rewrite append_empty_r.
  - unfold is_valid_constant, is_valid_memory.
    destruct (constant_pattern text) as [expression|] eqn:Hconstant.
    + rewrite (constant_not_memory _ _ Hconstant).
      unfold constant_literals_apart. rewrite Hconstant. intros Hseparate.
      cbn [mbind result_bind TargetType constant_target].
      rewrite (encode_constant_stored _ _ _ Hconstant).
      pose proof (stored_constant_specified expression
                    (normalised_expression _ _ Hfolded Hconstant) Hseparate) as Hspecified.
      destruct (stored_constant exec_command expression) as [value|e] eqn:Hstored;
        cbn [mbind result_bind].
      * rewrite Hspecified. cbn [mbind result_bind]. eexists. split; [done|].
        unfold disassemble. rewrite decode_as_constant.
        rewrite <- (app_nil_r (le_bytes 8 value)).
        rewrite (decode_constant_stored value [] [])
          by (by apply stored_constant_range with exec_command expression).
        cbn [mbind result_bind app printed fold_right]. by rewrite append_empty_r.
      * destruct Hspecified as [->|[e' ->]]; [by left|]. right. eauto.
    + destruct (memory_pattern text) as [[[[ratio base] offset1] offset2]|] eqn:Hmemory.
      * intros [[Hapart1 Hapart2]%andb_prop Hapart3]%andb_prop.
        destruct (folded_groups _ _ _ _ _ Hfolded Hmemory) as (? & ? & ?).
        cbn [mbind result_bind TargetType].
        apply (memory_round_trip ratio base offset1 offset2); try done.
        by apply memory_pattern_ratio in Hmemory.
      * intros _. cbn [mbind result_bind]. eauto.
Qed.

(** C1, as amended.  Let [T] be an operand text whose constants have
    literals that can be told apart: every X belongs to a hexadecimal
    literal, every literal fits 64 bits, and none is the head of a later,
    longer one.  Whenever assembling [T] succeeds, disassembling the bytes it
    produced yields the canonical text of [T]: spaces stripped, upper case,
    each constant rendered from the value section 4.1 gives it (hexadecimal
    when it is not negative, decimal with a leading minus otherwise), and the
    three sub-operands of a memory operand separated by a comma and a
    space. *)
Theorem assemble_disassemble_canonical (T : string) (bytes : list Z) :
  literals_apart T = true ->
  encode_target exec_command [] T = Ok bytes ->
  disassemble bytes = canonicalize (calculator exec_command) ", " T.
Proof.
  intros Hapart Hassembled. pose proof (operand_round_trip T Hapart) as H.
  rewrite Hassembled in H. destruct H as (text & -> & ->). reflexivity.
Qed.


End CanonicalRoundTrip.


Lemma assemble_disassemble_canonical_witness :
  Assembler.disassemble [3; 4; 1; 100; 1; 1; 100; 2; 2; 0; 17; 1; 0; 0; 0; 0; 0; 0]
  = Assembler.canonicalize (calculator (bc_prints "273")) ", " "*4(%fer1, %FER2, $(0xFF + 0x12))".
Proof.
  apply (assemble_disassemble_canonical (bc_prints "273")); reflexivity.
Defined.

(** C1 as the specification states it fails on a memory operand: the text
    below is accepted by the parser and free of blanks, so it is its own
    canonical form when every space is stripped, but the disassembler prints
    a blank after each comma.  (The text of the last part is the memory
    form of the specification's grammar, with an access width: the parser
    rejects it, so nothing is assembled at all.) *)
Lemma round_trip_counterexample :
  let T := "*2(%FER0,%FER1,%FER2)" in
  Assembler.is_valid_memory T = true
  /\ Assembler.canonicalize (calculator (bc_prints "")) "," T = Ok "*2(%FER0,%FER1,%FER2)"
  /\ (Assembler.encode_target (bc_prints "") [] T ≫= Assembler.disassemble)
     = Ok "*2(%FER0, %FER1, %FER2)"
  /\ Assembler.encode_target (bc_prints "") [] "*2&64(%FER0,%FER1,%FER2)"
     = Throw (TargetExpressionError "*2&64(%FER0,%FER1,%FER2)").
Proof. repeat split; reflexivity. Qed.

(** Where the literals cannot be told apart, the round trip fails: on a
    host whose calculator adds, the text below is assembled into the constant
    11, 1 + 10, while section 4.1 gives it the value 17, 1 + 16. *)
Lemma round_trip_literal_collision :
  let T := "$(0x1+0x10)" in
  let bc := bc_knows [("1+10", "11"); ("1+16", "17")] in
  literals_apart T = false
  /\ (Assembler.encode_target bc [] T ≫= Assembler.disassemble) = Ok "$(0xB)"
  /\ Assembler.canonicalize (calculator bc) ", " T = Ok "$(0x11)".
Proof. repeat split; vm_compute; reflexivity. Qed.
